(** * Verification of the SPECIMIN evaluation driver ([main.py])

    A shallow embedding of the evaluation script: the directory layout
    manager, the git wrappers, the command synthesiser, the execution engine
    and the batch loop, followed by the properties of the written
    specification that the code satisfies (or does not).

    Conventions of the embedding:
    - a Python [str] is a Rocq [string] holding its UTF-8 encoding; every
      string operation the script uses ([replace] of one ASCII character,
      [rstrip], [+], [os.path] functions) acts identically on code points
      and on their UTF-8 bytes;
    - a Python [bytes] object is a [string] as well;
    - the file system maps absolute component lists to directories and
      files, without symbolic links or permissions; a file holds the text
      written to it;
    - external programs (git, the gradle run of the minimiser) are an
      oracle [sys] that maps a call and the file system it starts in to an
      outcome and the file system it leaves;
    - Python exceptions are values of type [exn]; effectful code lives in
      the monad [M], which threads the [world] and keeps the effects made
      before an exception was raised. *)

From Stdlib Require Import String Ascii List ZArith Bool Lia DecimalString.
Import ListNotations.
Local Open Scope string_scope.
Local Open Scope Z_scope.

Set Implicit Arguments.

(** ** Python string primitives *)

Module PyStr.

Definition nonempty (s : string) : bool :=
  match s with EmptyString => false | String _ _ => true end.

Definition startswith_char (c : ascii) (s : string) : bool :=
  match s with EmptyString => false | String a _ => Ascii.eqb a c end.

Fixpoint last_char (s : string) : option ascii :=
  match s with
  | EmptyString => None
  | String a EmptyString => Some a
  | String _ r => last_char r
  end.

Definition endswith_char (c : ascii) (s : string) : bool :=
  match last_char s with Some a => Ascii.eqb a c | None => false end.

(** [s.rfind(c)]: the highest index of [c] in [s], or [-1]. *)
Fixpoint rfind (c : ascii) (s : string) : Z :=
  match s with
  | EmptyString => -1
  | String a r =>
      let i := rfind c r in
      if 0 <=? i then i + 1 else if Ascii.eqb a c then 0 else -1
  end.

(** [s[n:]] and [s[:n]] for [0 <= n]. *)
Fixpoint drop (n : nat) (s : string) : string :=
  match n, s with
  | O, _ => s
  | S n', String _ r => drop n' r
  | S _, EmptyString => EmptyString
  end.

Fixpoint take (n : nat) (s : string) : string :=
  match n, s with
  | O, _ => EmptyString
  | S n', String a r => String a (take n' r)
  | S _, EmptyString => EmptyString
  end.

(** [s[i:i+1]] *)
Definition char_at (s : string) (i : nat) : string := take 1 (drop i s).

(** [s.replace(a, b)] for one-character [a] and [b]. *)
Fixpoint replace_char (a b : ascii) (s : string) : string :=
  match s with
  | EmptyString => EmptyString
  | String c r => String (if Ascii.eqb c a then b else c) (replace_char a b r)
  end.

(** [s.rstrip(c)] for a one-character argument. *)
Fixpoint rstrip_char (c : ascii) (s : string) : string :=
  match s with
  | EmptyString => EmptyString
  | String a r =>
      match rstrip_char c r with
      | EmptyString => if Ascii.eqb a c then EmptyString else String a EmptyString
      | r' => String a r'
      end
  end.

(** [s.split(c)] *)
Fixpoint split (c : ascii) (s : string) : list string :=
  match s with
  | EmptyString => [EmptyString]
  | String a r =>
      if Ascii.eqb a c then EmptyString :: split c r
      else match split c r with
           | h :: t => String a h :: t
           | [] => [String a EmptyString]
           end
  end.

(** [sep.join(l)] *)
Fixpoint join_with (sep : string) (l : list string) : string :=
  match l with
  | [] => EmptyString
  | [x] => x
  | x :: r => x ++ sep ++ join_with sep r
  end.

(** [bytes.decode("utf-8")] in strict mode, as CPython's decoder scans the
    bytes: a character is one to four bytes long, read off its first byte;
    the scan stops at the first ill-formed character and reports where it
    starts, where the offending bytes end and why.  Overlong forms,
    surrogates and code points above U+10FFFF are refused at the second
    byte. *)
Record utf8_error := Utf8Error {
  err_start : nat;       (* position of the first byte of the character *)
  err_end : nat;         (* position after the last offending byte *)
  err_reason : string
}.

Definition is_continuation (b : N) : bool := ((128 <=? b) && (b <=? 191))%N.

Definition invalid_start (pos : nat) : utf8_error :=
  Utf8Error pos (pos + 1)%nat "invalid start byte".

(** [seen] bytes of the character were read before the bad one. *)
Definition invalid_continuation (pos seen : nat) : utf8_error :=
  Utf8Error pos (pos + seen)%nat "invalid continuation byte".

(** The data ends [seen] bytes into the character. *)
Definition unexpected_end (pos seen : nat) : utf8_error :=
  Utf8Error pos (pos + seen)%nat "unexpected end of data".

Fixpoint utf8_scan (s : string) (pos : nat) : option utf8_error :=
  match s with
  | EmptyString => None
  | String c r =>
      let ch := N_of_ascii c in
      if (ch <? 128)%N then utf8_scan r (pos + 1)%nat
      else if (ch <? 194)%N then Some (invalid_start pos)
      else if (ch <? 224)%N then
        match r with
        | EmptyString => Some (unexpected_end pos 1)
        | String c2 r2 =>
            if is_continuation (N_of_ascii c2) then utf8_scan r2 (pos + 2)%nat
            else Some (invalid_continuation pos 1)
        end
      else if (ch <? 240)%N then
        match r with
        | EmptyString => Some (unexpected_end pos 1)
        | String c2 r2 =>
            let ch2 := N_of_ascii c2 in
            if negb (is_continuation ch2)
               || (if (ch2 <? 160)%N then (ch =? 224)%N else (ch =? 237)%N)
            then Some (invalid_continuation pos 1)
            else
              match r2 with
              | EmptyString => Some (unexpected_end pos 2)
              | String c3 r3 =>
                  if is_continuation (N_of_ascii c3) then utf8_scan r3 (pos + 3)%nat
                  else Some (invalid_continuation pos 2)
              end
        end
      else if (ch <? 245)%N then
        match r with
        | EmptyString => Some (unexpected_end pos 1)
        | String c2 r2 =>
            let ch2 := N_of_ascii c2 in
            if negb (is_continuation ch2)
               || (if (ch2 <? 144)%N then (ch =? 240)%N else (ch =? 244)%N)
            then Some (invalid_continuation pos 1)
            else
              match r2 with
              | EmptyString => Some (unexpected_end pos 2)
              | String c3 r3 =>
                  if negb (is_continuation (N_of_ascii c3))
                  then Some (invalid_continuation pos 2)
                  else
                    match r3 with
                    | EmptyString => Some (unexpected_end pos 3)
                    | String c4 r4 =>
                        if is_continuation (N_of_ascii c4)
                        then utf8_scan r4 (pos + 4)%nat
                        else Some (invalid_continuation pos 3)
                    end
              end
        end
      else Some (invalid_start pos)
  end.

Definition utf8_valid (s : string) : bool :=
  match utf8_scan s 0 with None => true | Some _ => false end.

(** Two lower-case hexadecimal digits, as [%02x] prints a byte. *)
Definition hex_digit (n : N) : string :=
  match String.get (N.to_nat n) "0123456789abcdef" with
  | Some c => String c EmptyString
  | None => EmptyString
  end.

Definition hex_byte (c : ascii) : string :=
  hex_digit (N_of_ascii c / 16)%N ++ hex_digit (N_of_ascii c mod 16)%N.

Definition decimal (n : nat) : string := NilEmpty.string_of_uint (Nat.to_uint n).

(** [str(e)] of the [UnicodeDecodeError] raised for the bytes [b]: one
    offending byte is shown in hexadecimal, a longer run by its first and
    last position. *)
Definition utf8_error_str (b : string) (e : utf8_error) : string :=
  if Nat.eqb (err_end e) (err_start e + 1)%nat then
    "'utf-8' codec can't decode byte 0x"
      ++ match String.get (err_start e) b with
         | Some c => hex_byte c
         | None => EmptyString
         end
      ++ " in position " ++ decimal (err_start e) ++ ": " ++ err_reason e
  else
    "'utf-8' codec can't decode bytes in position "
      ++ decimal (err_start e) ++ "-" ++ decimal (err_end e - 1)%nat
      ++ ": " ++ err_reason e.

End PyStr.

(** ** [os.path] (the POSIX flavour, [os.sep = "/"]) *)

Module OsPath.
Import PyStr.

Definition sep_char : ascii := "/"%char.
Definition sep : string := "/".
Definition curdir : string := ".".
Definition pardir : string := "..".

(** One step of [posixpath.join]. *)
Definition join (path b : string) : string :=
  if startswith_char sep_char b then b
  else if negb (nonempty path) || endswith_char sep_char path then path ++ b
  else path ++ sep ++ b.

Definition join3 (a b c : string) : string := join (join a b) c.

Definition isabs (p : string) : bool := startswith_char sep_char p.

Definition basename (p : string) : string :=
  let i := rfind sep_char p + 1 in
  drop (Z.to_nat i) p.

(** The loop of [genericpath._splitext] that skips the leading dots of the
    last component; [n] is the number of iterations left. *)
Fixpoint splitext_scan (p : string) (filenameIndex n : nat) : bool :=
  match n with
  | O => false
  | S n' =>
      if negb (String.eqb (char_at p filenameIndex) ".") then true
      else splitext_scan p (S filenameIndex) n'
  end.

Definition splitext (p : string) : string * string :=
  let sepIndex := rfind sep_char p in
  let dotIndex := rfind "."%char p in
  if sepIndex <? dotIndex then
    if splitext_scan p (Z.to_nat (sepIndex + 1)) (Z.to_nat (dotIndex - (sepIndex + 1)))
    then (take (Z.to_nat dotIndex) p, drop (Z.to_nat dotIndex) p)
    else (p, EmptyString)
  else (p, EmptyString).

Definition normpath_step (initial_slashes : nat) (new_comps : list string)
           (comp : string) : list string :=
  if String.eqb comp EmptyString || String.eqb comp curdir then new_comps
  else if negb (String.eqb comp pardir)
          || (Nat.eqb initial_slashes 0 && Nat.eqb (List.length new_comps) 0)
          || (negb (Nat.eqb (List.length new_comps) 0)
              && String.eqb (last new_comps EmptyString) pardir)
       then (new_comps ++ [comp])%list
       else removelast new_comps.

Definition normpath (path : string) : string :=
  if negb (nonempty path) then curdir
  else
    let initial_slashes :=
      if startswith_char sep_char path then
        if String.eqb (take 2 path) "//" && negb (String.eqb (take 3 path) "///")
        then 2%nat else 1%nat
      else 0%nat in
    let comps := fold_left (normpath_step initial_slashes) (split sep_char path) [] in
    let path' := join_with sep comps in
    let path'' := (String.concat EmptyString (repeat sep initial_slashes)) ++ path' in
    if nonempty path'' then path'' else curdir.

Definition abspath (cwd path : string) : string :=
  if isabs path then normpath path else normpath (join cwd path).

Fixpoint common_prefix_len (a b : list string) : nat :=
  match a, b with
  | x :: a', y :: b' => if String.eqb x y then S (common_prefix_len a' b') else O
  | _, _ => O
  end.

(** [os.path.relpath(path, start)]; [None] stands for the [ValueError]
    raised on an empty [path]. *)
Definition relpath (cwd path start : string) : option string :=
  if negb (nonempty path) then None
  else
    let start_list := filter nonempty (split sep_char (abspath cwd start)) in
    let path_list := filter nonempty (split sep_char (abspath cwd path)) in
    let i := common_prefix_len start_list path_list in
    let rel_list := (repeat pardir (List.length start_list - i)%nat ++ skipn i path_list)%list in
    match rel_list with
    | [] => Some curdir
    | x :: r => Some (fold_left join r x)
    end.

End OsPath.

(** ** Exceptions and outcomes *)

Inductive exn_kind :=
| ValueError
| FileNotFoundError
| FileExistsError
| NotADirectoryError
| IsADirectoryError
| UnicodeDecodeError
| JSONDecodeError
| TimeoutExpired
| OtherException.

(** An exception with the text that [str(e)] gives. Every kind above is a
    subclass of Python's [Exception]. *)
Record exn := Exn { exn_class : exn_kind; exn_str : string }.

Inductive outcome (A : Type) :=
| Ok (a : A)
| Raise (e : exn).
Arguments Ok {A} a.
Arguments Raise {A} e.

Definition is_timeout (e : exn) : bool :=
  match exn_class e with TimeoutExpired => true | _ => false end.

(** ** The file system *)

Inductive node :=
| File (content : string)
| Dir.

Definition path := list string.

(** Absolute component lists to nodes; the root [[]] is always a directory. *)
Definition FS := path -> option node.

Module Fs.
Import PyStr.

Fixpoint path_eqb (p q : path) : bool :=
  match p, q with
  | [], [] => true
  | a :: p', b :: q' => String.eqb a b && path_eqb p' q'
  | _, _ => false
  end.

Fixpoint is_prefix (p q : path) : bool :=
  match p, q with
  | [], _ => true
  | a :: p', b :: q' => String.eqb a b && is_prefix p' q'
  | _ :: _, [] => false
  end.

Definition lookup (fs : FS) (p : path) : option node :=
  match p with [] => Some Dir | _ => fs p end.

Definition set (fs : FS) (p : path) (n : option node) : FS :=
  fun q => if path_eqb q p then n else fs q.

(** Removes [p] and everything under it. *)
Definition prune (fs : FS) (p : path) : FS :=
  fun q => if is_prefix p q then None else fs q.

Definition of_list (l : list (path * node)) : FS :=
  fun q =>
    match find (fun e => path_eqb (fst e) q) l with
    | Some e => Some (snd e)
    | None => None
    end.

(** Moving from directory [cur] along one path component. *)
Definition step (cur : path) (c : string) : path :=
  if String.eqb c EmptyString || String.eqb c "." then cur
  else if String.eqb c ".." then removelast cur
  else (cur ++ [c])%list.

Definition enoent (p : string) : exn :=
  Exn FileNotFoundError ("[Errno 2] No such file or directory: '" ++ p ++ "'").
Definition enotdir (p : string) : exn :=
  Exn NotADirectoryError ("[Errno 20] Not a directory: '" ++ p ++ "'").
Definition eisdir (p : string) : exn :=
  Exn IsADirectoryError ("[Errno 21] Is a directory: '" ++ p ++ "'").
Definition eexist (p : string) : exn :=
  Exn FileExistsError ("[Errno 17] File exists: '" ++ p ++ "'").

(** Path resolution as the kernel does it: every component is looked up in
    a directory that exists. *)
Fixpoint walk (fs : FS) (name : string) (cur : path) (comps : list string)
  : outcome path :=
  match comps with
  | [] => Ok cur
  | c :: rest =>
      match lookup fs cur with
      | Some Dir => walk fs name (step cur c) rest
      | Some (File _) => Raise (enotdir name)
      | None => Raise (enoent name)
      end
  end.

Definition start_of (cwd : path) (name : string) : path :=
  if startswith_char "/"%char name then [] else cwd.

Definition resolve (fs : FS) (cwd : path) (name : string) : outcome path :=
  if negb (nonempty name) then Raise (enoent name)
  else walk fs name (start_of cwd name) (split "/"%char name).

Definition exists_ (fs : FS) (cwd : path) (name : string) : bool :=
  match resolve fs cwd name with
  | Ok p => match lookup fs p with Some _ => true | None => false end
  | Raise _ => false
  end.

Definition isdir (fs : FS) (cwd : path) (name : string) : bool :=
  match resolve fs cwd name with
  | Ok p => match lookup fs p with Some Dir => true | _ => false end
  | Raise _ => false
  end.

(** [os.makedirs(name, exist_ok=True)]: missing directories are created
    along the way; a regular file on the way is an error. *)
Fixpoint makedirs_walk (fs : FS) (name : string) (cur : path)
         (comps : list string) : outcome FS :=
  match comps with
  | [] =>
      match lookup fs cur with
      | Some Dir => Ok fs
      | _ => Raise (eexist name)
      end
  | c :: rest =>
      match lookup fs cur with
      | Some Dir =>
          let next := step cur c in
          match lookup fs next with
          | None => makedirs_walk (set fs next (Some Dir)) name next rest
          | Some _ => makedirs_walk fs name next rest
          end
      | Some (File _) => Raise (enotdir name)
      | None => Raise (enoent name)
      end
  end.

Definition makedirs (fs : FS) (cwd : path) (name : string) : outcome FS :=
  if negb (nonempty name) then Raise (enoent name)
  else makedirs_walk fs name (start_of cwd name) (split "/"%char name).

(** [shutil.rmtree(name)] *)
Definition rmtree (fs : FS) (cwd : path) (name : string) : outcome FS :=
  match resolve fs cwd name with
  | Raise e => Raise e
  | Ok p =>
      match lookup fs p with
      | Some Dir => Ok (prune fs p)
      | Some (File _) => Raise (enotdir name)
      | None => Raise (enoent name)
      end
  end.

(** [os.remove(name)] *)
Definition remove (fs : FS) (cwd : path) (name : string) : outcome FS :=
  match resolve fs cwd name with
  | Raise e => Raise e
  | Ok p =>
      match lookup fs p with
      | Some (File _) => Ok (set fs p None)
      | Some Dir => Raise (eisdir name)
      | None => Raise (enoent name)
      end
  end.

(** [open(name, 'w')]: creates the file or truncates it; the handle is the
    resolved path. *)
Definition open_w (fs : FS) (cwd : path) (name : string) : outcome (path * FS) :=
  match resolve fs cwd name with
  | Raise e => Raise e
  | Ok p =>
      match lookup fs p with
      | Some Dir => Raise (eisdir name)
      | _ => Ok (p, set fs p (Some (File EmptyString)))
      end
  end.

(** [file.write(text)] on a handle opened by [open_w], followed by the
    close at the end of the [with] block. *)
Definition write (fs : FS) (handle : path) (text : string) : FS :=
  match fs handle with
  | Some (File old) => set fs handle (Some (File (old ++ text)))
  | _ => fs
  end.

End Fs.

(** ** The world and the monad of effects *)

Inductive cmdline :=
| Argv (args : list string)
| Shell (command : string).

(** One [subprocess.run] call. *)
Record call := Call {
  call_cmd : cmdline;
  call_cwd : string;
  call_timeout : option Z
}.

(** [subprocess.CompletedProcess] *)
Record completed := Completed {
  returncode : Z;
  stdout : string;
  stderr : string
}.

(** What an external program does: its outcome ([TimeoutExpired] and the
    errors of starting the process are exceptions) and the file system it
    leaves behind. *)
Definition oracle := call -> FS -> outcome completed * FS.

Record world := World {
  w_fs : FS;
  w_cwd : string;          (* [os.getcwd()], never changed by the script *)
  w_calls : list call;     (* the external programs started so far *)
  w_stdout : list string   (* the lines printed so far *)
}.

Definition cwd_path (w : world) : path :=
  filter PyStr.nonempty (PyStr.split "/"%char (w_cwd w)).

Definition with_fs (w : world) (fs : FS) : world :=
  World fs (w_cwd w) (w_calls w) (w_stdout w).

Definition M (A : Type) := world -> outcome A * world.

Definition ret {A} (a : A) : M A := fun w => (Ok a, w).

Definition raise {A} (e : exn) : M A := fun w => (Raise e, w).

Definition bind {A B} (m : M A) (k : A -> M B) : M B :=
  fun w =>
    match m w with
    | (Ok a, w') => k a w'
    | (Raise e, w') => (Raise e, w')
    end.

(** [try: m  except ... as e: h e] with a handler for every exception. *)
Definition try_except {A} (m : M A) (h : exn -> M A) : M A :=
  fun w =>
    match m w with
    | (Ok a, w') => (Ok a, w')
    | (Raise e, w') => h e w'
    end.

Declare Scope py_scope.
Delimit Scope py_scope with py.
Notation "x <- m ;; k" := (bind m (fun x => k))
  (at level 61, m at next level, right associativity) : py_scope.
Notation "m ;; k" := (bind m (fun _ => k))
  (at level 61, right associativity) : py_scope.
Local Open Scope py_scope.

Definition lift_outcome {A} (o : outcome A) : M A := fun w => (o, w).

Definition lift_fs (op : FS -> path -> outcome FS) : M unit :=
  fun w =>
    match op (w_fs w) (cwd_path w) with
    | Ok fs' => (Ok tt, with_fs w fs')
    | Raise e => (Raise e, w)
    end.

Definition print (line : string) : M unit :=
  fun w => (Ok tt, World (w_fs w) (w_cwd w) (w_calls w) (w_stdout w ++ [line])).

Definition getcwd : M string := fun w => (Ok (w_cwd w), w).

Definition os_path_exists (name : string) : M bool :=
  fun w => (Ok (Fs.exists_ (w_fs w) (cwd_path w) name), w).

Definition os_path_isdir (name : string) : M bool :=
  fun w => (Ok (Fs.isdir (w_fs w) (cwd_path w) name), w).

Definition os_makedirs (name : string) : M unit :=
  lift_fs (fun fs cwd => Fs.makedirs fs cwd name).

Definition shutil_rmtree (name : string) : M unit :=
  lift_fs (fun fs cwd => Fs.rmtree fs cwd name).

Definition os_remove (name : string) : M unit :=
  lift_fs (fun fs cwd => Fs.remove fs cwd name).

Definition open_w (name : string) : M path :=
  fun w =>
    match Fs.open_w (w_fs w) (cwd_path w) name with
    | Ok (h, fs') => (Ok h, with_fs w fs')
    | Raise e => (Raise e, w)
    end.

Definition file_write (handle : path) (text : string) : M unit :=
  fun w => (Ok tt, with_fs w (Fs.write (w_fs w) handle text)).

(** [b.decode("utf-8")] *)
Definition decode_utf8 (b : string) : outcome string :=
  match PyStr.utf8_scan b 0 with
  | None => Ok b
  | Some e => Raise (Exn UnicodeDecodeError (PyStr.utf8_error_str b e))
  end.

(** ** Data model *)

(** Modelled from the spec: the [Result] record of module [Result], which
    is not among the sources; the script builds it from a name, a status
    and a reason and reads these three attributes back. *)
Record Result := mkResult {
  name : string;
  status : string;
  reason : string
}.

(** One entry of the [targets] list of an issue. The script reads the
    dictionary under the keys of [Keyvalue.JsonKeys] (not among the sources):
    three keys it always reads and the inner-class key, which may be
    absent. *)
Record target := Target {
  method_name : string;
  file_name : string;
  package : string;
  inner_class : option string
}.

(** One issue of the parsed corpus.  [main] reads the identifier under the
    literal key [issue_id] and [performEvaluation] under
    [JsonKeys.ISSUE_ID]; both are the field [issue_id] here. *)
Record issue := Issue {
  issue_id : string;
  url : string;
  branch : string;
  commit_hash : string;
  root_dir : string;
  targets : list target
}.

Definition dquote_char : ascii := ascii_of_nat 34.
Definition dquote : string := String (ascii_of_nat 34) EmptyString.
Definition squote : string := "'".
Definition newline : string := String (ascii_of_nat 10) EmptyString.

Definition issue_folder_dir : string := "ISSUES".
Definition specimin_input : string := "input".
Definition specimin_output : string := "output".
Definition specimin_project_name : string := "specimin".
Definition specimin_source_url : string := "https://github.com/kelloggm/specimin.git".
Definition TIMEOUT_DURATION : Z := 300.

(** ** The script *)

Section Script.

Import PyStr OsPath.

(** The behaviour of the external programs. *)
Variable sys : oracle.

(** The report generator, [TableGenerator(evaluation_results).generateTable()]
    of module [report_builder], which is not among the sources: a parameter,
    any computation on the world (it may print, write files, start programs
    and raise). *)
Variable generateTable : list Result -> M unit.

Definition subprocess_run (c : call) : M completed :=
  fun w =>
    let (o, fs') := sys c (w_fs w) in
    let w' := World fs' (w_cwd w) (w_calls w ++ [c]) (w_stdout w) in
    match o with
    | Ok r => (Ok r, w')
    | Raise e => (Raise e, w')
    end.

Definition get_repository_name (github_ssh : string) : string :=
  let repository_name := fst (splitext (basename github_ssh)) in
  repository_name.

Definition create_issue_directory (issue_container_dir issue_id : string)
  : M string :=
  let issue_directory_name := join issue_container_dir issue_id in
  os_makedirs issue_directory_name ;;
  let specimin_input_dir := join issue_directory_name specimin_input in
  let specimin_output_dir := join issue_directory_name specimin_output in
  os_makedirs specimin_input_dir ;;
  present <- os_path_exists specimin_output ;;
  (if present : bool then shutil_rmtree specimin_output else ret tt) ;;
  os_makedirs specimin_output_dir ;;
  ret specimin_input_dir.

Definition is_git_directory (dir : string) : M bool :=
  let git_dir_path := join dir ".git" in
  e <- os_path_exists git_dir_path ;;
  d <- os_path_isdir git_dir_path ;;
  ret (e && d).

Definition git_clone (url directory : string) : call :=
  Call (Argv ["git"; "clone"; url]) directory None.

Definition clone_repository (url directory : string) : M unit :=
  let project_name := get_repository_name url in
  present <- os_path_exists (directory ++ "/" ++ project_name) ;;
  if present : bool then
    print (project_name ++ " repository already exists. Aborting cloning")
  else
    (subprocess_run (git_clone url directory) ;; ret tt).

Definition not_a_git_directory (directory : string) : exn :=
  Exn ValueError (directory ++ " is not a valid git directory").

Definition git_checkout (rev directory : string) : call :=
  Call (Argv ["git"; "checkout"; rev]) directory None.

Definition change_branch (branch directory : string) : M unit :=
  git <- is_git_directory directory ;;
  if negb git then raise (not_a_git_directory directory)
  else
    (subprocess_run (git_checkout branch directory) ;; ret tt).

Definition checkout_commit (commit_hash directory : string) : M bool :=
  git <- is_git_directory directory ;;
  if negb git then raise (not_a_git_directory directory)
  else
    (result <- subprocess_run (git_checkout commit_hash directory) ;;
     (if returncode result =? 0
      then print ("Successfully checked-out commit " ++ commit_hash ++ " in " ++ directory)
      else print ("Failed to checkout commit " ++ commit_hash ++ " in " ++ directory)) ;;
     ret (returncode result =? 0)).

Definition perform_git_pull (directory : string) : M unit :=
  subprocess_run (Call (Argv ["git"; "pull"; "origin"; "--rebase"]) directory None) ;;
  ret tt.

Definition clone_specimin (path_to_clone url : string) : M unit :=
  let spcimin_source_path := join issue_folder_dir specimin_project_name in
  e <- os_path_exists spcimin_source_path ;;
  d <- os_path_isdir spcimin_source_path ;;
  if e && d then perform_git_pull spcimin_source_path
  else clone_repository url path_to_clone.

(** A flag and its quoted value, as in ["--root" + " " + f"\"{root_dir}\""]. *)
Definition subcommand (flag value : string) : string :=
  flag ++ " " ++ dquote ++ value ++ dquote.

(** The body of the loop over [targets]; the state is the pair of
    [target_file_list] and [target_method_list]. *)
Definition collect_target (lists : list string * list string) (t : target)
  : list string * list string :=
  let (target_file_list, target_method_list) := lists in
  let dot_replaced_package_name := replace_char "."%char "/"%char (package t) in
  let target_file_list :=
    if nonempty (file_name t)
    then (target_file_list ++ [join dot_replaced_package_name (file_name t)])%list
    else target_file_list in
  let target_method_list :=
    if nonempty (method_name t) then
      let inner_class_name :=
        match inner_class t with
        | Some c => if nonempty c then "." ++ c else EmptyString
        | None => EmptyString
        end in
      let qualified_method_name :=
        package t ++ "." ++ fst (splitext (file_name t)) ++ inner_class_name
                  ++ "#" ++ method_name t in
      (target_method_list ++ [qualified_method_name])%list
    else target_method_list in
  (target_file_list, target_method_list).

(** [cwd] is the working directory of the script, which [os.path.relpath]
    reads through [os.getcwd()]. *)
Definition build_specimin_command (cwd project_name issue_input_dir specimin_dir
                                   root_dir : string) (targets : list target)
  : outcome string :=
  match relpath cwd issue_input_dir specimin_dir with
  | None => Raise (Exn ValueError "no path specified")
  | Some relative_path_of_target_dir =>
      let output_dir := join relative_path_of_target_dir specimin_output in
      let root_dir :=
        join (join (join relative_path_of_target_dir specimin_input) project_name)
             root_dir in
      let root_dir := rstrip_char "/"%char root_dir ++ sep in
      let (target_file_list, target_method_list) :=
        fold_left collect_target targets ([], []) in
      let output_dir_subcommand := subcommand "--outputDirectory" output_dir in
      let root_dir_subcommand := subcommand "--root" root_dir in
      let target_file_subcommand :=
        fold_left (fun acc file => acc ++ subcommand "--targetFile" file)
                  target_file_list EmptyString in
      let target_method_subcommand :=
        fold_left (fun acc method => acc ++ subcommand "--targetMethod" method)
                  target_method_list EmptyString in
      let command_args :=
        root_dir_subcommand ++ " " ++ output_dir_subcommand ++ " "
          ++ target_file_subcommand ++ " " ++ target_method_subcommand in
      let command :=
        "./gradlew" ++ " " ++ "run" ++ " " ++ "--args=" ++ squote ++ command_args ++ squote in
      Ok command
  end.

Definition error_msg_file (issue_name : string) : string :=
  join3 issue_folder_dir issue_name (issue_name ++ "_error.txt").

Definition specimin_call (command directory : string) : call :=
  Call (Shell command) directory (Some TIMEOUT_DURATION).

(** The [else] branch of [run_specimin]: the error log is rewritten. *)
Definition write_error_log (issue_name : string) (result : completed) : M Result :=
  let error_msg_file := error_msg_file issue_name in
  present <- os_path_exists error_msg_file ;;
  (if present : bool then os_remove error_msg_file else ret tt) ;;
  file <- open_w error_msg_file ;;
  text <- lift_outcome (decode_utf8 (stderr result)) ;;
  file_write file text ;;
  ret (mkResult issue_name "FAIL" error_msg_file).

Definition run_specimin_try (issue_name command directory : string) : M Result :=
  result <- subprocess_run (specimin_call command directory) ;;
  if returncode result =? 0 then ret (mkResult issue_name "PASS" EmptyString)
  else write_error_log issue_name result.

Definition run_specimin_except (issue_name : string) (e : exn) : M Result :=
  if is_timeout e then ret (mkResult issue_name "FAIL" "Timeout")
  else ret (mkResult issue_name "FAIL" ("Unhandled exception occurred: " ++ exn_str e)).

Definition run_specimin (issue_name command directory : string) : M Result :=
  try_except (run_specimin_try issue_name command directory)
             (run_specimin_except issue_name).

Definition performEvaluation (issue_data : issue) : M Result :=
  let issue_id := issue_id issue_data in
  let url := url issue_data in
  let branch := branch issue_data in
  let commit_hash := commit_hash issue_data in
  input_dir <- create_issue_directory issue_folder_dir issue_id ;;
  clone_repository url input_dir ;;
  let repo_name := get_repository_name url in
  (if nonempty branch then change_branch branch (input_dir ++ "/" ++ repo_name)
   else ret tt) ;;
  (if nonempty commit_hash
   then (checkout_commit commit_hash (input_dir ++ "/" ++ repo_name) ;; ret tt)
   else ret tt) ;;
  cwd <- getcwd ;;
  specimin_command <-
    lift_outcome
      (build_specimin_command cwd repo_name
         (join issue_folder_dir issue_id)
         (join issue_folder_dir specimin_project_name)
         (root_dir issue_data) (targets issue_data)) ;;
  result <- run_specimin issue_id specimin_command
              (join issue_folder_dir specimin_project_name) ;;
  print (name result ++ " - " ++ status result) ;;
  ret result.

(** The loop of [main] over the parsed corpus; [evaluation_results] is the
    list built so far. *)
Fixpoint evaluate_issues (parsed_data : list issue) (evaluation_results : list Result)
  : M (list Result) :=
  match parsed_data with
  | [] => ret evaluation_results
  | issue :: rest =>
      if negb (String.eqb (issue_id issue) "cf-6282")
      then evaluate_issues rest evaluation_results
      else
        (result <- performEvaluation issue ;;
         evaluate_issues rest (evaluation_results ++ [result])%list)
  end.

(** The console listing at the end of [main]. *)
Definition listing_row (case : nat) (minimization_result : Result) : string :=
  "(" ++ NilEmpty.string_of_uint (Nat.to_uint case) ++ ")"
      ++ name minimization_result ++ "    |    "
      ++ status minimization_result ++ "     |    "
      ++ reason minimization_result.

Fixpoint print_listing (evaluation_results : list Result) (case : nat) : M unit :=
  match evaluation_results with
  | [] => ret tt
  | minimization_result :: rest =>
      print (listing_row case minimization_result) ;;
      print_listing rest (S case)
  end.

(** [main], from the value that [read_json_from_file] returned ([None]
    when the corpus is missing or malformed).  The value returned here is
    the list [evaluation_results] that [main] hands to the report generator
    and then lists on the console. *)
Definition main (parsed_data : option (list issue)) : M (list Result) :=
  os_makedirs issue_folder_dir ;;
  clone_specimin issue_folder_dir specimin_source_url ;;
  evaluation_results <-
    match parsed_data with
    | Some (i :: l) => evaluate_issues (i :: l) []
    | _ => ret []
    end ;;
  generateTable evaluation_results ;;
  print (newline ++ newline ++ newline ++ newline) ;;
  print "issue_name    |    status    |    reason" ;;
  print "--------------------------------------------" ;;
  print_listing evaluation_results 1 ;;
  ret evaluation_results.

End Script.

(** ** The properties, spelled out on the data model *)

Module Spec.
Import PyStr OsPath.

Fixpoint flat (l : list string) : string :=
  match l with
  | [] => EmptyString
  | x :: r => x ++ flat r
  end.

(** The package with every dot replaced by a path separator: cut at the
    dots, glue with the separator. *)
Definition package_as_path (pkg : string) : string :=
  join_with sep (split "."%char pkg).

Definition qualified_file (t : target) : string :=
  join (package_as_path (package t)) (file_name t).

Definition stem (file : string) : string := fst (splitext file).

Definition inner_suffix (t : target) : string :=
  match inner_class t with
  | Some c => if nonempty c then "." ++ c else EmptyString
  | None => EmptyString
  end.

Definition qualified_method (t : target) : string :=
  package t ++ "." ++ stem (file_name t) ++ inner_suffix t ++ "#" ++ method_name t.

Definition has_file (t : target) : bool := nonempty (file_name t).
Definition has_method (t : target) : bool := nonempty (method_name t).

(** The command line with one [--root], one [--outputDirectory], then the
    file targets, then the method targets, inside one pair of single
    quotes. *)
Definition command_line (root out : string) (files methods : list string) : string :=
  "./gradlew run --args=" ++ squote
    ++ "--root " ++ dquote ++ root ++ dquote
    ++ " --outputDirectory " ++ dquote ++ out ++ dquote
    ++ " " ++ flat (map (fun f => "--targetFile " ++ dquote ++ f ++ dquote) files)
    ++ " " ++ flat (map (fun m => "--targetMethod " ++ dquote ++ m ++ dquote) methods)
    ++ squote.

(** The argument string inside the single quotes of [command_line]. *)
Definition command_args (root out : string) (files methods : list string) : string :=
  "--root " ++ dquote ++ root ++ dquote
    ++ " --outputDirectory " ++ dquote ++ out ++ dquote
    ++ " " ++ flat (map (fun f => "--targetFile " ++ dquote ++ f ++ dquote) files)
    ++ " " ++ flat (map (fun m => "--targetMethod " ++ dquote ++ m ++ dquote) methods).

(** The flags of an argument string, read the way the synthesiser writes
    them: a flag is a name, one blank and a value between double quotes;
    blanks before a name are skipped.  The reader is in one of four places:
    outside a flag, inside a name, after the blank that ends a name, or
    inside a value.  A string that is not of this form has no reading. *)
Inductive scanning :=
| Outside
| InName (flag : string)
| BeforeValue (flag : string)
| InValue (flag value : string).

Fixpoint scan_flags (s : string) (st : scanning) : option (list (string * string)) :=
  match s with
  | EmptyString => match st with Outside => Some [] | _ => None end
  | String c r =>
      match st with
      | Outside =>
          if Ascii.eqb c " " then scan_flags r Outside
          else if Ascii.eqb c dquote_char then None
          else scan_flags r (InName (String c EmptyString))
      | InName flag =>
          if Ascii.eqb c " " then scan_flags r (BeforeValue flag)
          else if Ascii.eqb c dquote_char then None
          else scan_flags r (InName (flag ++ String c EmptyString))
      | BeforeValue flag =>
          if Ascii.eqb c dquote_char then scan_flags r (InValue flag EmptyString)
          else None
      | InValue flag value =>
          if Ascii.eqb c dquote_char
          then option_map (cons (flag, value)) (scan_flags r Outside)
          else scan_flags r (InValue flag (value ++ String c EmptyString))
      end
  end.

Definition flags_of (args : string) : option (list (string * string)) :=
  scan_flags args Outside.

(** The names of the flags that the synthesiser writes. *)
Definition flag_names : list string :=
  ["--root"; "--outputDirectory"; "--targetFile"; "--targetMethod"].

(** How many flags of a reading carry the given name. *)
Definition count_flag (flag : string) (flags : list (string * string)) : nat :=
  List.length (filter (fun f => String.eqb (fst f) flag) flags).

(** The three kinds of failure reason, and the empty reason of a pass. *)
Inductive reason_kind := NoReason | ErrorLog | TimedOut | Unhandled.

Definition unhandled_prefix : string := "Unhandled exception occurred: ".

Definition classify (reason : string) : reason_kind :=
  if negb (nonempty reason) then NoReason
  else if String.eqb reason "Timeout" then TimedOut
  else if String.prefix unhandled_prefix reason then Unhandled
  else ErrorLog.

End Spec.

(** ** Notions used in the statements *)

(** The values of [--root] and [--outputDirectory], from the relative path
    of the issue directory. *)
Definition root_value (rel project root_dir : string) : string :=
  PyStr.rstrip_char "/"%char
    (OsPath.join (OsPath.join (OsPath.join rel specimin_input) project) root_dir)
  ++ OsPath.sep.

Definition output_value (rel : string) : string := OsPath.join rel specimin_output.

(** Computations that raise no [TimeoutExpired]. *)
Definition never_timeout {A} (m : M A) : Prop :=
  forall w e w', m w = (Raise e, w') -> is_timeout e = false.

(** The world in which the script continues after an external program. *)
Definition after_call (sys : oracle) (c : call) (w : world) : world :=
  World (snd (sys c (w_fs w))) (w_cwd w) (w_calls w ++ [c]) (w_stdout w).

(** The test of [is_git_directory], read off the world. *)
Definition git_marker (dir : string) (w : world) : bool :=
  Fs.exists_ (w_fs w) (cwd_path w) (OsPath.join dir ".git")
  && Fs.isdir (w_fs w) (cwd_path w) (OsPath.join dir ".git").

Definition clone_target (url directory : string) : string :=
  directory ++ "/" ++ get_repository_name url.

(** The test of the loop, as a filter on the corpus. *)
Definition is_cf_6282 (i : issue) : bool := String.eqb (issue_id i) "cf-6282".

Definition corpus (parsed_data : option (list issue)) : list issue :=
  match parsed_data with Some l => l | None => [] end.

(** A computation that removes or alters nothing outside the tree rooted at
    [root], whatever it returns or raises, and does not change the working
    directory. *)
Definition keeps_outside {A} (root : world -> path) (m : M A) : Prop :=
  forall w r w',
    m w = (r, w') ->
    w_cwd w' = w_cwd w
    /\ forall q n, w_fs w q = Some n -> Fs.is_prefix (root w) q = false ->
                   w_fs w' q = Some n.

(** Where [shutil.rmtree(specimin_output)] acts: [output] in the working
    directory. *)
Definition cwd_output (w : world) : path := (cwd_path w ++ [specimin_output])%list.

(** ** Concrete worlds and external programs *)

(** An external program that always completes with the given exit code and
    standard error and touches no file. *)
Definition sys_exit (code : Z) (err : string) : oracle :=
  fun _ fs => (Ok (Completed code EmptyString err), fs).

(** An external program that never finishes in time. *)
Definition sys_hangs : oracle :=
  fun _ fs => (Raise (Exn TimeoutExpired "timed out after 300 seconds"), fs).

(** A working git, seen from the working directory [/work]: [git clone]
    creates the repository directory with its [.git] marker in the
    directory it is started in; every program completes with exit code 0. *)
Definition sys_git : oracle :=
  fun c fs =>
    match call_cmd c with
    | Argv ["git"; "clone"; u] =>
        match Fs.resolve fs ["work"] (call_cwd c) with
        | Ok dir =>
            let repo := (dir ++ [get_repository_name u])%list in
            (Ok (Completed 0 EmptyString EmptyString),
             Fs.set (Fs.set fs repo (Some Dir)) (repo ++ [".git"])%list (Some Dir))
        | Raise e => (Raise e, fs)
        end
    | _ => (Ok (Completed 0 EmptyString EmptyString), fs)
    end.

(** Only the working directory. *)
Definition w_bare : world :=
  World (Fs.of_list [(["work"], Dir)]) "/work" [] [].

(** The tree left by an earlier evaluation of issue [cf-1], with the
    minimiser's repository in place. *)
Definition w_rerun : world :=
  World (Fs.of_list
           [ (["work"], Dir);
             (["work"; "ISSUES"], Dir);
             (["work"; "ISSUES"; "specimin"], Dir);
             (["work"; "ISSUES"; "specimin"; ".git"], Dir);
             (["work"; "ISSUES"; "cf-1"], Dir);
             (["work"; "ISSUES"; "cf-1"; "input"], Dir);
             (["work"; "ISSUES"; "cf-1"; "input"; "repo"], Dir);
             (["work"; "ISSUES"; "cf-1"; "input"; "repo"; "README"], File "kept");
             (["work"; "ISSUES"; "cf-1"; "output"], Dir);
             (["work"; "ISSUES"; "cf-1"; "output"; "Stale.java"], File "class Stale {}");
             (["work"; "ISSUES"; "cf-1"; "cf-1_error.txt"], File "an older log") ])
        "/work" [] [].

(** A cloned repository [repo] in the working directory. *)
Definition w_repo : world :=
  World (Fs.of_list
           [ (["work"], Dir);
             (["work"; "repo"], Dir);
             (["work"; "repo"; ".git"], Dir) ])
        "/work" [] [].

(** The target of the scenario of the specification. *)
Definition foo_bar : target :=
  Target "bar" "Foo.java" "com.example" (Some EmptyString).

Definition cf_6282 : issue :=
  Issue "cf-6282" "https://github.com/google/nomulus.git" EmptyString "abc123"
        "core/src/main/java" [foo_bar].

Definition cf_1 : issue :=
  Issue "cf-1" "https://github.com/example/repo.git" "main" EmptyString
        "src" [].

(** ** Reading the corpus *)

(** [open(name, 'r')] and the reading of the whole file. *)
Definition fs_read (fs : FS) (cwd : path) (name : string) : outcome string :=
  match Fs.resolve fs cwd name with
  | Raise e => Raise e
  | Ok p =>
      match Fs.lookup fs p with
      | Some (File content) => Ok content
      | Some Dir => Raise (Fs.eisdir name)
      | None => Raise (Fs.enoent name)
      end
  end.

Definition open_r (name : string) : M string :=
  fun w => (fs_read (w_fs w) (cwd_path w) name, w).

Definition is_file_not_found (e : exn) : bool :=
  match exn_class e with FileNotFoundError => true | _ => false end.

Definition is_json_decode_error (e : exn) : bool :=
  match exn_class e with JSONDecodeError => true | _ => false end.

Definition json_file_path : string := "resources/test_data.json".

Section Corpus.

Import PyStr OsPath.

(** The parsed data. *)
Variable A : Type.

(** [json.load(file)] on the bytes of the opened file: the parsed data, or
    the exception raised while the text is read and parsed
    ([UnicodeDecodeError] for bytes that are no text in the encoding of the
    locale, [json.JSONDecodeError] for text that is no JSON document, or
    any other). *)
Variable json_load : string -> outcome A.

(** The [try] block and its two [except] clauses, which are tried in the
    order written: [JSONDecodeError] first, then [FileNotFoundError];
    every other exception propagates. *)
Definition read_json_from_file (file_path : string) : M (option A) :=
  try_except
    (file <- open_r file_path ;;
     json_data <- lift_outcome (json_load file) ;;
     ret (Some json_data))
    (fun e =>
       if is_json_decode_error e
       then (print ("Error decoding JSON: " ++ exn_str e) ;; ret None)
       else if is_file_not_found e
       then (print ("File not found: " ++ file_path) ;; ret None)
       else raise e).

End Corpus.

Section WholeScript.

Variable sys : oracle.
Variable generateTable : list Result -> M unit.

(** [json.load] on the corpus file; what it returns is taken to be a list
    of issues of the data model. *)
Variable json_load : string -> outcome (list issue).

(** [main] as a whole, reading the corpus from [json_file_path]. *)
Definition main_script : M (list Result) :=
  os_makedirs issue_folder_dir ;;
  clone_specimin sys issue_folder_dir specimin_source_url ;;
  parsed_data <- read_json_from_file json_load json_file_path ;;
  evaluation_results <-
    match parsed_data with
    | Some (i :: l) => evaluate_issues sys (i :: l) []
    | _ => ret []
    end ;;
  generateTable evaluation_results ;;
  print (newline ++ newline ++ newline ++ newline) ;;
  print "issue_name    |    status    |    reason" ;;
  print "--------------------------------------------" ;;
  print_listing evaluation_results 1 ;;
  ret evaluation_results.

End WholeScript.

(** ** Further notions used in the statements *)

Fixpoint has_char (c : ascii) (s : string) : bool :=
  match s with
  | EmptyString => false
  | String a r => Ascii.eqb a c || has_char c r
  end.

(** A string without quote characters, double or single; the synthesiser
    puts its inputs between quotes and escapes nothing. *)
Definition quote_free (s : string) : bool :=
  negb (has_char dquote_char s) && negb (has_char "'"%char s).

Definition target_quote_free (t : target) : bool :=
  quote_free (package t) && quote_free (file_name t) && quote_free (method_name t)
  && match inner_class t with Some c => quote_free c | None => true end.

Fixpoint all_dots (s : string) : bool :=
  match s with
  | EmptyString => true
  | String a r => Ascii.eqb a "."%char && all_dots r
  end.

(** A call of git, as opposed to the run of the minimiser. *)
Definition is_git_call (c : call) : bool :=
  match call_cmd c with
  | Argv (prog :: _) => String.eqb prog "git"
  | _ => false
  end.

Definition git_pull (directory : string) : call :=
  Call (Argv ["git"; "pull"; "origin"; "--rebase"]) directory None.

(** The three header lines that [main] prints before the listing. *)
Definition listing_header : list string :=
  [ newline ++ newline ++ newline ++ newline;
    "issue_name    |    status    |    reason";
    "--------------------------------------------" ].

(** The rows of the listing for results numbered from [case]. *)
Fixpoint listing_rows (case : nat) (results : list Result) : list string :=
  match results with
  | [] => []
  | r :: rest => listing_row case r :: listing_rows (S case) rest
  end.

(** A computation that starts no process, prints nothing and stays in the
    working directory, whatever it returns or raises. *)
Definition quiet {A} (m : M A) : Prop :=
  forall w r w',
    m w = (r, w') ->
    w_cwd w' = w_cwd w /\ w_calls w' = w_calls w /\ w_stdout w' = w_stdout w.

(** From [w] to [w'] the working directory is kept and only calls of git
    were added. *)
Definition git_steps (w w' : world) : Prop :=
  w_cwd w' = w_cwd w
  /\ exists cs, w_calls w' = (w_calls w ++ cs)%list /\ forallb is_git_call cs = true.

(** A computation that starts nothing but git, whatever it returns or
    raises. *)
Definition git_only {A} (m : M A) : Prop :=
  forall w r w', m w = (r, w') -> git_steps w w'.

(** A plain path component: not empty, without separator, neither [.] nor
    [..]. *)
Definition plain (s : string) : bool :=
  PyStr.nonempty s && negb (has_char "/"%char s)
  && negb (String.eqb s ".") && negb (String.eqb s "..").

(** What the [try] block of [read_json_from_file] comes to: the file is
    opened and read, and what was read is parsed. *)
Definition open_and_load {A} (json_load : string -> outcome A)
           (file_path : string) (w : world) : outcome A :=
  match fs_read (w_fs w) (cwd_path w) file_path with
  | Ok file => json_load file
  | Raise e => Raise e
  end.

(** A report generator that prints one line and touches nothing else. *)
Definition table_printer : list Result -> M unit :=
  fun results =>
    print ("report of " ++ PyStr.decimal (List.length results) ++ " results").

(** A [json.load] that knows one document, the empty list: bytes that are
    no UTF-8 text raise the decoder's exception and every other text is
    refused as malformed. *)
Definition json_load_empty : string -> outcome (list issue) :=
  fun s =>
    match decode_utf8 s with
    | Raise e => Raise e
    | Ok text =>
        if String.eqb text "[]" then Ok []
        else Raise (Exn JSONDecodeError "Expecting value: line 1 column 1 (char 0)")
    end.

(** A working directory that holds an empty corpus file. *)
Definition w_corpus : world :=
  World (Fs.of_list
           [ (["work"], Dir);
             (["work"; "resources"], Dir);
             (["work"; "resources"; "test_data.json"], File "[]") ])
        "/work" [] [].

(** A working directory whose corpus file is no text. *)
Definition w_corpus_binary : world :=
  World (Fs.of_list
           [ (["work"], Dir);
             (["work"; "resources"], Dir);
             (["work"; "resources"; "test_data.json"],
              File (String (ascii_of_nat 255) EmptyString)) ])
        "/work" [] [].

(** A regular file where the minimiser's repository is expected. *)
Definition w_specimin_file : world :=
  World (Fs.of_list
           [ (["work"], Dir);
             (["work"; "ISSUES"], Dir);
             (["work"; "ISSUES"; "specimin"], File "not a repository") ])
        "/work" [] [].

(** The minimiser's repository already cloned. *)
Definition w_specimin_dir : world :=
  World (Fs.of_list
           [ (["work"], Dir);
             (["work"; "ISSUES"], Dir);
             (["work"; "ISSUES"; "specimin"], Dir);
             (["work"; "ISSUES"; "specimin"; ".git"], Dir) ])
        "/work" [] [].

(** * Proofs *)

(** ** Strings *)

Section StringFacts.
Import PyStr.

Lemma append_assoc (a b c : string) : (a ++ b) ++ c = a ++ (b ++ c).
Proof. induction a as [|x a IH]; simpl; [reflexivity | now rewrite IH]. Qed.

Lemma has_char_app (c : ascii) (a b : string) :
  has_char c (a ++ b) = has_char c a || has_char c b.
Proof.
  induction a as [|x a IH]; simpl; [reflexivity|].
  rewrite IH. now rewrite orb_assoc.
Qed.

Lemma has_char_take (c : ascii) (n : nat) (s : string) :
  has_char c s = false -> has_char c (take n s) = false.
Proof.
  revert n. induction s as [|a s IH]; intros [|n] H; try reflexivity.
  cbn in *. apply orb_false_iff in H as [Ha Hs]. now rewrite Ha, IH.
Qed.

Lemma append_nil_r (a : string) : a ++ EmptyString = a.
Proof. induction a as [|x a IH]; simpl; [reflexivity | now rewrite IH]. Qed.

Lemma last_char_app (a b : string) :
  nonempty b = true -> last_char (a ++ b) = last_char b.
Proof.
  intros Hb. induction a as [|x a IH]; simpl; [reflexivity|].
  rewrite IH. destruct b as [|y b]; [discriminate|].
  destruct a; reflexivity.
Qed.

Lemma endswith_char_app (c : ascii) (a b : string) :
  nonempty b = true -> endswith_char c (a ++ b) = endswith_char c b.
Proof. intros Hb. unfold endswith_char. now rewrite last_char_app. Qed.

Lemma rstrip_char_end (c : ascii) (s : string) :
  endswith_char c (rstrip_char c s) = false.
Proof.
  unfold endswith_char. induction s as [|a s IH]; simpl; [reflexivity|].
  destruct (rstrip_char c s) as [|b r] eqn:E.
  - destruct (Ascii.eqb a c) eqn:Ea; simpl; [reflexivity | now rewrite Ea].
  - simpl in *. exact IH.
Qed.

Lemma split_not_nil (c : ascii) (s : string) : split c s <> [].
Proof.
  induction s as [|a s IH]; simpl; [discriminate|].
  destruct (Ascii.eqb a c); [discriminate|].
  destruct (split c s); [contradiction | discriminate].
Qed.

Lemma replace_dots_split (s : string) :
  replace_char "."%char "/"%char s = join_with "/" (split "."%char s).
Proof.
  induction s as [|a s IH]; simpl; [reflexivity|].
  rewrite IH. pose proof (split_not_nil "." s) as Hne.
  destruct (split "." s) as [|h t]; [contradiction|].
  destruct (Ascii.eqb a "."); simpl; [reflexivity|].
  destruct t; reflexivity.
Qed.

Lemma fold_left_append {A} (f : A -> string) (l : list A) (init : string) :
  fold_left (fun acc x => acc ++ f x) l init = init ++ Spec.flat (map f l).
Proof.
  revert init. induction l as [|x l IH]; intros init; simpl.
  - now rewrite append_nil_r.
  - rewrite IH. now rewrite append_assoc.
Qed.

End StringFacts.

(** ** The command synthesiser *)

Section CommandFacts.
Import PyStr OsPath Spec.

Lemma collect_target_step (t : target) (files methods : list string) :
  collect_target (files, methods) t
  = ((files ++ if has_file t then [qualified_file t] else [])%list,
     (methods ++ if has_method t then [qualified_method t] else [])%list).
Proof.
  unfold collect_target, has_file, has_method, qualified_file, package_as_path,
    qualified_method, stem, inner_suffix.
  rewrite replace_dots_split.
  destruct (nonempty (file_name t)), (nonempty (method_name t));
    rewrite ?app_nil_r; reflexivity.
Qed.

Lemma collect_target_lists (ts : list target) (files methods : list string) :
  fold_left collect_target ts (files, methods)
  = ((files ++ map qualified_file (filter has_file ts))%list,
     (methods ++ map qualified_method (filter has_method ts))%list).
Proof.
  revert files methods.
  induction ts as [|t ts IH]; intros files methods; cbn [fold_left filter map].
  - now rewrite !app_nil_r.
  - rewrite collect_target_step, IH.
    destruct (has_file t), (has_method t); simpl;
      rewrite <- ?app_assoc, ?app_nil_r; reflexivity.
Qed.

Lemma relpath_defined (cwd p start : string) :
  nonempty p = true -> exists rel, relpath cwd p start = Some rel.
Proof.
  intros Hp. unfold relpath. rewrite Hp. simpl.
  match goal with |- context [match ?l with [] => _ | _ :: _ => _ end] =>
    destruct l end; eauto.
Qed.

Lemma relpath_undefined (cwd start : string) :
  relpath cwd EmptyString start = None.
Proof. reflexivity. Qed.

Lemma build_specimin_command_shape
      (cwd project issue_input_dir specimin_dir root_dir rel : string)
      (ts : list target) :
  relpath cwd issue_input_dir specimin_dir = Some rel ->
  build_specimin_command cwd project issue_input_dir specimin_dir root_dir ts
  = Ok (command_line (root_value rel project root_dir) (output_value rel)
                     (map qualified_file (filter has_file ts))
                     (map qualified_method (filter has_method ts))).
Proof.
  intros Hrel. unfold build_specimin_command. rewrite Hrel.
  rewrite collect_target_lists. simpl app.
  rewrite !fold_left_append. f_equal.
  unfold command_line, subcommand, root_value, output_value.
  repeat (progress (rewrite ?append_assoc; cbn [append])). reflexivity.
Qed.

Lemma root_value_end (rel project root_dir : string) :
  exists r, root_value rel project root_dir = r ++ sep
            /\ endswith_char sep_char r = false.
Proof.
  eexists. split; [reflexivity|]. apply rstrip_char_end.
Qed.

Lemma output_value_end (rel : string) :
  last_char (output_value rel) = Some "t"%char.
Proof.
  unfold output_value, join, specimin_output. simpl startswith_char. cbv iota.
  destruct (negb (nonempty rel) || endswith_char sep_char rel).
  - now rewrite last_char_app.
  - rewrite <- append_assoc. now rewrite last_char_app.
Qed.

(** [os.path.join] on the common case: a separator goes in between. *)
Lemma join_plain (a b : string) :
  nonempty a = true -> endswith_char sep_char a = false ->
  startswith_char sep_char b = false ->
  join a b = a ++ sep ++ b.
Proof. intros Ha He Hb. unfold join. now rewrite Hb, Ha, He. Qed.

End CommandFacts.

(** ** Quote characters and the flags of the command *)

Section QuoteFacts.
Import PyStr OsPath Spec.

(** One of the two quote characters. *)
Variable c : ascii.
Hypothesis c_quote : c = dquote_char \/ c = "'"%char.

Lemma quote_not_in (fixed : string) :
  has_char dquote_char fixed = false -> has_char "'"%char fixed = false ->
  has_char c fixed = false.
Proof. destruct c_quote as [-> | ->]; auto. Qed.

Lemma free_join (a b : string) :
  has_char c a = false -> has_char c b = false -> has_char c (join a b) = false.
Proof.
  intros Ha Hb. unfold join.
  destruct (startswith_char sep_char b); [exact Hb|].
  destruct (negb (nonempty a) || endswith_char sep_char a);
    rewrite ?has_char_app, Ha, Hb, ?(quote_not_in sep); reflexivity.
Qed.

Lemma free_rstrip (x : ascii) (s : string) :
  has_char c s = false -> has_char c (rstrip_char x s) = false.
Proof.
  induction s as [|a s IH]; intros H; [reflexivity|].
  cbn [has_char] in H. apply orb_false_iff in H as [Ha Hs].
  specialize (IH Hs). cbn [rstrip_char].
  destruct (rstrip_char x s) as [|b r].
  - destruct (Ascii.eqb a x); cbn [has_char]; [reflexivity | now rewrite Ha].
  - cbn [has_char] in *. now rewrite Ha, IH.
Qed.

Lemma free_replace (a b : ascii) (s : string) :
  Ascii.eqb b c = false ->
  has_char c s = false -> has_char c (replace_char a b s) = false.
Proof.
  intros Hb. induction s as [|x s IH]; intros H; [reflexivity|].
  cbn [has_char replace_char] in *. apply orb_false_iff in H as [Hx Hs].
  rewrite (IH Hs). destruct (Ascii.eqb x a); now rewrite ?Hb, ?Hx.
Qed.

Lemma free_stem (file : string) :
  has_char c file = false -> has_char c (stem file) = false.
Proof.
  intros H. unfold stem, splitext.
  destruct (rfind sep_char file <? rfind "." file); [|exact H].
  destruct (splitext_scan _ _ _); [|exact H].
  now apply has_char_take.
Qed.

Lemma free_root_value (rel project root_dir : string) :
  has_char c rel = false -> has_char c project = false ->
  has_char c root_dir = false ->
  has_char c (root_value rel project root_dir) = false.
Proof.
  intros Hr Hp Hd. unfold root_value.
  rewrite has_char_app, (quote_not_in sep) by reflexivity.
  rewrite free_rstrip; [reflexivity|].
  repeat apply free_join; auto. apply quote_not_in; reflexivity.
Qed.

Lemma free_output_value (rel : string) :
  has_char c rel = false -> has_char c (output_value rel) = false.
Proof.
  intros Hr. apply free_join; [exact Hr|]. apply quote_not_in; reflexivity.
Qed.

Lemma free_qualified_file (t : target) :
  has_char c (package t) = false -> has_char c (file_name t) = false ->
  has_char c (qualified_file t) = false.
Proof.
  intros Hp Hf. unfold qualified_file, package_as_path.
  change (join_with sep (split "." (package t)))
    with (join_with "/" (split "." (package t))).
  rewrite <- replace_dots_split. apply free_join; [|exact Hf].
  apply free_replace; [|exact Hp].
  destruct c_quote as [-> | ->]; reflexivity.
Qed.

Lemma free_qualified_method (t : target) :
  has_char c (package t) = false -> has_char c (file_name t) = false ->
  has_char c (method_name t) = false ->
  match inner_class t with Some i => has_char c i = false | None => True end ->
  has_char c (qualified_method t) = false.
Proof.
  intros Hp Hf Hm Hi. unfold qualified_method.
  assert (Hs : has_char c (inner_suffix t) = false).
  { unfold inner_suffix. destruct (inner_class t) as [i|]; [|reflexivity].
    destruct (nonempty i); [|reflexivity].
    now rewrite has_char_app, Hi, (quote_not_in "."). }
  now rewrite !has_char_app, Hp, (free_stem _ Hf), Hs, Hm,
    (quote_not_in "."), (quote_not_in "#").
Qed.

End QuoteFacts.

Section FlagFacts.
Import PyStr OsPath Spec.

Lemma quote_free_parts (s : string) :
  quote_free s = true ->
  has_char dquote_char s = false /\ has_char "'"%char s = false.
Proof.
  unfold quote_free. intros H. apply andb_true_iff in H as [H1 H2].
  now apply negb_true_iff in H1, H2.
Qed.

(** The values that the synthesiser builds from inputs without quote
    characters hold none either. *)
Lemma free_values (c : ascii) (ts : list target) :
  c = dquote_char \/ c = "'"%char ->
  forallb target_quote_free ts = true ->
  Forall (fun v => has_char c v = false) (map qualified_file (filter has_file ts))
  /\ Forall (fun v => has_char c v = false)
            (map qualified_method (filter has_method ts)).
Proof.
  intros Hc. induction ts as [|t ts IH]; intros H; [split; constructor|].
  cbn [forallb] in H. apply andb_true_iff in H as [Ht Hts].
  destruct (IH Hts) as [IHf IHm].
  unfold target_quote_free in Ht.
  apply andb_true_iff in Ht as [Ht Hi]. apply andb_true_iff in Ht as [Ht Hm].
  apply andb_true_iff in Ht as [Hp Hf].
  apply quote_free_parts in Hp as [Hp1 Hp2], Hf as [Hf1 Hf2], Hm as [Hm1 Hm2].
  assert (Hp : has_char c (package t) = false) by (destruct Hc as [-> | ->]; auto).
  assert (Hf : has_char c (file_name t) = false) by (destruct Hc as [-> | ->]; auto).
  assert (Hm : has_char c (method_name t) = false) by (destruct Hc as [-> | ->]; auto).
  assert (Hin : match inner_class t with
                | Some i => has_char c i = false
                | None => True
                end).
  { destruct (inner_class t) as [i|]; [|exact I].
    apply quote_free_parts in Hi as [Hi1 Hi2]. destruct Hc as [-> | ->]; auto. }
  cbn [filter]. split.
  - destruct (has_file t); [|exact IHf]. cbn [map]. constructor; [|exact IHf].
    now apply free_qualified_file.
  - destruct (has_method t); [|exact IHm]. cbn [map]. constructor; [|exact IHm].
    now apply free_qualified_method.
Qed.

(** Reading a value up to its closing quote. *)
Lemma scan_value (flag v rest : string) :
  forall v0,
    has_char dquote_char v = false ->
    scan_flags (v ++ String dquote_char rest) (InValue flag v0)
    = option_map (cons (flag, v0 ++ v)) (scan_flags rest Outside).
Proof.
  induction v as [|a v IH]; intros v0 H; cbn [append scan_flags].
  - rewrite Ascii.eqb_refl. now rewrite append_nil_r.
  - cbn [has_char] in H. apply orb_false_iff in H as [Ha Hv]. rewrite Ha.
    rewrite IH by exact Hv. now rewrite append_assoc.
Qed.

(** Reading one flag as the synthesiser writes it. *)
Lemma scan_subcommand (flag v rest : string) :
  In flag flag_names ->
  has_char dquote_char v = false ->
  scan_flags (flag ++ " " ++ dquote ++ v ++ dquote ++ rest) Outside
  = option_map (cons (flag, v)) (scan_flags rest Outside).
Proof.
  intros Hin Hv.
  change (dquote ++ v ++ dquote ++ rest)
    with (String dquote_char (v ++ String dquote_char rest)).
  destruct Hin as [<- | [<- | [<- | [<- | []]]]];
    cbn [append scan_flags Ascii.eqb Bool.eqb andb dquote_char ascii_of_nat
         ascii_of_pos Pos.of_succ_nat Pos.succ];
    cbv beta iota; apply (scan_value _ _ _ EmptyString Hv).
Qed.

Lemma scan_flat (flag : string) (vs : list string) (rest : string) :
  In flag flag_names ->
  Forall (fun v => has_char dquote_char v = false) vs ->
  scan_flags (flat (map (fun v => flag ++ " " ++ dquote ++ v ++ dquote) vs) ++ rest)
             Outside
  = option_map (app (map (pair flag) vs)) (scan_flags rest Outside).
Proof.
  intros Hin Hvs. induction Hvs as [|v vs Hv Hvs IH]; cbn [map flat].
  - cbn [append]. now destruct (scan_flags rest Outside).
  - rewrite !append_assoc.
    change ((dquote ++ v ++ dquote) ++ flat (map (fun v => flag ++ " " ++ dquote ++ v ++ dquote) vs) ++ rest)
      with (dquote ++ v ++ dquote ++ flat (map (fun v => flag ++ " " ++ dquote ++ v ++ dquote) vs) ++ rest).
    rewrite (@scan_subcommand flag v _ Hin Hv), IH.
    now destruct (scan_flags rest Outside).
Qed.

Lemma count_flag_other (flag other : string) (vs : list string) :
  String.eqb other flag = false ->
  count_flag flag (map (pair other) vs) = 0%nat.
Proof.
  intros H. unfold count_flag. induction vs as [|v vs IH]; [reflexivity|].
  cbn [map filter fst]. now rewrite H.
Qed.

Lemma has_char_flat (c : ascii) (flag : string) (vs : list string) :
  has_char c flag = false -> has_char c dquote = false ->
  Forall (fun v => has_char c v = false) vs ->
  has_char c (flat (map (fun v => flag ++ dquote ++ v ++ dquote) vs)) = false.
Proof.
  intros Hf Hq Hvs. induction Hvs as [|v vs Hv Hvs IH]; [reflexivity|].
  cbn [map flat]. now rewrite !has_char_app, Hf, Hq, Hv, IH.
Qed.

Lemma command_line_args (root out : string) (files methods : list string) :
  command_line root out files methods
  = "./gradlew run --args=" ++ squote ++ command_args root out files methods ++ squote.
Proof.
  unfold command_line, command_args.
  repeat (progress (rewrite ?append_assoc; cbn [append])). reflexivity.
Qed.

(** The argument string read back: the flags are those written, in the
    order written. *)
Lemma flags_of_command_args (root out : string) (files methods : list string) :
  has_char dquote_char root = false -> has_char dquote_char out = false ->
  Forall (fun v => has_char dquote_char v = false) files ->
  Forall (fun v => has_char dquote_char v = false) methods ->
  flags_of (command_args root out files methods)
  = Some (("--root", root) :: ("--outputDirectory", out)
          :: map (pair "--targetFile") files
          ++ map (pair "--targetMethod") methods)%list.
Proof.
  intros Hr Ho Hf Hm. unfold flags_of, command_args.
  change ("--root " ++ dquote ++ root ++ dquote ++ ?r)
    with ("--root" ++ " " ++ dquote ++ root ++ dquote ++ r).
  rewrite scan_subcommand by (cbn; auto).
  change (scan_flags (" --outputDirectory " ++ ?r) Outside)
    with (scan_flags ("--outputDirectory" ++ " " ++ r) Outside).
  rewrite scan_subcommand by (cbn; auto).
  change (scan_flags (" " ++ ?r) Outside) with (scan_flags r Outside).
  change (fun f : string => "--targetFile " ++ dquote ++ f ++ dquote)
    with (fun f : string => "--targetFile" ++ " " ++ dquote ++ f ++ dquote).
  rewrite scan_flat by (cbn; auto).
  change (scan_flags (" " ++ ?r) Outside) with (scan_flags r Outside).
  change (fun m : string => "--targetMethod " ++ dquote ++ m ++ dquote)
    with (fun m : string => "--targetMethod" ++ " " ++ dquote ++ m ++ dquote).
  rewrite <- (append_nil_r (flat _)).
  rewrite scan_flat by (cbn; auto).
  cbn [scan_flags option_map]. now rewrite app_nil_r.
Qed.

Lemma squote_free_command_args (root out : string) (files methods : list string) :
  has_char "'"%char root = false -> has_char "'"%char out = false ->
  Forall (fun v => has_char "'"%char v = false) files ->
  Forall (fun v => has_char "'"%char v = false) methods ->
  has_char "'"%char (command_args root out files methods) = false.
Proof.
  intros Hr Ho Hf Hm. unfold command_args.
  rewrite !has_char_app, Hr, Ho.
  rewrite (@has_char_flat "'" "--targetFile " _ eq_refl eq_refl Hf).
  rewrite (@has_char_flat "'" "--targetMethod " _ eq_refl eq_refl Hm).
  reflexivity.
Qed.

End FlagFacts.

Section CommandClaims.
Import PyStr OsPath Spec.

Variables cwd project issue_input_dir specimin_dir root_dir : string.
Variable ts : list target.



(** C6, for inputs without quote characters.  The command is the gradle
    prefix followed by one argument string between single quotes; the
    string holds no single quote, so the shell sees one argument; read back
    flag by flag it gives the [--root] flag, the [--outputDirectory] flag,
    the [--targetFile] flags in input order and the [--targetMethod] flags
    in input order, in this order, hence one [--root] and one
    [--outputDirectory]; the root value ends in exactly one path separator
    and the output directory value ends in none.  [rel] is the path of the
    issue directory relative to the minimiser's. *)
Theorem build_specimin_command_layout (rel : string) :
  relpath cwd issue_input_dir specimin_dir = Some rel ->
  quote_free rel = true ->
  quote_free project = true ->
  quote_free root_dir = true ->
  forallb target_quote_free ts = true ->
  let root_v := root_value rel project root_dir in
  let out_v := output_value rel in
  let files := map qualified_file (filter has_file ts) in
  let methods := map qualified_method (filter has_method ts) in
  let flags :=
    (("--root", root_v) :: ("--outputDirectory", out_v)
     :: map (pair "--targetFile") files ++ map (pair "--targetMethod") methods)%list in
  build_specimin_command cwd project issue_input_dir specimin_dir root_dir ts
  = Ok ("./gradlew run --args=" ++ squote
          ++ command_args root_v out_v files methods ++ squote)
  /\ has_char "'"%char (command_args root_v out_v files methods) = false
  /\ flags_of (command_args root_v out_v files methods) = Some flags
  /\ count_flag "--root" flags = 1%nat
  /\ count_flag "--outputDirectory" flags = 1%nat
  /\ (exists r, root_v = r ++ sep /\ endswith_char sep_char r = false)
  /\ endswith_char sep_char out_v = false.
Proof.
  intros Hrel Hq Hp Hd Hts. cbn zeta.
  apply quote_free_parts in Hq as [Hq1 Hq2], Hp as [Hp1 Hp2], Hd as [Hd1 Hd2].
  destruct (@free_values dquote_char ts (or_introl eq_refl) Hts) as [Hf1 Hm1].
  destruct (@free_values "'"%char ts (or_intror eq_refl) Hts) as [Hf2 Hm2].
  split; [|split; [|split; [|split; [|split; [|split]]]]].
  - rewrite <- command_line_args. now apply build_specimin_command_shape.
  - apply squote_free_command_args; auto.
    + apply free_root_value; auto.
    + apply free_output_value; auto.
  - apply flags_of_command_args; auto.
    + apply free_root_value; auto.
    + apply free_output_value; auto.
  - unfold count_flag. cbn [filter fst String.eqb Ascii.eqb Bool.eqb andb].
    rewrite filter_app. fold (count_flag "--root" (map (pair "--targetFile")
      (map qualified_file (filter has_file ts)))).
    cbn [List.length]. rewrite length_app.
    change (List.length (filter (fun f => String.eqb (fst f) "--root") ?l))
      with (count_flag "--root" l).
    now rewrite !count_flag_other.
  - unfold count_flag. cbn [filter fst String.eqb Ascii.eqb Bool.eqb andb].
    rewrite filter_app. cbn [List.length]. rewrite length_app.
    change (List.length (filter (fun f => String.eqb (fst f) "--outputDirectory") ?l))
      with (count_flag "--outputDirectory" l).
    now rewrite !count_flag_other.
  - apply root_value_end.
  - unfold endswith_char. now rewrite output_value_end.
Qed.

End CommandClaims.

(** ** The file system *)

Section FsFacts.
Import PyStr Fs.

Lemma path_eqb_refl (p : path) : path_eqb p p = true.
Proof. induction p as [|a p IH]; simpl; [reflexivity|]. now rewrite String.eqb_refl. Qed.

Lemma path_eqb_eq (p q : path) : path_eqb p q = true <-> p = q.
Proof.
  split; [|intros ->; apply path_eqb_refl].
  revert q. induction p as [|a p IH]; intros [|b q]; simpl; try discriminate; auto.
  intros H. apply andb_true_iff in H as [Hab Hpq].
  apply String.eqb_eq in Hab. f_equal; auto.
Qed.

Lemma path_eqb_neq (p q : path) : p <> q -> path_eqb p q = false.
Proof.
  intros H. destruct (path_eqb p q) eqn:E; [|reflexivity].
  apply path_eqb_eq in E. contradiction.
Qed.

Lemma set_same (fs : FS) (p : path) (n : option node) : set fs p n p = n.
Proof. unfold set. now rewrite path_eqb_refl. Qed.

Lemma set_other (fs : FS) (p q : path) (n : option node) :
  q <> p -> set fs p n q = fs q.
Proof. intros H. unfold set. now rewrite path_eqb_neq. Qed.

(** Resolution only looks at directories: it is kept by every change of
    the file system that keeps the directories. *)
Lemma walk_keeps (fs fs2 : FS) (nm : string) (comps : list string) :
  (forall p, lookup fs p = Some Dir -> lookup fs2 p = Some Dir) ->
  forall cur q, walk fs nm cur comps = Ok q -> walk fs2 nm cur comps = Ok q.
Proof.
  intros Hdirs. induction comps as [|c comps IH]; intros cur q; simpl; [auto|].
  destruct (lookup fs cur) as [[old|]|] eqn:E; try discriminate.
  rewrite (Hdirs _ E). apply IH.
Qed.

Lemma walk_raises (fs : FS) (nm : string) (comps : list string) :
  forall cur e, walk fs nm cur comps = Raise e -> is_timeout e = false.
Proof.
  induction comps as [|c comps IH]; intros cur e; simpl; [discriminate|].
  destruct (lookup fs cur) as [[old|]|]; [| apply IH |];
    intros H; injection H as <-; reflexivity.
Qed.

Lemma resolve_raises (fs : FS) (cwd : path) (nm : string) (e : exn) :
  resolve fs cwd nm = Raise e -> is_timeout e = false.
Proof.
  unfold resolve. destruct (negb (nonempty nm)).
  - intros H. injection H as <-. reflexivity.
  - apply walk_raises.
Qed.

Lemma remove_raises (fs : FS) (cwd : path) (nm : string) (e : exn) :
  remove fs cwd nm = Raise e -> is_timeout e = false.
Proof.
  unfold remove. destruct (resolve fs cwd nm) as [p|e'] eqn:E.
  - destruct (lookup fs p) as [[old|]|]; try discriminate;
      intros H; injection H as <-; reflexivity.
  - intros H. injection H as <-. eapply resolve_raises; eauto.
Qed.

Lemma open_w_raises (fs : FS) (cwd : path) (nm : string) (e : exn) :
  open_w fs cwd nm = Raise e -> is_timeout e = false.
Proof.
  unfold open_w. destruct (resolve fs cwd nm) as [p|e'] eqn:E.
  - destruct (lookup fs p) as [[old|]|]; try discriminate;
      intros H; injection H as <-; reflexivity.
  - intros H. injection H as <-. eapply resolve_raises; eauto.
Qed.

Lemma lookup_set_same (fs : FS) (p : path) (n : option node) :
  p <> [] -> lookup (set fs p n) p = n.
Proof. intros H. destruct p; [contradiction|]. unfold lookup. apply set_same. Qed.

Lemma lookup_set_other (fs : FS) (p q : path) (n : option node) :
  q <> p -> lookup (set fs p n) q = lookup fs q.
Proof. intros H. destruct q; [reflexivity|]. unfold lookup. now apply set_other. Qed.

Lemma resolve_keeps (fs fs2 : FS) (cwd : path) (nm : string) (q : path) :
  (forall p, lookup fs p = Some Dir -> lookup fs2 p = Some Dir) ->
  resolve fs cwd nm = Ok q -> resolve fs2 cwd nm = Ok q.
Proof.
  intros Hdirs. unfold resolve. destruct (negb (nonempty nm)); [discriminate|].
  now apply walk_keeps.
Qed.

(** Writing or deleting something that is not a directory keeps the
    directories. *)
Lemma set_keeps_dirs (fs : FS) (q : path) (n : option node) :
  lookup fs q <> Some Dir ->
  forall p, lookup fs p = Some Dir -> lookup (set fs q n) p = Some Dir.
Proof.
  intros Hq p Hp. rewrite lookup_set_other; [exact Hp|].
  intros ->. contradiction.
Qed.

End FsFacts.

(** ** The monad *)

Section MonadFacts.

Lemma bind_ok {A B} (m : M A) (k : A -> M B) (w w' : world) (b : B) :
  bind m k w = (Ok b, w') ->
  exists a w1, m w = (Ok a, w1) /\ k a w1 = (Ok b, w').
Proof.
  unfold bind. destruct (m w) as [[a|e] w1]; intros H; [|discriminate].
  exists a, w1. now split.
Qed.

Lemma bind_raise {A B} (m : M A) (k : A -> M B) (w w' : world) (e : exn) :
  bind m k w = (Raise e, w') ->
  m w = (Raise e, w') \/ exists a w1, m w = (Ok a, w1) /\ k a w1 = (Raise e, w').
Proof.
  unfold bind. destruct (m w) as [[a|e'] w1]; intros H.
  - right. exists a, w1. now split.
  - injection H as -> ->. now left.
Qed.

Lemma bind_step {A B} (m : M A) (k : A -> M B) (w w1 : world) (a : A) :
  m w = (Ok a, w1) -> bind m k w = k a w1.
Proof. unfold bind. now intros ->. Qed.

Lemma never_timeout_ret {A} (a : A) : never_timeout (ret a).
Proof. intros w e w' H. discriminate. Qed.

Lemma never_timeout_bind {A B} (m : M A) (k : A -> M B) :
  never_timeout m -> (forall a, never_timeout (k a)) -> never_timeout (bind m k).
Proof.
  intros Hm Hk w e w' H. apply bind_raise in H as [H | (a & w1 & _ & H)].
  - eapply Hm; eauto.
  - eapply Hk; eauto.
Qed.

Lemma never_timeout_exists (nm : string) : never_timeout (os_path_exists nm).
Proof. intros w e w' H. discriminate. Qed.

Lemma never_timeout_write (h : path) (text : string) : never_timeout (file_write h text).
Proof. intros w e w' H. discriminate. Qed.

Lemma never_timeout_remove (nm : string) : never_timeout (os_remove nm).
Proof.
  intros w e w'. unfold os_remove, lift_fs.
  destruct (Fs.remove (w_fs w) (cwd_path w) nm) eqn:E; [discriminate|].
  intros H. injection H as <- _. eapply remove_raises; eauto.
Qed.

Lemma never_timeout_open_w (nm : string) : never_timeout (open_w nm).
Proof.
  intros w e w'. unfold open_w.
  destruct (Fs.open_w (w_fs w) (cwd_path w) nm) as [[h fs']|e'] eqn:E; [discriminate|].
  intros H. injection H as <- _. eapply open_w_raises; eauto.
Qed.

Lemma decode_utf8_valid (b : string) :
  PyStr.utf8_valid b = true -> decode_utf8 b = Ok b.
Proof.
  unfold PyStr.utf8_valid, decode_utf8.
  destruct (PyStr.utf8_scan b 0); [discriminate | reflexivity].
Qed.

Lemma decode_utf8_invalid (b : string) :
  PyStr.utf8_valid b = false ->
  exists m, decode_utf8 b = Raise (Exn UnicodeDecodeError m).
Proof.
  unfold PyStr.utf8_valid, decode_utf8.
  destruct (PyStr.utf8_scan b 0); [eauto | discriminate].
Qed.

Lemma never_timeout_decode (b : string) : never_timeout (lift_outcome (decode_utf8 b)).
Proof.
  intros w e w'. unfold lift_outcome, decode_utf8.
  destruct (PyStr.utf8_scan b 0); [|discriminate].
  intros H. injection H as <- _. reflexivity.
Qed.

End MonadFacts.

(** ** The execution engine *)

Section ExecutionFacts.
Import PyStr OsPath Spec.

Variable sys : oracle.

Lemma subprocess_run_eq (c : call) (w : world) :
  subprocess_run sys c w
  = (fst (sys c (w_fs w)), after_call sys c w).
Proof.
  unfold subprocess_run, after_call.
  destruct (sys c (w_fs w)) as [[r|e] fs']; reflexivity.
Qed.

Lemma error_msg_file_head (n : string) :
  exists c rest, error_msg_file n = String c rest /\ (c = "/"%char \/ c = "I"%char).
Proof.
  unfold error_msg_file, join3. destruct n as [|a n].
  - do 2 eexists. split; [reflexivity | now right].
  - unfold join at 1. cbn [append startswith_char].
    destruct (Ascii.eqb a sep_char) eqn:Ea.
    + apply Ascii.eqb_eq in Ea. subst a. do 2 eexists. split; [reflexivity | now left].
    + unfold join. cbn [startswith_char]. rewrite Ea. cbn.
      repeat match goal with
             | |- context [if ?b then _ else _] => destruct b
             end;
        do 2 eexists; (split; [reflexivity | now right]).
Qed.

Lemma classify_error_msg_file (n : string) : classify (error_msg_file n) = ErrorLog.
Proof.
  destruct (error_msg_file_head n) as [c [rest [-> [-> | ->]]]]; reflexivity.
Qed.

Lemma prefix_app (a b : string) : String.prefix a (a ++ b) = true.
Proof.
  induction a as [|x a IH]; simpl; [now destruct b|].
  destruct (ascii_dec x x); [exact IH | contradiction].
Qed.

Lemma classify_unhandled (m : string) : classify (unhandled_prefix ++ m) = Unhandled.
Proof.
  unfold classify. rewrite prefix_app. reflexivity.
Qed.

Lemma classify_timeout : classify "Timeout" = TimedOut.
Proof. reflexivity. Qed.

(** No step of the error-log branch can raise [TimeoutExpired]. *)
Lemma write_error_log_raises (n : string) (p : completed) :
  never_timeout (write_error_log n p).
Proof.
  unfold write_error_log.
  apply never_timeout_bind; [apply never_timeout_exists|]. intros present.
  apply never_timeout_bind.
  { destruct present; [apply never_timeout_remove | apply never_timeout_ret]. }
  intros _. apply never_timeout_bind; [apply never_timeout_open_w|]. intros file.
  apply never_timeout_bind; [apply never_timeout_decode|]. intros text.
  apply never_timeout_bind; [apply never_timeout_write|]. intros _.
  apply never_timeout_ret.
Qed.

Lemma write_error_log_returns (n : string) (p : completed) (w w' : world) (r : Result) :
  write_error_log n p w = (Ok r, w') -> r = mkResult n "FAIL" (error_msg_file n).
Proof.
  unfold write_error_log. intros H.
  apply bind_ok in H as (present & w1 & _ & H).
  apply bind_ok in H as (u & w2 & _ & H).
  apply bind_ok in H as (file & w3 & _ & H).
  apply bind_ok in H as (text & w4 & _ & H).
  apply bind_ok in H as (u' & w5 & _ & H).
  unfold ret in H. now injection H as <- _.
Qed.

Lemma error_msg_file_plain (n : string) :
  nonempty n = true -> startswith_char sep_char n = false ->
  endswith_char sep_char n = false ->
  error_msg_file n = "ISSUES/" ++ n ++ "/" ++ n ++ "_error.txt".
Proof.
  intros Hn Hs He. unfold error_msg_file, join3, issue_folder_dir.
  assert (Hin : join "ISSUES" n = "ISSUES/" ++ n).
  { unfold join. rewrite Hs. reflexivity. }
  rewrite Hin. unfold join.
  destruct n as [|a n]; [discriminate|].
  cbn [append startswith_char] in *. rewrite Hs.
  replace (endswith_char sep_char
             (String "I" (String "S" (String "S" (String "U" (String "E"
               (String "S" (String "/" (String a n)))))))))
    with (endswith_char sep_char ("ISSUES/" ++ String a n)) by reflexivity.
  rewrite endswith_char_app by reflexivity. rewrite He.
  cbn [negb nonempty orb]. unfold sep.
  repeat (progress (rewrite ?append_assoc; cbn [append])). reflexivity.
Qed.

(** The error-log branch, when nothing in it fails: the log holds the
    decoded standard error and nothing else changes. *)
Lemma write_error_log_writes (n : string) (p : completed) (w : world) (q : path) :
  Fs.resolve (w_fs w) (cwd_path w) (error_msg_file n) = Ok q ->
  Fs.lookup (w_fs w) q <> Some Dir ->
  utf8_valid (stderr p) = true ->
  exists w',
    write_error_log n p w = (Ok (mkResult n "FAIL" (error_msg_file n)), w')
    /\ w_fs w' q = Some (File (stderr p))
    /\ (forall q', q' <> q -> w_fs w' q' = w_fs w q')
    /\ w_calls w' = w_calls w
    /\ w_stdout w' = w_stdout w.
Proof.
  intros Hres Hnd Hutf.
  assert (Hq : q <> []) by (intros ->; apply Hnd; reflexivity).
  set (f := error_msg_file n).
(* the state in which the file is opened: the old log, if any, is gone *)
  assert (Hpre : exists fs1,
      (if Fs.exists_ (w_fs w) (cwd_path w) f then os_remove f else ret tt) w
      = (Ok tt, with_fs w fs1)
      /\ Fs.lookup fs1 q <> Some Dir
      /\ (forall p', Fs.lookup (w_fs w) p' = Some Dir -> Fs.lookup fs1 p' = Some Dir)
      /\ (forall q', q' <> q -> fs1 q' = w_fs w q')).
  { unfold Fs.exists_. fold f in Hres. rewrite Hres.
    destruct (Fs.lookup (w_fs w) q) as [[old|]|] eqn:El.
    - exists (Fs.set (w_fs w) q None).
      unfold os_remove, lift_fs, Fs.remove. rewrite Hres, El.
      split; [reflexivity|]. split; [|split].
      + rewrite lookup_set_same by exact Hq. discriminate.
      + apply set_keeps_dirs. rewrite El. discriminate.
      + intros q' Hq'. now apply set_other.
    - contradiction.
    - exists (w_fs w). split; [destruct w; reflexivity|].
      split; [|split]; auto. rewrite El. discriminate. }
  destruct Hpre as (fs1 & Hstep & Hnd1 & Hdirs & Hsame).
  assert (Hres1 : Fs.resolve fs1 (cwd_path w) f = Ok q)
    by (eapply resolve_keeps; eauto).
  set (fs2 := Fs.set fs1 q (Some (File EmptyString))).
  assert (Hopen : open_w f (with_fs w fs1) = (Ok q, with_fs (with_fs w fs1) fs2)).
  { unfold open_w, Fs.open_w. cbn [w_fs with_fs].
    change (cwd_path (with_fs w fs1)) with (cwd_path w).
    rewrite Hres1.
    destruct (Fs.lookup fs1 q) as [[old|]|]; try reflexivity. contradiction. }
  assert (Hdec : lift_outcome (decode_utf8 (stderr p)) (with_fs (with_fs w fs1) fs2)
                 = (Ok (stderr p), with_fs (with_fs w fs1) fs2)).
  { unfold lift_outcome. now rewrite (decode_utf8_valid _ Hutf). }
  unfold write_error_log. fold f.
  rewrite (@bind_step _ _ (os_path_exists f) _ w w
             (Fs.exists_ (w_fs w) (cwd_path w) f) eq_refl).
  rewrite (@bind_step _ _ _ _ _ _ _ Hstep).
  rewrite (@bind_step _ _ _ _ _ _ _ Hopen).
  rewrite (@bind_step _ _ _ _ _ _ _ Hdec).
  unfold bind, file_write, ret. cbn [w_fs with_fs w_calls w_stdout].
  eexists. split; [reflexivity|]. cbn [w_fs w_calls w_stdout].
  assert (Hw : Fs.write fs2 q (stderr p) = Fs.set fs2 q (Some (File (stderr p)))).
  { unfold Fs.write. unfold fs2 at 1. now rewrite set_same. }
  rewrite Hw. unfold with_fs. cbn [w_fs w_calls w_stdout].
  split; [apply set_same|]. split; [|split; reflexivity].
  intros q' Hq'. rewrite set_other by exact Hq'. unfold fs2.
  rewrite set_other by exact Hq'. now apply Hsame.
Qed.

(** C7, on the inputs where the log can be written: the process completed
    with a non-zero exit code, the log path resolves (its directory exists)
    and is not a directory, and the captured standard error is valid
    UTF-8.  Then the log at that path holds exactly the decoded standard
    error, whatever it held before, nothing else in the file system
    changes, and the result's reason is the path.  The path is
    [ISSUES/<issue_name>/<issue_name>_error.txt] for an issue name that is
    not empty and neither starts nor ends with a separator. *)
Theorem run_specimin_error_log (n cmd dir : string) (w : world)
        (p : completed) (fs1 : FS) (q : path) :
  sys (specimin_call cmd dir) (w_fs w) = (Ok p, fs1) ->
  returncode p <> 0 ->
  Fs.resolve fs1 (cwd_path w) (error_msg_file n) = Ok q ->
  Fs.lookup fs1 q <> Some Dir ->
  utf8_valid (stderr p) = true ->
  (exists w',
     run_specimin sys n cmd dir w = (Ok (mkResult n "FAIL" (error_msg_file n)), w')
     /\ w_fs w' q = Some (File (stderr p))
     /\ (forall q', q' <> q -> w_fs w' q' = fs1 q')
     /\ w_calls w' = (w_calls w ++ [specimin_call cmd dir])%list)
  /\ (nonempty n = true -> startswith_char sep_char n = false ->
      endswith_char sep_char n = false ->
      error_msg_file n = "ISSUES/" ++ n ++ "/" ++ n ++ "_error.txt").
Proof.
  intros Hsys Hrc Hres Hnd Hutf. split; [|apply error_msg_file_plain].
  unfold run_specimin, try_except, run_specimin_try, bind.
  rewrite subprocess_run_eq, Hsys. cbn [fst].
  apply Z.eqb_neq in Hrc. rewrite Hrc.
  destruct (write_error_log_writes n p (after_call sys (specimin_call cmd dir) w) (q:=q))
    as (w' & Hrun & Hfile & Hrest & Hcalls & _).
  - unfold after_call. rewrite Hsys. exact Hres.
  - unfold after_call. rewrite Hsys. exact Hnd.
  - exact Hutf.
  - rewrite Hrun. exists w'. split; [reflexivity|]. split; [exact Hfile|].
    split.
    + intros q' Hq'. rewrite (Hrest q' Hq'). unfold after_call. now rewrite Hsys.
    + rewrite Hcalls. reflexivity.
Qed.

Lemma run_specimin_name (n cmd dir : string) (w w' : world) (r : Result) :
  run_specimin sys n cmd dir w = (Ok r, w') -> name r = n.
Proof.
  unfold run_specimin, try_except.
  destruct (run_specimin_try sys n cmd dir w) as [[r0|e] w1] eqn:E.
  - intros H. injection H as <- _. unfold run_specimin_try in E.
    apply bind_ok in E as (p & w2 & _ & E).
    destruct (returncode p =? 0).
    + unfold ret in E. now injection E as <- _.
    + apply write_error_log_returns in E. now subst r0.
  - unfold run_specimin_except, ret.
    destruct (is_timeout e); intros H; now injection H as <- _.
Qed.

(** C2. [run_specimin] always returns a [Result] and never raises; the
    status is [PASS] exactly when the process completed with exit code 0 and
    [FAIL] otherwise; the reason is the error-log path after a non-zero exit
    code whose log was written, [Timeout] after a timeout, and the text
    [Unhandled exception occurred: ] followed by the exception's description
    after every other exception, raised by the process call or while the log
    was written; [classify] tells the three kinds of reason apart. *)
Theorem run_specimin_result (n cmd dir : string) (w : world) :
  let c := specimin_call cmd dir in
  exists r w',
    run_specimin sys n cmd dir w = (Ok r, w')
    /\ name r = n
    /\ (status r = "PASS" <-> exists p, fst (sys c (w_fs w)) = Ok p /\ returncode p = 0)
    /\ (status r = "PASS" \/ status r = "FAIL")
    /\ match fst (sys c (w_fs w)) with
       | Ok p =>
           if returncode p =? 0 then reason r = EmptyString
           else match fst (write_error_log n p (after_call sys c w)) with
                | Ok _ => reason r = error_msg_file n
                | Raise e => reason r = unhandled_prefix ++ exn_str e
                end
       | Raise e =>
           if is_timeout e then reason r = "Timeout"
           else reason r = unhandled_prefix ++ exn_str e
       end
    /\ classify (error_msg_file n) = ErrorLog
    /\ classify "Timeout" = TimedOut
    /\ (forall m, classify (unhandled_prefix ++ m) = Unhandled).
Proof.
  intros c. unfold run_specimin, try_except, run_specimin_try, bind.
  rewrite subprocess_run_eq. fold c.
  pose proof (classify_error_msg_file n) as Hlog.
  pose proof classify_unhandled as Hun.
  destruct (fst (sys c (w_fs w))) as [p|e].
  - destruct (returncode p =? 0) eqn:Hrc.
    + apply Z.eqb_eq in Hrc. unfold ret. do 2 eexists.
      split; [reflexivity|]. cbn [name status reason].
      repeat split; auto. intros _. exists p. now split.
    + apply Z.eqb_neq in Hrc.
      destruct (write_error_log n p (after_call sys c w)) as [[r|e] w1] eqn:E.
      * apply write_error_log_returns in E. subst r. do 2 eexists.
        split; [reflexivity|]. cbn [name status reason fst].
        repeat split; auto; try discriminate.
        intros (p' & Hp' & Hz). injection Hp' as <-. contradiction.
      * apply write_error_log_raises in E. unfold run_specimin_except.
        rewrite E. unfold ret. do 2 eexists.
        split; [reflexivity|]. cbn [name status reason fst].
        repeat split; auto; try discriminate.
        intros (p' & Hp' & Hz). injection Hp' as <-. contradiction.
  - unfold run_specimin_except. destruct (is_timeout e); unfold ret; do 2 eexists;
      (split; [reflexivity|]); cbn [name status reason];
      repeat split; auto; try discriminate; intros (p' & Hp' & _); discriminate.
Qed.

(** C8. When the process call raises [TimeoutExpired], [run_specimin]
    returns [Result(issue_name, "FAIL", "Timeout")] and the file system is
    the one the process left: the script writes nothing, in particular no
    error log. *)
Theorem run_specimin_timeout (n cmd dir : string) (w : world) (e : exn) :
  fst (sys (specimin_call cmd dir) (w_fs w)) = Raise e ->
  is_timeout e = true ->
  exists w',
    run_specimin sys n cmd dir w = (Ok (mkResult n "FAIL" "Timeout"), w')
    /\ w_fs w' = snd (sys (specimin_call cmd dir) (w_fs w))
    /\ w_calls w' = (w_calls w ++ [specimin_call cmd dir])%list
    /\ w_stdout w' = w_stdout w.
Proof.
  intros Hsys Ht. unfold run_specimin, try_except, run_specimin_try, bind.
  rewrite subprocess_run_eq, Hsys. unfold run_specimin_except. rewrite Ht.
  eexists. split; [reflexivity|]. repeat split.
Qed.

End ExecutionFacts.

(** ** The repository state manager *)

Section RepositoryFacts.
Import PyStr OsPath.

Variable sys : oracle.

Lemma is_git_directory_eq (dir : string) (w : world) :
  is_git_directory dir w = (Ok (git_marker dir w), w).
Proof. reflexivity. Qed.

(** Without the marker both checkouts raise [ValueError] and start no
    process. *)
Lemma checkout_without_marker (rev directory : string) (w : world) :
  git_marker directory w = false ->
  change_branch sys rev directory w = (Raise (not_a_git_directory directory), w)
  /\ checkout_commit sys rev directory w = (Raise (not_a_git_directory directory), w).
Proof.
  intros Hm. unfold change_branch, checkout_commit.
  rewrite !(@bind_step _ _ _ _ _ _ _ (is_git_directory_eq directory w)).
  rewrite Hm. split; reflexivity.
Qed.

(** C3, as the code has it.  Both functions raise [ValueError], and start
    no process, when the repository marker is missing.  With the marker in
    place, a checkout process that completes, with whatever exit code, makes
    neither function raise: [change_branch] returns normally and
    [checkout_commit] returns the boolean that is true exactly for exit code
    zero. *)
Theorem checkout_outcomes (rev directory : string) (w : world) :
  (git_marker directory w = false ->
   change_branch sys rev directory w = (Raise (not_a_git_directory directory), w)
   /\ checkout_commit sys rev directory w = (Raise (not_a_git_directory directory), w))
  /\ (git_marker directory w = true ->
      forall p, fst (sys (git_checkout rev directory) (w_fs w)) = Ok p ->
        fst (change_branch sys rev directory w) = Ok tt
        /\ fst (checkout_commit sys rev directory w) = Ok (returncode p =? 0)
        /\ ((returncode p =? 0) = true <-> returncode p = 0)).
Proof.
  split; [apply checkout_without_marker|].
  intros Hm p Hp. unfold change_branch, checkout_commit.
  rewrite !(@bind_step _ _ _ _ _ _ _ (is_git_directory_eq directory w)).
  rewrite Hm. cbn [negb]. unfold bind. rewrite subprocess_run_eq, Hp.
  split; [reflexivity|]. split; [|apply Z.eqb_eq].
  destruct (returncode p =? 0); reflexivity.
Qed.

Lemma clone_repository_present (url directory : string) (w : world) :
  Fs.exists_ (w_fs w) (cwd_path w) (clone_target url directory) = true ->
  exists w',
    clone_repository sys url directory w = (Ok tt, w')
    /\ w_fs w' = w_fs w /\ w_calls w' = w_calls w.
Proof.
  intros H. unfold clone_repository, bind, os_path_exists.
  fold (clone_target url directory). rewrite H. unfold print.
  eexists. split; [reflexivity|]. split; reflexivity.
Qed.

Lemma clone_repository_calls (url directory : string) (w w1 : world) (r : outcome unit) :
  clone_repository sys url directory w = (r, w1) ->
  w_cwd w1 = w_cwd w
  /\ (w_calls w1 = w_calls w
      \/ w_calls w1 = (w_calls w ++ [git_clone url directory])%list).
Proof.
  unfold clone_repository, bind, os_path_exists.
  destruct (Fs.exists_ (w_fs w) (cwd_path w) (directory ++ "/" ++ get_repository_name url)).
  - unfold print. intros H. injection H as _ <-. split; [reflexivity | now left].
  - rewrite subprocess_run_eq.
    destruct (fst (sys (git_clone url directory) (w_fs w))); unfold ret;
      intros H; injection H as _ <-; (split; [reflexivity | now right]).
Qed.

(** C9, as the code has it.  When the directory named after the repository
    exists under [directory], the call starts no process, leaves the file
    system alone and returns normally.  Hence of two calls in a row the
    second is such a no-op as soon as the directory exists after the first,
    and the two calls together start [git clone] at most once. *)
Theorem clone_repository_idempotent (url directory : string) (w : world) :
  (Fs.exists_ (w_fs w) (cwd_path w) (clone_target url directory) = true ->
   exists w',
     clone_repository sys url directory w = (Ok tt, w')
     /\ w_fs w' = w_fs w /\ w_calls w' = w_calls w)
  /\ (forall r1 w1,
        clone_repository sys url directory w = (r1, w1) ->
        Fs.exists_ (w_fs w1) (cwd_path w1) (clone_target url directory) = true ->
        exists w2,
          clone_repository sys url directory w1 = (Ok tt, w2)
          /\ w_fs w2 = w_fs w1
          /\ (w_calls w2 = w_calls w
              \/ w_calls w2 = (w_calls w ++ [git_clone url directory])%list)).
Proof.
  split; [apply clone_repository_present|].
  intros r1 w1 H1 Hex.
  destruct (clone_repository_present url directory w1 Hex) as (w2 & H2 & Hfs & Hcalls).
  exists w2. split; [exact H2|]. split; [exact Hfs|].
  rewrite Hcalls. now apply clone_repository_calls in H1.
Qed.

End RepositoryFacts.

(** ** The batch loop *)

Section BatchFacts.
Import PyStr OsPath.

Variable sys : oracle.
Variable generateTable : list Result -> M unit.

Lemma performEvaluation_name (i : issue) (w w' : world) (r : Result) :
  performEvaluation sys i w = (Ok r, w') -> name r = issue_id i.
Proof.
  unfold performEvaluation. intros H.
  apply bind_ok in H as (input_dir & w1 & _ & H).
  apply bind_ok in H as (u1 & w2 & _ & H).
  apply bind_ok in H as (u2 & w3 & _ & H).
  apply bind_ok in H as (u3 & w4 & _ & H).
  apply bind_ok in H as (cwd & w5 & _ & H).
  apply bind_ok in H as (command & w6 & _ & H).
  apply bind_ok in H as (result & w7 & Hrun & H).
  apply bind_ok in H as (u4 & w8 & _ & H).
  unfold ret in H. injection H as <- _.
  now apply run_specimin_name in Hrun.
Qed.

Lemma evaluate_issues_skips (data : list issue) :
  forall acc w,
    evaluate_issues sys data acc w
    = evaluate_issues sys (filter is_cf_6282 data) acc w.
Proof.
  induction data as [|i data IH]; intros acc w; [reflexivity|].
  cbn [evaluate_issues filter]. unfold is_cf_6282 at 1.
  destruct (String.eqb (issue_id i) "cf-6282") eqn:E; cbn [negb].
  - cbn [evaluate_issues]. rewrite E. cbn [negb].
    unfold bind. destruct (performEvaluation sys i w) as [[r|e] w1]; [apply IH | reflexivity].
  - apply IH.
Qed.

Lemma evaluate_issues_names (data : list issue) :
  forall acc w results w',
    evaluate_issues sys data acc w = (Ok results, w') ->
    exists new,
      results = (acc ++ new)%list
      /\ Forall (fun r => name r = "cf-6282") new
      /\ List.length new = List.length (filter is_cf_6282 data).
Proof.
  induction data as [|i data IH]; intros acc w results w'; cbn [evaluate_issues filter].
  - unfold ret. intros H. injection H as <- _. exists [].
    rewrite app_nil_r. repeat split. constructor.
  - unfold is_cf_6282 at 1.
    destruct (String.eqb (issue_id i) "cf-6282") eqn:E; cbn [negb]; [|apply IH].
    intros H. apply bind_ok in H as (r & w1 & Hr & H).
    apply IH in H as (new & -> & Hall & Hlen).
    exists (r :: new). rewrite <- app_assoc. split; [reflexivity|].
    split; [|cbn [List.length]; now rewrite Hlen].
    constructor; [|exact Hall].
    apply performEvaluation_name in Hr. rewrite Hr.
    now apply String.eqb_eq in E.
Qed.

Lemma main_eq (parsed_data : option (list issue)) :
  main sys generateTable parsed_data
  = (os_makedirs issue_folder_dir ;;
     clone_specimin sys issue_folder_dir specimin_source_url ;;
     evaluation_results <- evaluate_issues sys (corpus parsed_data) [] ;;
     generateTable evaluation_results ;;
     print (newline ++ newline ++ newline ++ newline) ;;
     print "issue_name    |    status    |    reason" ;;
     print "--------------------------------------------" ;;
     print_listing evaluation_results 1 ;;
     ret evaluation_results).
Proof. destruct parsed_data as [[|i l]|]; reflexivity. Qed.

(** C10. [main] evaluates the issues whose [issue_id] is [cf-6282] and no
    other: it behaves on a corpus exactly as on the corpus without the other
    issues (same results, same processes started, same files, same output),
    and every result it hands to the report carries the name [cf-6282], one
    result per such issue. *)
Theorem main_evaluates_only_cf_6282 (parsed_data : option (list issue)) (w : world) :
  main sys generateTable parsed_data w
  = main sys generateTable (Some (filter is_cf_6282 (corpus parsed_data))) w
  /\ forall results,
       fst (main sys generateTable parsed_data w) = Ok results ->
       Forall (fun r => name r = "cf-6282") results
       /\ List.length results = List.length (filter is_cf_6282 (corpus parsed_data)).
Proof.
  rewrite (main_eq parsed_data), (main_eq (Some _)). cbn [corpus]. split.
  - unfold bind.
    destruct (os_makedirs issue_folder_dir w) as [[u|e] w1]; [|reflexivity].
    destruct (clone_specimin sys issue_folder_dir specimin_source_url w1)
      as [[u'|e] w2]; [|reflexivity].
    rewrite evaluate_issues_skips.
    rewrite (evaluate_issues_skips (filter is_cf_6282 (corpus parsed_data))).
    reflexivity.
  - intros results H.
    match type of H with fst (?m w) = _ => destruct (m w) as [o w'] eqn:E end.
    cbn [fst] in H. subst o.
    apply bind_ok in E as (u & w1 & _ & H).
    apply bind_ok in H as (u' & w2 & _ & H).
    apply bind_ok in H as (rs & w3 & Hloop & H).
    apply bind_ok in H as (u0 & w3' & _ & H).
    apply bind_ok in H as (u1 & w4 & _ & H).
    apply bind_ok in H as (u2 & w5 & _ & H).
    apply bind_ok in H as (u3 & w6 & _ & H).
    apply bind_ok in H as (u4 & w7 & _ & H).
    unfold ret in H. injection H as <- _.
    apply evaluate_issues_names in Hloop as (new & -> & Hall & Hlen).
    now split.
Qed.

End BatchFacts.

(** ** The layout manager *)

Section LayoutFacts.
Import PyStr OsPath.

Lemma makedirs_walk_keeps (nm : string) (comps : list string) :
  forall fs cur fs',
    Fs.makedirs_walk fs nm cur comps = Ok fs' ->
    forall q n, fs q = Some n -> fs' q = Some n.
Proof.
  induction comps as [|c comps IH]; intros fs cur fs'; cbn [Fs.makedirs_walk].
  - destruct (Fs.lookup fs cur) as [[old|]|]; try discriminate.
    intros H. now injection H as <-.
  - destruct (Fs.lookup fs cur) as [[old|]|]; try discriminate.
    destruct (Fs.lookup fs (Fs.step cur c)) as [nd|] eqn:E.
    + apply IH.
    + intros H q n Hq. apply (IH _ _ _ H).
      rewrite set_other; [exact Hq|].
      intros ->. destruct (Fs.step cur c); [discriminate|].
      cbn in E. congruence.
Qed.

Lemma keeps_outside_ret {A} (root : world -> path) (a : A) : keeps_outside root (ret a).
Proof. intros w r w' H. injection H as _ <-. split; auto. Qed.

Lemma keeps_outside_bind {A B} (root : world -> path) (m : M A) (k : A -> M B) :
  (forall w w', w_cwd w' = w_cwd w -> root w' = root w) ->
  keeps_outside root m -> (forall a, keeps_outside root (k a)) ->
  keeps_outside root (bind m k).
Proof.
  intros Hroot Hm Hk w r w'. unfold bind.
  destruct (m w) as [[a|e] w1] eqn:E.
  - intros H. destruct (Hm _ _ _ E) as [Hc1 Hf1].
    destruct (Hk a _ _ _ H) as [Hc2 Hf2].
    split; [congruence|]. intros q n Hq Hp.
    apply Hf2; [now apply Hf1|]. now rewrite (Hroot _ _ Hc1).
  - intros H. injection H as <- <-. now apply (Hm _ _ _ E).
Qed.

Lemma cwd_output_cwd (w w' : world) : w_cwd w' = w_cwd w -> cwd_output w' = cwd_output w.
Proof. unfold cwd_output, cwd_path. now intros ->. Qed.

Lemma keeps_outside_makedirs (nm : string) : keeps_outside cwd_output (os_makedirs nm).
Proof.
  intros w r w'. unfold os_makedirs, lift_fs, Fs.makedirs.
  destruct (negb (nonempty nm)).
  - intros H. injection H as _ <-. split; auto.
  - destruct (Fs.makedirs_walk (w_fs w) nm (Fs.start_of (cwd_path w) nm) (split "/" nm))
      as [fs'|e] eqn:E; intros H; injection H as _ <-; (split; [reflexivity|]).
    + intros q n Hq _. cbn. eapply makedirs_walk_keeps; eauto.
    + auto.
Qed.

Lemma keeps_outside_exists (nm : string) : keeps_outside cwd_output (os_path_exists nm).
Proof. intros w r w' H. injection H as _ <-. split; auto. Qed.

Lemma resolve_output (fs : FS) (cwd : path) :
  Fs.resolve fs cwd specimin_output
  = match Fs.lookup fs cwd with
    | Some Dir => Ok (cwd ++ [specimin_output])%list
    | Some (File _) => Raise (Fs.enotdir specimin_output)
    | None => Raise (Fs.enoent specimin_output)
    end.
Proof. reflexivity. Qed.

Lemma keeps_outside_rmtree_output :
  keeps_outside cwd_output (shutil_rmtree specimin_output).
Proof.
  intros w r w'. unfold shutil_rmtree, lift_fs, Fs.rmtree.
  rewrite resolve_output. fold (cwd_output w).
  destruct (Fs.lookup (w_fs w) (cwd_path w)) as [[?|]|].
  - intros H. injection H as _ <-. split; auto.
  - destruct (Fs.lookup (w_fs w) (cwd_output w)) as [[?|]|];
      intros H; injection H as _ <-; (split; [reflexivity|]); auto.
    intros q n Hq Hp. cbn. unfold Fs.prune. now rewrite Hp.
  - intros H. injection H as _ <-. split; auto.
Qed.

(** Whatever the container and the issue, [create_issue_directory] removes
    nothing outside [output] of the working directory: the output directory
    of the issue is emptied only when it lies there. *)
Lemma create_issue_directory_removes_only_cwd_output (issue_container_dir issue_id : string) :
  keeps_outside cwd_output (create_issue_directory issue_container_dir issue_id).
Proof.
  unfold create_issue_directory.
  repeat (apply keeps_outside_bind;
          [apply cwd_output_cwd | | intros ?]);
    try apply keeps_outside_makedirs; try apply keeps_outside_exists;
    try apply keeps_outside_ret.
  match goal with |- context [if ?b then _ else _] => destruct b end;
    [apply keeps_outside_rmtree_output | apply keeps_outside_ret].
Qed.

End LayoutFacts.

(** ** The properties on concrete runs *)

Section Runs.
Import PyStr OsPath Spec.

Example basename_of_url :
  basename "https://github.com/google/nomulus.git" = "nomulus.git".
Proof. reflexivity. Qed.

Example splitext_java : splitext "Foo.java" = ("Foo", ".java").
Proof. reflexivity. Qed.

Example splitext_leading_dot : splitext "dir.d/.bashrc" = ("dir.d/.bashrc", EmptyString).
Proof. reflexivity. Qed.

Example repository_name_of_url :
  get_repository_name "https://github.com/google/nomulus.git" = "nomulus".
Proof. reflexivity. Qed.

Example relpath_of_issue :
  relpath "/work" "ISSUES/cf-6282" "ISSUES/specimin" = Some "../cf-6282".
Proof. reflexivity. Qed.

Example normpath_dots : normpath "//a/./b/../../../c/" = "//c".
Proof. reflexivity. Qed.

Example utf8_valid_ascii : utf8_valid "NullPointerException" = true.
Proof. reflexivity. Qed.

Example utf8_invalid_byte : utf8_valid (String (ascii_of_nat 255) EmptyString) = false.
Proof. reflexivity. Qed.

Example error_msg_file_cf_1 : error_msg_file "cf-1" = "ISSUES/cf-1/cf-1_error.txt".
Proof. reflexivity. Qed.

(** The scenario of the specification, in full. *)
Example scenario_command :
  build_specimin_command "/work" "nomulus" "ISSUES/cf-6282" "ISSUES/specimin"
                         "core/src/main/java" [foo_bar]
  = Ok ("./gradlew run --args='--root " ++ dquote
          ++ "../cf-6282/input/nomulus/core/src/main/java/" ++ dquote
          ++ " --outputDirectory " ++ dquote ++ "../cf-6282/output" ++ dquote
          ++ " --targetFile " ++ dquote ++ "com/example/Foo.java" ++ dquote
          ++ " --targetMethod " ++ dquote ++ "com.example.Foo#bar" ++ dquote ++ "'").
Proof. reflexivity. Qed.

(** A method target without a file name gets an empty stem. *)
Example method_without_file :
  qualified_method (Target "bar" EmptyString "com.example" None) = "com.example.#bar".
Proof. reflexivity. Qed.

(** An empty [issue_input_dir] makes [os.path.relpath] raise. *)
Example build_specimin_command_empty_path :
  build_specimin_command "/work" "nomulus" EmptyString "ISSUES/specimin" "src" []
  = Raise (Exn ValueError "no path specified").
Proof. reflexivity. Qed.



Lemma build_specimin_command_layout_witness :
  let root_v := root_value "../cf-6282" "nomulus" "core/src/main/java" in
  let out_v := output_value "../cf-6282" in
  let files := map qualified_file (filter has_file [foo_bar]) in
  let methods := map qualified_method (filter has_method [foo_bar]) in
  let flags :=
    (("--root", root_v) :: ("--outputDirectory", out_v)
     :: map (pair "--targetFile") files ++ map (pair "--targetMethod") methods)%list in
  build_specimin_command "/work" "nomulus" "ISSUES/cf-6282" "ISSUES/specimin"
                         "core/src/main/java" [foo_bar]
  = Ok ("./gradlew run --args=" ++ squote
          ++ command_args root_v out_v files methods ++ squote)
  /\ has_char "'"%char (command_args root_v out_v files methods) = false
  /\ flags_of (command_args root_v out_v files methods) = Some flags
  /\ count_flag "--root" flags = 1%nat
  /\ count_flag "--outputDirectory" flags = 1%nat
  /\ (exists r, root_v = r ++ sep /\ endswith_char sep_char r = false)
  /\ endswith_char sep_char out_v = false.
Proof.
  apply (build_specimin_command_layout "/work" "nomulus" "ISSUES/cf-6282"
           "ISSUES/specimin" "core/src/main/java" [foo_bar] (rel := "../cf-6282"));
    reflexivity.
Defined.

(** C6 as written fails: a root directory that carries quote characters
    closes the value of [--root] early, and the argument string reads as
    two [--root] flags; a project name with a single quote ends the
    shell-level argument inside the string. *)
Lemma build_specimin_command_injected_flag :
  build_specimin_command "/work" "proj" "ISSUES/cf-1" "ISSUES/specimin"
    ("src" ++ dquote ++ " --root " ++ dquote ++ "elsewhere") []
  = Ok ("./gradlew run --args=" ++ squote
          ++ command_args
               (root_value "../cf-1" "proj"
                  ("src" ++ dquote ++ " --root " ++ dquote ++ "elsewhere"))
               (output_value "../cf-1") [] []
          ++ squote)
  /\ flags_of
       (command_args
          (root_value "../cf-1" "proj"
             ("src" ++ dquote ++ " --root " ++ dquote ++ "elsewhere"))
          (output_value "../cf-1") [] [])
     = Some [("--root", "../cf-1/input/proj/src"); ("--root", "elsewhere/");
             ("--outputDirectory", "../cf-1/output")]
  /\ count_flag "--root"
       [("--root", "../cf-1/input/proj/src"); ("--root", "elsewhere/");
        ("--outputDirectory", "../cf-1/output")] = 2%nat
  /\ build_specimin_command "/work" "o'neil" "ISSUES/cf-1" "ISSUES/specimin" "src" []
     = Ok ("./gradlew run --args=" ++ squote
             ++ command_args (root_value "../cf-1" "o'neil" "src")
                             (output_value "../cf-1") [] []
             ++ squote)
  /\ has_char "'"%char
       (command_args (root_value "../cf-1" "o'neil" "src") (output_value "../cf-1") [] [])
     = true.
Proof. repeat split. Qed.

(** Exit code 1 with [NullPointerException] on standard error, in a tree
    that holds an older log. *)
Lemma run_specimin_error_log_witness :
  (exists w',
     run_specimin (sys_exit 1 "NullPointerException") "cf-1" "./gradlew run"
                  "ISSUES/specimin" w_rerun
     = (Ok (mkResult "cf-1" "FAIL" "ISSUES/cf-1/cf-1_error.txt"), w')
     /\ w_fs w' ["work"; "ISSUES"; "cf-1"; "cf-1_error.txt"]
        = Some (File "NullPointerException")
     /\ (forall q', q' <> ["work"; "ISSUES"; "cf-1"; "cf-1_error.txt"] ->
                    w_fs w' q' = w_fs w_rerun q')
     /\ w_calls w' = [specimin_call "./gradlew run" "ISSUES/specimin"])
  /\ (nonempty "cf-1" = true -> startswith_char sep_char "cf-1" = false ->
      endswith_char sep_char "cf-1" = false ->
      error_msg_file "cf-1" = "ISSUES/cf-1/cf-1_error.txt").
Proof.
  apply (run_specimin_error_log (sys_exit 1 "NullPointerException") "cf-1"
           "./gradlew run" "ISSUES/specimin" w_rerun
           (p := Completed 1 EmptyString "NullPointerException")
           (fs1 := w_fs w_rerun)
           (q := ["work"; "ISSUES"; "cf-1"; "cf-1_error.txt"])).
  - reflexivity.
  - simpl. lia.
  - reflexivity.
  - vm_compute. discriminate.
  - reflexivity.
Defined.

Lemma run_specimin_timeout_witness :
  exists w',
    run_specimin sys_hangs "cf-1" "./gradlew run" "ISSUES/specimin" w_rerun
    = (Ok (mkResult "cf-1" "FAIL" "Timeout"), w')
    /\ w_fs w' = w_fs w_rerun
    /\ w_calls w' = [specimin_call "./gradlew run" "ISSUES/specimin"]
    /\ w_stdout w' = [].
Proof.
  apply (run_specimin_timeout sys_hangs "cf-1" "./gradlew run" "ISSUES/specimin"
           w_rerun (e := Exn TimeoutExpired "timed out after 300 seconds")).
  - reflexivity.
  - reflexivity.
Defined.

Lemma checkout_outcomes_witness :
  fst (change_branch (sys_exit 1 "error: pathspec") "nobranch" "repo" w_repo) = Ok tt
  /\ fst (checkout_commit (sys_exit 1 "error: pathspec") "nobranch" "repo" w_repo)
     = Ok false
  /\ (false = true <-> 1 = 0).
Proof.
  apply (proj2 (checkout_outcomes (sys_exit 1 "error: pathspec") "nobranch" "repo" w_repo)
               eq_refl (Completed 1 EmptyString "error: pathspec")).
  reflexivity.
Defined.

(** Without the marker the checkout is refused before git is started. *)
Example change_branch_without_marker :
  change_branch sys_git "main" "ISSUES" w_bare
  = (Raise (Exn ValueError "ISSUES is not a valid git directory"), w_bare).
Proof. apply checkout_without_marker. reflexivity. Qed.

(** With a working git the second of two clones is a no-op. *)
Lemma clone_repository_idempotent_witness :
  exists w2,
    clone_repository sys_git "https://github.com/example/repo.git" "."
       (snd (clone_repository sys_git "https://github.com/example/repo.git" "." w_bare))
    = (Ok tt, w2)
    /\ w_fs w2
       = w_fs (snd (clone_repository sys_git "https://github.com/example/repo.git" "." w_bare))
    /\ (w_calls w2 = []
        \/ w_calls w2 = [git_clone "https://github.com/example/repo.git" "."]).
Proof.
  apply (proj2 (clone_repository_idempotent sys_git
                  "https://github.com/example/repo.git" "." w_bare)
               (fst (clone_repository sys_git "https://github.com/example/repo.git" "." w_bare))).
  - reflexivity.
  - reflexivity.
Defined.

(** C3 as written fails: the marker is there, [git checkout] exits with
    code 1, and [change_branch] returns normally. *)
Lemma change_branch_failed_checkout_returns :
  git_marker "repo" w_repo = true
  /\ fst (sys_exit 1 "error: pathspec" (git_checkout "nobranch" "repo") (w_fs w_repo))
     = Ok (Completed 1 EmptyString "error: pathspec")
  /\ ~ (exists e, fst (change_branch (sys_exit 1 "error: pathspec") "nobranch" "repo" w_repo)
                  = Raise e).
Proof.
  split; [reflexivity|]. split; [reflexivity|].
  intros [e H]. vm_compute in H. discriminate.
Qed.

(** C7 as written fails: the minimiser, started in the working directory,
    exits with code 1, but without the issue directory the log cannot be
    opened; the reason is the description of the exception and no log
    exists afterwards. *)
Lemma run_specimin_error_log_without_directory :
  fst (run_specimin (sys_exit 1 "NullPointerException") "cf-1" "./gradlew run"
                    "." w_bare)
  = Ok (mkResult "cf-1" "FAIL"
          "Unhandled exception occurred: [Errno 2] No such file or directory: 'ISSUES/cf-1/cf-1_error.txt'")
  /\ fst (run_specimin (sys_exit 1 "NullPointerException") "cf-1" "./gradlew run"
                       "." w_bare)
     <> Ok (mkResult "cf-1" "FAIL" (error_msg_file "cf-1"))
  /\ w_fs (snd (run_specimin (sys_exit 1 "NullPointerException") "cf-1" "./gradlew run"
                             "." w_bare))
          ["work"; "ISSUES"; "cf-1"; "cf-1_error.txt"] = None.
Proof.
  split; [reflexivity|]. split; [|reflexivity].
  intros H. vm_compute in H. discriminate.
Qed.

(** C2 as written fails: a non-zero exit code does not always give the
    path of the error log as reason.  The minimiser's repository is in
    place and the process exits with code 1, but the directory of the
    issue is missing: opening the log raises, and the reason is of the kind
    kept for every other exception, not the path. *)
Lemma run_specimin_nonzero_exit_unhandled :
  fst (sys_exit 1 "NullPointerException"
         (specimin_call "./gradlew run" "ISSUES/specimin") (w_fs w_specimin_dir))
  = Ok (Completed 1 EmptyString "NullPointerException")
  /\ Fs.isdir (w_fs w_specimin_dir) (cwd_path w_specimin_dir) "ISSUES/specimin" = true
  /\ fst (run_specimin (sys_exit 1 "NullPointerException") "cf-6282" "./gradlew run"
                       "ISSUES/specimin" w_specimin_dir)
     = Ok (mkResult "cf-6282" "FAIL"
             "Unhandled exception occurred: [Errno 2] No such file or directory: 'ISSUES/cf-6282/cf-6282_error.txt'")
  /\ Spec.classify
       "Unhandled exception occurred: [Errno 2] No such file or directory: 'ISSUES/cf-6282/cf-6282_error.txt'"
     = Spec.Unhandled
  /\ Spec.classify (error_msg_file "cf-6282") = Spec.ErrorLog.
Proof. repeat split. Qed.

(** Standard error that is not UTF-8: the older log is gone, the new one is
    empty, and the reason is the description of the decoding error. *)
Example run_specimin_undecodable_stderr :
  fst (run_specimin (sys_exit 1 (String (ascii_of_nat 255) EmptyString)) "cf-1"
                    "./gradlew run" "." w_rerun)
  = Ok (mkResult "cf-1" "FAIL"
          "Unhandled exception occurred: 'utf-8' codec can't decode byte 0xff in position 0: invalid start byte")
  /\ w_fs (snd (run_specimin (sys_exit 1 (String (ascii_of_nat 255) EmptyString)) "cf-1"
                             "./gradlew run" "." w_rerun))
          ["work"; "ISSUES"; "cf-1"; "cf-1_error.txt"] = Some (File EmptyString).
Proof. split; reflexivity. Qed.

(** C9 as written fails: when the clone does not produce the directory, the
    second call starts [git clone] again. *)
Lemma clone_repository_twice_clones_twice :
  w_calls
    (snd (clone_repository (sys_exit 128 "fatal: unable to access")
            "https://github.com/example/repo.git" "."
            (snd (clone_repository (sys_exit 128 "fatal: unable to access")
                    "https://github.com/example/repo.git" "." w_bare))))
  = [git_clone "https://github.com/example/repo.git" ".";
     git_clone "https://github.com/example/repo.git" "."]
  /\ ~ (List.length
          (w_calls
             (snd (clone_repository (sys_exit 128 "fatal: unable to access")
                     "https://github.com/example/repo.git" "."
                     (snd (clone_repository (sys_exit 128 "fatal: unable to access")
                             "https://github.com/example/repo.git" "." w_bare)))))
        <= 1)%nat.
Proof. split; [reflexivity|]. vm_compute. lia. Qed.

(** C1 fails on the code: the test and the removal name [output] in the
    working directory, not the output directory of the issue, so what an
    earlier run left there is still in place after the call. *)
Theorem create_issue_directory_keeps_old_output :
  fst (create_issue_directory "ISSUES" "cf-1" w_rerun) = Ok "ISSUES/cf-1/input"
  /\ w_fs (snd (create_issue_directory "ISSUES" "cf-1" w_rerun))
          ["work"; "ISSUES"; "cf-1"; "output"; "Stale.java"]
     = Some (File "class Stale {}")
  /\ w_fs (snd (create_issue_directory "ISSUES" "cf-1" w_rerun))
          ["work"; "ISSUES"; "cf-1"; "input"; "repo"; "README"]
     = Some (File "kept").
Proof. repeat split. Qed.

(** A batch of two issues with a working git, a passing minimiser and a
    report of one line: only [cf-6282] is evaluated and reported. *)
Example main_two_issues :
  fst (main sys_git table_printer (Some [cf_1; cf_6282]) w_bare)
  = Ok [mkResult "cf-6282" "PASS" EmptyString]
  /\ w_stdout (snd (main sys_git table_printer (Some [cf_1; cf_6282]) w_bare))
     = ["Successfully checked-out commit abc123 in ISSUES/cf-6282/input/nomulus";
        "cf-6282 - PASS";
        "report of 1 results";
        newline ++ newline ++ newline ++ newline;
        "issue_name    |    status    |    reason";
        "--------------------------------------------";
        "(1)cf-6282    |    PASS     |    "].
Proof. split; reflexivity. Qed.

Lemma main_evaluates_only_cf_6282_witness :
  Forall (fun r => name r = "cf-6282") [mkResult "cf-6282" "PASS" EmptyString]
  /\ List.length [mkResult "cf-6282" "PASS" EmptyString]
     = List.length (filter is_cf_6282 [cf_1; cf_6282]).
Proof.
  apply (proj2 (main_evaluates_only_cf_6282 sys_git table_printer
                  (Some [cf_1; cf_6282]) w_bare)
               [mkResult "cf-6282" "PASS" EmptyString]).
  reflexivity.
Defined.

End Runs.

(** ** Repository names *)

Section NameFacts.
Import PyStr OsPath.

Lemma drop_app_length (a b : string) : drop (String.length a) (a ++ b) = b.
Proof. induction a as [|x a IH]; simpl; [now destruct b | exact IH]. Qed.

Lemma take_app_length (a b : string) : take (String.length a) (a ++ b) = a.
Proof. induction a as [|x a IH]; simpl; [now destruct b | now rewrite IH]. Qed.

Lemma rfind_lower (c : ascii) (s : string) : -1 <= rfind c s.
Proof.
  induction s as [|a s IH]; simpl; [lia|].
  destruct (0 <=? rfind c s) eqn:E; [apply Z.leb_le in E; lia|].
  destruct (Ascii.eqb a c); lia.
Qed.

Lemma rfind_none (c : ascii) (s : string) :
  rfind c s = -1 <-> has_char c s = false.
Proof.
  induction s as [|a s IH]; simpl; [tauto|].
  pose proof (rfind_lower c s) as Hl.
  destruct (0 <=? rfind c s) eqn:E.
  - apply Z.leb_le in E. split; [lia|].
    intros H. apply orb_false_iff in H as [_ H]. apply IH in H. lia.
  - apply Z.leb_gt in E. assert (Hr : rfind c s = -1) by lia.
    apply IH in Hr. rewrite Hr, orb_false_r.
    destruct (Ascii.eqb a c); split; (lia || discriminate || reflexivity).
Qed.

Lemma rfind_app_last (c : ascii) (a b : string) :
  has_char c b = false ->
  rfind c (a ++ String c b) = Z.of_nat (String.length a).
Proof.
  intros Hb. apply rfind_none in Hb.
  induction a as [|x a IH].
  - cbn [append String.length rfind]. rewrite Hb. cbn. now rewrite Ascii.eqb_refl.
  - cbn [append String.length rfind]. rewrite IH.
    destruct (0 <=? Z.of_nat (String.length a)) eqn:E; [lia|].
    apply Z.leb_gt in E. lia.
Qed.

Lemma basename_after_sep (pre rest : string) :
  has_char sep_char rest = false ->
  basename (pre ++ sep ++ rest) = rest.
Proof.
  intros H. unfold basename, sep. cbn [append].
  change (String "/" rest) with (String sep_char rest).
  rewrite (rfind_app_last _ pre rest H). unfold sep_char.
  replace (Z.to_nat (Z.of_nat (String.length pre) + 1))
    with (String.length (pre ++ "/")).
  - replace (pre ++ String "/" rest) with ((pre ++ "/") ++ rest).
    + apply drop_app_length.
    + now rewrite append_assoc.
  - clear. induction pre as [|x pre IH]; [reflexivity|].
    cbn [append String.length]. rewrite IH. lia.
Qed.

(** The scan of [splitext] over a stretch [a] of the path that starts at
    the scanned index: it stops at the first character that is no dot. *)
Lemma splitext_scan_stretch (a : string) :
  forall pre b,
    splitext_scan (pre ++ a ++ b) (String.length pre) (String.length a)
    = negb (all_dots a).
Proof.
  induction a as [|x a IH]; intros pre b; [reflexivity|].
  cbn [String.length splitext_scan all_dots]. unfold char_at.
  rewrite drop_app_length. cbn [append take].
  destruct (Ascii.eqb x ".") eqn:Ex.
  - apply Ascii.eqb_eq in Ex. subst x. cbn [String.eqb Ascii.eqb negb andb].
    replace (String.eqb EmptyString EmptyString) with true by reflexivity.
    cbn [negb andb].
    replace (S (String.length pre)) with (String.length (pre ++ "."))
      by (clear; induction pre as [|y pre IHp]; [reflexivity | cbn; now rewrite IHp]).
    replace (pre ++ String "." (a ++ b)) with ((pre ++ ".") ++ a ++ b)
      by (now rewrite append_assoc).
    apply IH.
  - cbn [String.eqb]. rewrite Ex. reflexivity.
Qed.

Lemma splitext_extension (nm ext : string) :
  has_char sep_char nm = false -> all_dots nm = false ->
  has_char "."%char ext = false -> has_char sep_char ext = false ->
  splitext (nm ++ "." ++ ext) = (nm, "." ++ ext).
Proof.
  intros Hs Hd He Hse. unfold splitext. cbn [append].
  assert (Hsep : rfind sep_char (nm ++ String "." ext) = -1).
  { apply rfind_none. rewrite has_char_app, Hs. cbn [has_char orb].
    now rewrite Hse. }
  rewrite Hsep, (rfind_app_last _ nm ext He).
  replace (-1 <? Z.of_nat (String.length nm)) with true
    by (symmetry; apply Z.ltb_lt; lia).
  replace (Z.to_nat (-1 + 1)) with (String.length EmptyString) by reflexivity.
  replace (Z.to_nat (Z.of_nat (String.length nm) - (-1 + 1))) with (String.length nm) by lia.
  change (nm ++ String "." ext) with (EmptyString ++ nm ++ String "." ext).
  rewrite splitext_scan_stretch, Hd. cbn [negb append].
  rewrite Nat2Z.id, take_app_length, drop_app_length. reflexivity.
Qed.

Lemma splitext_no_dot (s : string) :
  has_char "."%char s = false -> splitext s = (s, EmptyString).
Proof.
  intros H. unfold splitext. apply rfind_none in H. rewrite H.
  pose proof (rfind_lower sep_char s).
  replace (rfind sep_char s <? -1) with false by (symmetry; apply Z.ltb_ge; lia).
  reflexivity.
Qed.

(** X1. For a URL whose last segment is a name followed by one extension
    (such as [.git]), the repository name is that name: the segment has no
    separator, is not made of dots only, and the extension has no dot. *)
Theorem get_repository_name_strips_extension (pre nm ext : string) :
  has_char sep_char nm = false -> all_dots nm = false ->
  has_char "."%char ext = false -> has_char sep_char ext = false ->
  get_repository_name (pre ++ "/" ++ nm ++ "." ++ ext) = nm.
Proof.
  intros Hs Hd He Hse. unfold get_repository_name.
  change (pre ++ "/" ++ nm ++ "." ++ ext) with (pre ++ sep ++ (nm ++ "." ++ ext)).
  rewrite basename_after_sep.
  - now rewrite splitext_extension.
  - rewrite has_char_app, Hs. cbn [append has_char orb]. now rewrite Hse.
Qed.

Lemma repository_name_sep_end (u : string) :
  get_repository_name (u ++ "/") = EmptyString.
Proof.
  unfold get_repository_name.
  replace (u ++ "/") with (u ++ sep ++ EmptyString) by reflexivity.
  now rewrite basename_after_sep.
Qed.

(** X2. A URL that ends in a separator has the empty repository name. *)
Theorem get_repository_name_trailing_separator (u : string) :
  get_repository_name (u ++ "/") = EmptyString.
Proof. apply repository_name_sep_end. Qed.

Lemma basename_no_sep (s : string) : has_char sep_char (basename s) = false.
Proof.
  unfold basename. induction s as [|a s IH]; [reflexivity|].
  cbn [rfind]. pose proof (rfind_lower sep_char s) as Hl.
  destruct (0 <=? rfind sep_char s) eqn:E.
  - apply Z.leb_le in E.
    replace (Z.to_nat (rfind sep_char s + 1 + 1)) with (S (Z.to_nat (rfind sep_char s + 1))) by lia.
    exact IH.
  - apply Z.leb_gt in E. assert (Hr : rfind sep_char s = -1) by lia.
    apply rfind_none in Hr.
    destruct (Ascii.eqb a sep_char) eqn:Ea; cbn; [exact Hr | now rewrite Ea, Hr].
Qed.

(** X3. Whatever the URL, the repository name holds no path separator: it
    names one entry of the directory it is looked up in. *)
Theorem get_repository_name_no_separator (u : string) :
  has_char sep_char (get_repository_name u) = false.
Proof.
  unfold get_repository_name, splitext.
  pose proof (basename_no_sep u) as H.
  repeat match goal with
         | |- context [if ?b then _ else _] => destruct b
         end; cbn [fst]; auto using has_char_take.
Qed.

End NameFacts.

(** ** More on the layout manager *)

Section LayoutMore.
Import PyStr OsPath.

Lemma lookup_keeps (fs fs' : FS) :
  (forall q n, fs q = Some n -> fs' q = Some n) ->
  forall p n, Fs.lookup fs p = Some n -> Fs.lookup fs' p = Some n.
Proof. intros H [|a p] n; [auto | apply H]. Qed.

(** After [os.makedirs] the path resolves to a directory. *)
Lemma makedirs_walk_isdir (nm : string) (comps : list string) :
  forall fs cur fs',
    Fs.makedirs_walk fs nm cur comps = Ok fs' ->
    exists q, Fs.walk fs' nm cur comps = Ok q /\ Fs.lookup fs' q = Some Dir.
Proof.
  induction comps as [|c comps IH]; intros fs cur fs'; cbn [Fs.makedirs_walk Fs.walk].
  - destruct (Fs.lookup fs cur) as [[old|]|] eqn:E; try discriminate.
    intros H. injection H as <-. eauto.
  - destruct (Fs.lookup fs cur) as [[old|]|] eqn:E; try discriminate.
    intros H.
    assert (Hcur : Fs.lookup fs' cur = Some Dir).
    { destruct (Fs.lookup fs (Fs.step cur c)) as [nd|] eqn:En.
      - eapply lookup_keeps; [|exact E]. eapply makedirs_walk_keeps; eauto.
      - eapply lookup_keeps; [eapply makedirs_walk_keeps; eauto|].
        rewrite lookup_set_other; [exact E|]. intros Heq.
        rewrite <- Heq in En. congruence. }
    rewrite Hcur.
    destruct (Fs.lookup fs (Fs.step cur c)) as [nd|]; eapply IH; eauto.
Qed.

Lemma os_makedirs_isdir (nm : string) (w w' : world) :
  os_makedirs nm w = (Ok tt, w') ->
  w_cwd w' = w_cwd w /\ Fs.isdir (w_fs w') (cwd_path w') nm = true.
Proof.
  unfold os_makedirs, lift_fs, Fs.makedirs.
  destruct (negb (nonempty nm)) eqn:En; [discriminate|].
  destruct (Fs.makedirs_walk (w_fs w) nm (Fs.start_of (cwd_path w) nm) (split "/" nm))
    as [fs'|e] eqn:E; [|discriminate].
  intros H. injection H as <-. split; [reflexivity|].
  apply makedirs_walk_isdir in E as (q & Hq & Hd).
  unfold Fs.isdir, Fs.resolve. rewrite En.
  change (cwd_path (with_fs w fs')) with (cwd_path w).
  cbn [w_fs with_fs]. now rewrite Hq, Hd.
Qed.

(** X4. Whatever the container, the issue and the outcome,
    [create_issue_directory] leaves in place every file and directory that
    is not [output] of the working directory or below it, and it does not
    change the working directory. *)
Theorem create_issue_directory_keeps_outside_output
        (issue_container_dir issue_id : string) (w : world) :
  w_cwd (snd (create_issue_directory issue_container_dir issue_id w)) = w_cwd w
  /\ forall q n,
       w_fs w q = Some n ->
       Fs.is_prefix (cwd_path w ++ ["output"])%list q = false ->
       w_fs (snd (create_issue_directory issue_container_dir issue_id w)) q = Some n.
Proof.
  pose proof (create_issue_directory_removes_only_cwd_output
                issue_container_dir issue_id) as H.
  unfold keeps_outside in H. eapply H. apply surjective_pairing.
Qed.

(** X5. When [create_issue_directory] returns, it returns the path of the
    input directory of the issue, and the output directory of the issue is
    a directory. *)
Theorem create_issue_directory_returns
        (issue_container_dir issue_id : string) (w : world) (r : string) :
  fst (create_issue_directory issue_container_dir issue_id w) = Ok r ->
  r = join (join issue_container_dir issue_id) "input"
  /\ Fs.isdir (w_fs (snd (create_issue_directory issue_container_dir issue_id w)))
              (cwd_path (snd (create_issue_directory issue_container_dir issue_id w)))
              (join (join issue_container_dir issue_id) "output") = true.
Proof.
  destruct (create_issue_directory issue_container_dir issue_id w) as [o w'] eqn:H.
  cbn [fst snd]. intros ->. unfold create_issue_directory in H.
  apply bind_ok in H as (u1 & w1 & _ & H).
  apply bind_ok in H as (u2 & w2 & _ & H).
  apply bind_ok in H as (present & w3 & _ & H).
  apply bind_ok in H as (u3 & w4 & _ & H).
  apply bind_ok in H as (u4 & w5 & Hmk & H).
  unfold ret in H. injection H as <- <-. split; [reflexivity|].
  destruct u4. now apply os_makedirs_isdir in Hmk.
Qed.

End LayoutMore.

(** ** More on the repository state manager *)

Section RepositoryMore.
Import PyStr OsPath.

Variable sys : oracle.

Lemma split_app_sep (c : ascii) (a b : string) :
  split c (a ++ String c b) = (split c a ++ split c b)%list.
Proof.
  induction a as [|x a IH]; cbn [append split].
  - now rewrite Ascii.eqb_refl.
  - rewrite IH. destruct (Ascii.eqb x c); [reflexivity|].
    pose proof (split_not_nil c a) as Hne.
    destruct (split c a) as [|h t]; [contradiction | reflexivity].
Qed.

Lemma walk_app (fs : FS) (nm : string) (l1 l2 : list string) :
  forall cur,
    Fs.walk fs nm cur (l1 ++ l2)
    = match Fs.walk fs nm cur l1 with
      | Ok q => Fs.walk fs nm q l2
      | Raise e => Raise e
      end.
Proof.
  induction l1 as [|c l1 IH]; intros cur; cbn [app Fs.walk]; [reflexivity|].
  destruct (Fs.lookup fs cur) as [[old|]|]; auto.
Qed.

(** The name only shows in the error text. *)
Lemma walk_ok_name (fs : FS) (nm nm' : string) (comps : list string) :
  forall cur q, Fs.walk fs nm cur comps = Ok q -> Fs.walk fs nm' cur comps = Ok q.
Proof.
  induction comps as [|c comps IH]; intros cur q; cbn [Fs.walk]; [auto|].
  destruct (Fs.lookup fs cur) as [[old|]|]; try discriminate. apply IH.
Qed.

Lemma isdir_exists (fs : FS) (cwd : path) (nm : string) :
  Fs.isdir fs cwd nm = true -> Fs.exists_ fs cwd nm = true.
Proof.
  unfold Fs.isdir, Fs.exists_. destruct (Fs.resolve fs cwd nm) as [q|e]; [|discriminate].
  destruct (Fs.lookup fs q) as [[old|]|]; (discriminate || reflexivity).
Qed.

(** A directory is still found with a separator behind its name. *)
Lemma exists_trailing_sep (fs : FS) (cwd : path) (d : string) :
  Fs.isdir fs cwd d = true -> Fs.exists_ fs cwd (d ++ "/") = true.
Proof.
  unfold Fs.isdir, Fs.exists_, Fs.resolve.
  destruct d as [|a d]; [discriminate|]. cbn [nonempty negb append].
  change (Fs.start_of cwd (String a (d ++ "/"))) with (Fs.start_of cwd (String a d)).
  change (String a (d ++ "/")) with (String a d ++ String "/" EmptyString) at 2.
  rewrite split_app_sep, walk_app.
  destruct (Fs.walk fs (String a d) (Fs.start_of cwd (String a d)) (split "/" (String a d)))
    as [q|e] eqn:E; [|discriminate].
  rewrite (@walk_ok_name fs _ (String a (d ++ "/")) _ _ _ E).
  cbn [split Fs.walk].
  destruct (Fs.lookup fs q) as [[old|]|] eqn:El; try discriminate.
  intros _. cbn [Fs.step String.eqb orb]. now rewrite El.
Qed.

(** X6. For a URL that ends in a separator the repository name is empty:
    as soon as [directory] is a directory, [clone_repository] finds
    [directory/] in place, starts no process and returns normally, so
    nothing is ever cloned. *)
Theorem clone_repository_trailing_separator (u directory : string) (w : world) :
  Fs.isdir (w_fs w) (cwd_path w) directory = true ->
  exists w',
    clone_repository sys (u ++ "/") directory w = (Ok tt, w')
    /\ w_fs w' = w_fs w /\ w_calls w' = w_calls w.
Proof.
  intros H. apply clone_repository_present. unfold clone_target.
  rewrite repository_name_sep_end. cbn [append].
  now apply exists_trailing_sep.
Qed.

(** X27. [is_git_directory] answers whether [.git] under the directory is
    itself a directory (the test for existence adds nothing) and changes
    nothing.  So a checkout whose [.git] is a regular file is refused: both
    checkouts raise [ValueError] and start no process. *)
Theorem is_git_directory_needs_directory (rev dir : string) (w : world) :
  is_git_directory dir w
  = (Ok (Fs.isdir (w_fs w) (cwd_path w) (join dir ".git")), w)
  /\ (Fs.isdir (w_fs w) (cwd_path w) (join dir ".git") = false ->
      change_branch sys rev dir w = (Raise (not_a_git_directory dir), w)
      /\ checkout_commit sys rev dir w = (Raise (not_a_git_directory dir), w)).
Proof.
  assert (H : git_marker dir w = Fs.isdir (w_fs w) (cwd_path w) (join dir ".git")).
  { unfold git_marker.
    destruct (Fs.isdir (w_fs w) (cwd_path w) (join dir ".git")) eqn:E.
    - now rewrite (isdir_exists _ _ _ E).
    - apply andb_false_r. }
  split.
  - rewrite is_git_directory_eq. now rewrite H.
  - intros E. apply checkout_without_marker. now rewrite H.
Qed.

Lemma perform_git_pull_calls (directory : string) (w w' : world) (r : outcome unit) :
  perform_git_pull sys directory w = (r, w') ->
  w_calls w' = (w_calls w ++ [git_pull directory])%list.
Proof.
  unfold perform_git_pull, bind. rewrite subprocess_run_eq.
  destruct (fst (sys _ (w_fs w))); unfold ret; intros H; now injection H as _ <-.
Qed.

(** X7. What [clone_specimin] starts depends on [ISSUES/specimin] alone.
    When that is a directory, one [git pull origin --rebase] runs in it,
    whatever the two arguments.  Called as [main] calls it: when
    [ISSUES/specimin] exists without being a directory, nothing is started
    and the call returns normally; when it does not exist, one
    [git clone] of the minimiser's URL runs in [ISSUES]. *)
Theorem clone_specimin_cases (w : world) :
  (Fs.isdir (w_fs w) (cwd_path w) "ISSUES/specimin" = true ->
   forall path_to_clone url r w',
     clone_specimin sys path_to_clone url w = (r, w') ->
     w_calls w' = (w_calls w ++ [git_pull "ISSUES/specimin"])%list)
  /\ (Fs.exists_ (w_fs w) (cwd_path w) "ISSUES/specimin" = true ->
      Fs.isdir (w_fs w) (cwd_path w) "ISSUES/specimin" = false ->
      exists w',
        clone_specimin sys issue_folder_dir specimin_source_url w = (Ok tt, w')
        /\ w_fs w' = w_fs w /\ w_calls w' = w_calls w)
  /\ (Fs.exists_ (w_fs w) (cwd_path w) "ISSUES/specimin" = false ->
      forall r w',
        clone_specimin sys issue_folder_dir specimin_source_url w = (r, w') ->
        w_calls w' = (w_calls w ++ [git_clone specimin_source_url "ISSUES"])%list).
Proof.
  unfold clone_specimin, bind, os_path_exists, os_path_isdir.
  change (join issue_folder_dir specimin_project_name) with "ISSUES/specimin".
  split; [|split].
  - intros Hd p u r w'. rewrite Hd, (isdir_exists _ _ _ Hd). cbn [andb].
    apply perform_git_pull_calls.
  - intros He Hd. rewrite He, Hd. cbn [andb].
    apply clone_repository_present. exact He.
  - intros He r w'. rewrite He. cbn [andb].
    unfold clone_repository, bind, os_path_exists.
    change (issue_folder_dir ++ "/" ++ get_repository_name specimin_source_url)
      with "ISSUES/specimin".
    rewrite He, subprocess_run_eq.
    destruct (fst (sys _ (w_fs w))); unfold ret; intros H; now injection H as _ <-.
Qed.

End RepositoryMore.

(** ** More on the command synthesiser *)

Section CommandMore.
Import PyStr OsPath Spec.

Variables cwd project issue_input_dir specimin_dir root_dir : string.
Variable ts : list target.

Lemma nonempty_false (s : string) : nonempty s = false <-> s = EmptyString.
Proof. destruct s; split; (reflexivity || discriminate). Qed.

(** X8. The [ValueError] of [os.path.relpath] is raised exactly when
    [issue_input_dir] is the empty string, and then whatever the project,
    the root directory and the targets are: the path is made relative
    before any descriptor is read.  The synthesiser raises no other
    [ValueError]. *)
Theorem build_specimin_command_no_path :
  (issue_input_dir = EmptyString <->
   build_specimin_command cwd project issue_input_dir specimin_dir root_dir ts
   = Raise (Exn ValueError "no path specified"))
  /\ (forall e,
        build_specimin_command cwd project issue_input_dir specimin_dir root_dir ts
        = Raise e ->
        exn_class e = ValueError ->
        issue_input_dir = EmptyString /\ exn_str e = "no path specified").
Proof.
  destruct (nonempty issue_input_dir) eqn:E.
  - destruct (relpath_defined cwd issue_input_dir specimin_dir E) as [rel Hrel].
    rewrite (build_specimin_command_shape cwd project issue_input_dir specimin_dir
               root_dir ts Hrel).
    split; [split|]; try discriminate. intros ->. discriminate.
  - apply nonempty_false in E. subst issue_input_dir.
    split; [split; reflexivity|].
    intros e H _. cbn in H. injection H as <-. now split.
Qed.

Lemma filter_filter_weaker {A} (p q : A -> bool) (l : list A) :
  (forall x, p x = true -> q x = true) ->
  filter p (filter q l) = filter p l.
Proof.
  intros H. induction l as [|x l IH]; [reflexivity|]. cbn [filter].
  destruct (q x) eqn:Eq; cbn [filter].
  - now rewrite IH.
  - destruct (p x) eqn:Ep; [|exact IH]. apply H in Ep. congruence.
Qed.

(** X9. A descriptor whose [file_name] and [method_name] are both empty
    contributes nothing: the command is the one built from the other
    descriptors (and the same exception is raised, if any). *)
Theorem build_specimin_command_ignores_empty_targets :
  build_specimin_command cwd project issue_input_dir specimin_dir root_dir ts
  = build_specimin_command cwd project issue_input_dir specimin_dir root_dir
      (filter (fun t => has_file t || has_method t) ts).
Proof.
  destruct (relpath cwd issue_input_dir specimin_dir) as [rel|] eqn:Hrel.
  - rewrite !(build_specimin_command_shape _ _ _ _ _ _ Hrel).
    rewrite !filter_filter_weaker; [reflexivity | |];
      intros t Ht; rewrite Ht; auto using orb_true_r.
  - unfold build_specimin_command. now rewrite Hrel.
Qed.

End CommandMore.

Section CommandInOrchestrator.
Import PyStr OsPath Spec.

(** X10. With the arguments that [performEvaluation] passes, the issue
    directory is never the empty path, whatever the issue identifier is (an
    empty one gives [ISSUES/]); so [os.path.relpath] has a value and the
    synthesiser does not raise its [ValueError]. *)
Theorem issue_directory_never_empty
        (cwd repo_name issue_id root_dir : string) (ts : list target) :
  join issue_folder_dir issue_id <> EmptyString
  /\ (exists rel,
        relpath cwd (join issue_folder_dir issue_id)
                (join issue_folder_dir specimin_project_name) = Some rel)
  /\ build_specimin_command cwd repo_name
       (join issue_folder_dir issue_id)
       (join issue_folder_dir specimin_project_name) root_dir ts
     <> Raise (Exn ValueError "no path specified").
Proof.
  assert (H : nonempty (join issue_folder_dir issue_id) = true).
  { unfold join, issue_folder_dir. destruct issue_id as [|a r]; [reflexivity|].
    cbn [startswith_char]. destruct (Ascii.eqb a sep_char); reflexivity. }
  destruct (relpath_defined cwd _ (join issue_folder_dir specimin_project_name) H)
    as [rel Hrel].
  split; [intros E; rewrite E in H; discriminate|].
  split; [eauto|].
  rewrite (build_specimin_command_shape _ _ _ _ _ _ Hrel). discriminate.
Qed.

End CommandInOrchestrator.

(** ** More on the execution engine *)

Section ExecutionMore.
Import PyStr OsPath Spec.

Variable sys : oracle.

Lemma quiet_ret {A} (a : A) : quiet (ret a).
Proof. intros w r w' H. injection H as _ <-. auto. Qed.

Lemma quiet_bind {A B} (m : M A) (k : A -> M B) :
  quiet m -> (forall a, quiet (k a)) -> quiet (bind m k).
Proof.
  intros Hm Hk w r w'. unfold bind. destruct (m w) as [[a|e] w1] eqn:E.
  - intros H. destruct (Hm _ _ _ E) as (? & ? & ?).
    destruct (Hk a _ _ _ H) as (? & ? & ?). repeat split; congruence.
  - intros H. injection H as _ <-. exact (Hm _ _ _ E).
Qed.

Lemma quiet_lift_fs (op : FS -> path -> outcome FS) : quiet (lift_fs op).
Proof.
  intros w r w'. unfold lift_fs.
  destruct (op (w_fs w) (cwd_path w)); intros H; injection H as _ <-; auto.
Qed.

Lemma quiet_exists (nm : string) : quiet (os_path_exists nm).
Proof. intros w r w' H. injection H as _ <-. auto. Qed.

Lemma quiet_open_w (nm : string) : quiet (open_w nm).
Proof.
  intros w r w'. unfold open_w.
  destruct (Fs.open_w (w_fs w) (cwd_path w) nm) as [[h fs']|e];
    intros H; injection H as _ <-; auto.
Qed.

Lemma quiet_file_write (h : path) (text : string) : quiet (file_write h text).
Proof. intros w r w' H. injection H as _ <-. auto. Qed.

Lemma quiet_lift_outcome {A} (o : outcome A) : quiet (lift_outcome o).
Proof. intros w r w' H. injection H as _ <-. auto. Qed.

Lemma quiet_write_error_log (n : string) (p : completed) : quiet (write_error_log n p).
Proof.
  unfold write_error_log.
  apply quiet_bind; [apply quiet_exists|]. intros present.
  apply quiet_bind.
  { destruct present; [apply quiet_lift_fs | apply quiet_ret]. }
  intros _. apply quiet_bind; [apply quiet_open_w|]. intros file.
  apply quiet_bind; [apply quiet_lift_outcome|]. intros text.
  apply quiet_bind; [apply quiet_file_write|]. intros _. apply quiet_ret.
Qed.

(** The world of [run_specimin] after the process, and what follows it. *)
Lemma run_specimin_eq (n cmd dir : string) (w : world) :
  run_specimin sys n cmd dir w
  = match fst (sys (specimin_call cmd dir) (w_fs w)) with
    | Ok p =>
        if returncode p =? 0
        then (Ok (mkResult n "PASS" EmptyString), after_call sys (specimin_call cmd dir) w)
        else match write_error_log n p (after_call sys (specimin_call cmd dir) w) with
             | (Ok r, w') => (Ok r, w')
             | (Raise e, w') => run_specimin_except n e w'
             end
    | Raise e => run_specimin_except n e (after_call sys (specimin_call cmd dir) w)
    end.
Proof.
  unfold run_specimin, try_except, run_specimin_try, bind.
  rewrite subprocess_run_eq.
  destruct (fst (sys _ (w_fs w))) as [p|e]; [|reflexivity].
  destruct (returncode p =? 0); reflexivity.
Qed.

Lemma run_specimin_except_eq (n : string) (e : exn) (w : world) :
  exists r, run_specimin_except n e w = (Ok r, w).
Proof. unfold run_specimin_except, ret. destruct (is_timeout e); eauto. Qed.

Lemma run_specimin_trace (n cmd dir : string) (w : world) :
  w_calls (snd (run_specimin sys n cmd dir w))
  = (w_calls w ++ [Call (Shell cmd) dir (Some 300)])%list
  /\ w_stdout (snd (run_specimin sys n cmd dir w)) = w_stdout w
  /\ w_cwd (snd (run_specimin sys n cmd dir w)) = w_cwd w.
Proof.
  rewrite run_specimin_eq.
  set (w1 := after_call sys (specimin_call cmd dir) w).
  assert (H1 : w_calls w1 = (w_calls w ++ [Call (Shell cmd) dir (Some 300)])%list
               /\ w_stdout w1 = w_stdout w /\ w_cwd w1 = w_cwd w)
    by (repeat split).
  destruct (fst (sys _ (w_fs w))) as [p|e].
  - destruct (returncode p =? 0); [exact H1|].
    destruct (write_error_log n p w1) as [[r|e] w2] eqn:E;
      destruct (quiet_write_error_log _ _ _ E) as (Hc & Hl & Ho).
    + cbn [snd]. rewrite Hc, Hl, Ho. exact H1.
    + destruct (run_specimin_except_eq n e w2) as [r ->].
      cbn [snd]. rewrite Hc, Hl, Ho. exact H1.
  - destruct (run_specimin_except_eq n e w1) as [r ->]. exact H1.
Qed.

(** X11. Whatever happens, [run_specimin] starts exactly one process, the
    shell command in the given directory with the timeout of 300, prints
    nothing and stays in the working directory. *)
Theorem run_specimin_one_process (n cmd dir : string) (w : world) :
  w_calls (snd (run_specimin sys n cmd dir w))
  = (w_calls w ++ [Call (Shell cmd) dir (Some 300)])%list
  /\ w_stdout (snd (run_specimin sys n cmd dir w)) = w_stdout w
  /\ w_cwd (snd (run_specimin sys n cmd dir w)) = w_cwd w.
Proof. apply run_specimin_trace. Qed.

(** [run_specimin] returns, and what it returns is a pass or a failure
    named after the issue. *)
Lemma run_specimin_returns (n cmd dir : string) (w : world) :
  exists r w',
    run_specimin sys n cmd dir w = (Ok r, w')
    /\ name r = n /\ (status r = "PASS" \/ status r = "FAIL").
Proof.
  rewrite run_specimin_eq.
  assert (Hex : forall e w1, exists r w',
             run_specimin_except n e w1 = (Ok r, w')
             /\ name r = n /\ (status r = "PASS" \/ status r = "FAIL")).
  { intros e w1. unfold run_specimin_except, ret.
    destruct (is_timeout e); do 2 eexists; (split; [reflexivity|]); cbn; auto. }
  destruct (fst (sys _ (w_fs w))) as [p|e]; [|apply Hex].
  destruct (returncode p =? 0).
  - do 2 eexists. split; [reflexivity|]. cbn. auto.
  - destruct (write_error_log n p _) as [[r|e] w2] eqn:E; [|apply Hex].
    apply write_error_log_returns in E. subst r.
    do 2 eexists. split; [reflexivity|]. cbn. auto.
Qed.

(** X12. After exit code 0 the result is [PASS] with the empty reason and
    the file system is the one the process left: nothing is written or
    removed, so an error log of an earlier failing run stays in place. *)
Theorem run_specimin_pass (n cmd dir : string) (w : world) (p : completed) :
  fst (sys (specimin_call cmd dir) (w_fs w)) = Ok p ->
  returncode p = 0 ->
  fst (run_specimin sys n cmd dir w) = Ok (mkResult n "PASS" EmptyString)
  /\ w_fs (snd (run_specimin sys n cmd dir w)) = snd (sys (specimin_call cmd dir) (w_fs w)).
Proof.
  intros Hp Hrc. rewrite run_specimin_eq, Hp.
  apply Z.eqb_eq in Hrc. rewrite Hrc. split; reflexivity.
Qed.

(** The error-log branch up to the opened, empty log. *)
Lemma write_error_log_opened (n : string) (p : completed) (w : world) (q : path) :
  Fs.resolve (w_fs w) (cwd_path w) (error_msg_file n) = Ok q ->
  Fs.lookup (w_fs w) q <> Some Dir ->
  exists w2,
    w_fs w2 q = Some (File EmptyString)
    /\ (forall q', q' <> q -> w_fs w2 q' = w_fs w q')
    /\ w_cwd w2 = w_cwd w
    /\ write_error_log n p w
       = (text <- lift_outcome (decode_utf8 (stderr p)) ;;
          file_write q text ;;
          ret (mkResult n "FAIL" (error_msg_file n))) w2.
Proof.
  intros Hres Hnd.
  assert (Hq : q <> []) by (intros ->; apply Hnd; reflexivity).
  set (f := error_msg_file n) in *.
  assert (Hpre : exists fs1,
      (if Fs.exists_ (w_fs w) (cwd_path w) f then os_remove f else ret tt) w
      = (Ok tt, with_fs w fs1)
      /\ Fs.lookup fs1 q <> Some Dir
      /\ (forall p', Fs.lookup (w_fs w) p' = Some Dir -> Fs.lookup fs1 p' = Some Dir)
      /\ (forall q', q' <> q -> fs1 q' = w_fs w q')).
  { unfold Fs.exists_. rewrite Hres.
    destruct (Fs.lookup (w_fs w) q) as [[old|]|] eqn:El.
    - exists (Fs.set (w_fs w) q None).
      unfold os_remove, lift_fs, Fs.remove. rewrite Hres, El.
      split; [reflexivity|]. split; [|split].
      + rewrite lookup_set_same by exact Hq. discriminate.
      + apply set_keeps_dirs. rewrite El. discriminate.
      + intros q' Hq'. now apply set_other.
    - contradiction.
    - exists (w_fs w). split; [destruct w; reflexivity|].
      split; [|split]; auto. rewrite El. discriminate. }
  destruct Hpre as (fs1 & Hstep & Hnd1 & Hdirs & Hsame).
  assert (Hres1 : Fs.resolve fs1 (cwd_path w) f = Ok q)
    by (eapply resolve_keeps; eauto).
  set (fs2 := Fs.set fs1 q (Some (File EmptyString))).
  assert (Hopen : open_w f (with_fs w fs1) = (Ok q, with_fs (with_fs w fs1) fs2)).
  { unfold open_w, Fs.open_w. cbn [w_fs with_fs].
    change (cwd_path (with_fs w fs1)) with (cwd_path w).
    rewrite Hres1.
    destruct (Fs.lookup fs1 q) as [[old|]|]; try reflexivity. contradiction. }
  exists (with_fs (with_fs w fs1) fs2). cbn [w_fs w_cwd with_fs].
  split; [apply set_same|]. split; [|split; [reflexivity|]].
  - intros q' Hq'. unfold fs2. rewrite set_other by exact Hq'. now apply Hsame.
  - unfold write_error_log. fold f.
    rewrite (@bind_step _ _ (os_path_exists f) _ w w
               (Fs.exists_ (w_fs w) (cwd_path w) f) eq_refl).
    rewrite (@bind_step _ _ _ _ _ _ _ Hstep).
    rewrite (@bind_step _ _ _ _ _ _ _ Hopen). reflexivity.
Qed.

(** X13. A non-zero exit code with standard error that is not valid UTF-8,
    where the log could be opened: the log is left empty (an older log is
    gone), nothing else changes, and the result is [FAIL] with a reason of
    the unhandled-exception kind. *)
Theorem run_specimin_undecodable (n cmd dir : string) (w : world)
        (p : completed) (fs1 : FS) (q : path) :
  sys (specimin_call cmd dir) (w_fs w) = (Ok p, fs1) ->
  returncode p <> 0 ->
  Fs.resolve fs1 (cwd_path w) (error_msg_file n) = Ok q ->
  Fs.lookup fs1 q <> Some Dir ->
  utf8_valid (stderr p) = false ->
  exists r w',
    run_specimin sys n cmd dir w = (Ok r, w')
    /\ name r = n /\ status r = "FAIL" /\ classify (reason r) = Unhandled
    /\ w_fs w' q = Some (File EmptyString)
    /\ (forall q', q' <> q -> w_fs w' q' = fs1 q').
Proof.
  intros Hsys Hrc Hres Hnd Hutf. rewrite run_specimin_eq, Hsys. cbn [fst].
  apply Z.eqb_neq in Hrc. rewrite Hrc.
  destruct (write_error_log_opened n p (after_call sys (specimin_call cmd dir) w) (q:=q))
    as (w2 & Hfile & Hrest & _ & Hrun).
  - unfold after_call. rewrite Hsys. exact Hres.
  - unfold after_call. rewrite Hsys. exact Hnd.
  - rewrite Hrun. unfold bind, lift_outcome.
    destruct (decode_utf8_invalid _ Hutf) as [m ->].
    unfold run_specimin_except. cbn [is_timeout exn_class]. unfold ret.
    do 2 eexists. split; [reflexivity|]. cbn [name status reason].
    split; [reflexivity|]. split; [reflexivity|].
    split; [apply classify_unhandled|]. split; [exact Hfile|].
    intros q' Hq'. rewrite (Hrest q' Hq'). unfold after_call. now rewrite Hsys.
Qed.

Lemma write_error_log_confined (n : string) (p : completed) (w w' : world)
      (r : outcome Result) :
  write_error_log n p w = (r, w') ->
  match Fs.resolve (w_fs w) (cwd_path w) (error_msg_file n) with
  | Ok q => forall q', q' <> q -> w_fs w' q' = w_fs w q'
  | Raise _ => w_fs w' = w_fs w
  end.
Proof.
  destruct (Fs.resolve (w_fs w) (cwd_path w) (error_msg_file n)) as [q|e0] eqn:Hres.
  - destruct (Fs.lookup (w_fs w) q) as [[old|]|] eqn:El.
    + destruct (write_error_log_opened n p w Hres) as (w2 & _ & Hrest & _ & ->).
      { rewrite El. discriminate. }
      unfold bind, lift_outcome, file_write, ret.
      destruct (decode_utf8 (stderr p)) as [text|e]; intros H; injection H as _ <-;
        intros q' Hq'; [|now apply Hrest].
      cbn [w_fs with_fs]. unfold Fs.write.
      destruct (w_fs w2 q) as [[o|]|]; try (now apply Hrest).
      rewrite set_other by exact Hq'. now apply Hrest.
    + unfold write_error_log.
      rewrite (@bind_step _ _ (os_path_exists (error_msg_file n)) _ w w true).
      * unfold bind, os_remove, lift_fs, Fs.remove. rewrite Hres, El.
        intros H. now injection H as _ <-.
      * unfold os_path_exists, Fs.exists_. now rewrite Hres, El.
    + destruct (write_error_log_opened n p w Hres) as (w2 & _ & Hrest & _ & ->).
      { rewrite El. discriminate. }
      unfold bind, lift_outcome, file_write, ret.
      destruct (decode_utf8 (stderr p)) as [text|e]; intros H; injection H as _ <-;
        intros q' Hq'; [|now apply Hrest].
      cbn [w_fs with_fs]. unfold Fs.write.
      destruct (w_fs w2 q) as [[o|]|]; try (now apply Hrest).
      rewrite set_other by exact Hq'. now apply Hrest.
  - unfold write_error_log.
    rewrite (@bind_step _ _ (os_path_exists (error_msg_file n)) _ w w false).
    + unfold bind at 1. unfold ret at 1. unfold bind, open_w, Fs.open_w.
      rewrite Hres. intros H. now injection H as _ <-.
    + unfold os_path_exists, Fs.exists_. now rewrite Hres.
Qed.

(** X14. [run_specimin] itself writes to one place at most: whatever the
    outcome, every path other than the one the error-log name resolves to
    is as the process left it, and when that name does not resolve the
    whole file system is. *)
Theorem run_specimin_writes_only_log (n cmd dir : string) (w : world) :
  match Fs.resolve (snd (sys (specimin_call cmd dir) (w_fs w))) (cwd_path w)
                   (error_msg_file n) with
  | Ok q =>
      forall q', q' <> q ->
        w_fs (snd (run_specimin sys n cmd dir w)) q'
        = snd (sys (specimin_call cmd dir) (w_fs w)) q'
  | Raise _ =>
      w_fs (snd (run_specimin sys n cmd dir w))
      = snd (sys (specimin_call cmd dir) (w_fs w))
  end.
Proof.
  rewrite run_specimin_eq.
  set (w1 := after_call sys (specimin_call cmd dir) w).
  change (snd (sys (specimin_call cmd dir) (w_fs w))) with (w_fs w1).
  change (cwd_path w) with (cwd_path w1).
  assert (Hsame : match Fs.resolve (w_fs w1) (cwd_path w1) (error_msg_file n) with
                  | Ok q => forall q', q' <> q -> w_fs w1 q' = w_fs w1 q'
                  | Raise _ => w_fs w1 = w_fs w1
                  end) by (destruct (Fs.resolve _ _ _); auto).
  destruct (fst (sys _ (w_fs w))) as [p|e].
  - destruct (returncode p =? 0); [exact Hsame|].
    destruct (write_error_log n p w1) as [[r|e] w2] eqn:E;
      apply write_error_log_confined in E.
    + exact E.
    + destruct (run_specimin_except_eq n e w2) as [r ->]. exact E.
  - destruct (run_specimin_except_eq n e w1) as [r ->]. exact Hsame.
Qed.

End ExecutionMore.

(** ** More on the orchestrator *)

Section EvaluationMore.
Import PyStr OsPath Spec.

Variable sys : oracle.

Lemma git_steps_refl (w : world) : git_steps w w.
Proof. split; [reflexivity|]. exists []. now rewrite app_nil_r. Qed.

Lemma git_steps_trans (w1 w2 w3 : world) :
  git_steps w1 w2 -> git_steps w2 w3 -> git_steps w1 w3.
Proof.
  intros [Hc1 (cs1 & H1 & G1)] [Hc2 (cs2 & H2 & G2)]. split; [congruence|].
  exists (cs1 ++ cs2)%list. rewrite H2, H1, app_assoc, forallb_app, G1, G2. auto.
Qed.

Lemma git_only_quiet {A} (m : M A) : quiet m -> git_only m.
Proof.
  intros Hq w r w' H. destruct (Hq _ _ _ H) as (Hc & Hl & _).
  split; [exact Hc|]. exists []. now rewrite app_nil_r.
Qed.

Lemma git_only_bind {A B} (m : M A) (k : A -> M B) :
  git_only m -> (forall a, git_only (k a)) -> git_only (bind m k).
Proof.
  intros Hm Hk w r w'. unfold bind. destruct (m w) as [[a|e] w1] eqn:E.
  - intros H. eapply git_steps_trans; [eapply Hm | eapply Hk]; eauto.
  - intros H. injection H as _ <-. eapply Hm; eauto.
Qed.

Lemma git_only_ret {A} (a : A) : git_only (ret a).
Proof. apply git_only_quiet, quiet_ret. Qed.

Lemma git_only_print (line : string) : git_only (print line).
Proof.
  intros w r w' H. injection H as _ <-. split; [reflexivity|].
  exists []. now rewrite app_nil_r.
Qed.

Lemma git_only_subprocess (c : call) :
  is_git_call c = true -> git_only (subprocess_run sys c).
Proof.
  intros Hc w r w'. rewrite subprocess_run_eq. intros H. injection H as _ <-.
  split; [reflexivity|]. exists [c]. cbn. now rewrite Hc.
Qed.

Lemma quiet_isdir (nm : string) : quiet (os_path_isdir nm).
Proof. intros w r w' H. injection H as _ <-. auto. Qed.

Lemma quiet_is_git_directory (dir : string) : quiet (is_git_directory dir).
Proof.
  unfold is_git_directory.
  apply quiet_bind; [apply quiet_exists|]. intros e.
  apply quiet_bind; [apply quiet_isdir|]. intros d. apply quiet_ret.
Qed.

Lemma quiet_create_issue_directory (c i : string) : quiet (create_issue_directory c i).
Proof.
  unfold create_issue_directory, os_makedirs, shutil_rmtree.
  apply quiet_bind; [apply quiet_lift_fs|]. intros _.
  apply quiet_bind; [apply quiet_lift_fs|]. intros _.
  apply quiet_bind; [apply quiet_exists|]. intros present.
  apply quiet_bind.
  { destruct present; [apply quiet_lift_fs | apply quiet_ret]. }
  intros _. apply quiet_bind; [apply quiet_lift_fs|]. intros _. apply quiet_ret.
Qed.

Lemma git_only_clone_repository (u directory : string) :
  git_only (clone_repository sys u directory).
Proof.
  unfold clone_repository.
  apply git_only_bind; [apply git_only_quiet, quiet_exists|]. intros present.
  destruct present; [apply git_only_print|].
  apply git_only_bind; [now apply git_only_subprocess|]. intros _. apply git_only_ret.
Qed.

Lemma git_only_change_branch (b directory : string) :
  git_only (change_branch sys b directory).
Proof.
  unfold change_branch.
  apply git_only_bind; [apply git_only_quiet, quiet_is_git_directory|]. intros git.
  destruct git; cbn [negb].
  - apply git_only_bind; [now apply git_only_subprocess|]. intros _. apply git_only_ret.
  - intros w r w' H. injection H as _ <-. apply git_steps_refl.
Qed.

Lemma git_only_checkout_commit (c directory : string) :
  git_only (checkout_commit sys c directory).
Proof.
  unfold checkout_commit.
  apply git_only_bind; [apply git_only_quiet, quiet_is_git_directory|]. intros git.
  destruct git; cbn [negb].
  - apply git_only_bind; [now apply git_only_subprocess|]. intros result.
    apply git_only_bind; [|intros _; apply git_only_ret].
    destruct (returncode result =? 0); apply git_only_print.
  - intros w r w' H. injection H as _ <-. apply git_steps_refl.
Qed.

(** The steps of [performEvaluation] before the command is built. *)
Lemma git_only_branch_step (i : issue) (input_dir : string) :
  git_only (if nonempty (branch i)
            then change_branch sys (branch i)
                   (input_dir ++ "/" ++ get_repository_name (url i))
            else ret tt).
Proof. destruct (nonempty (branch i)); [apply git_only_change_branch | apply git_only_ret]. Qed.

Lemma git_only_commit_step (i : issue) (input_dir : string) :
  git_only (if nonempty (commit_hash i)
            then (checkout_commit sys (commit_hash i)
                    (input_dir ++ "/" ++ get_repository_name (url i)) ;; ret tt)
            else ret tt).
Proof.
  destruct (nonempty (commit_hash i)); [|apply git_only_ret].
  apply git_only_bind; [apply git_only_checkout_commit|]. intros _. apply git_only_ret.
Qed.

Lemma performEvaluation_ok (i : issue) (w w' : world) (r : Result) :
  performEvaluation sys i w = (Ok r, w') ->
  name r = issue_id i
  /\ (status r = "PASS" \/ status r = "FAIL")
  /\ (exists cs command,
        forallb is_git_call cs = true
        /\ build_specimin_command (w_cwd w) (get_repository_name (url i))
             (join issue_folder_dir (issue_id i))
             (join issue_folder_dir specimin_project_name)
             (root_dir i) (targets i) = Ok command
        /\ w_calls w'
           = (w_calls w ++ cs ++ [Call (Shell command) "ISSUES/specimin" (Some 300)])%list)
  /\ (exists out, w_stdout w' = (out ++ [(issue_id i ++ " - " ++ status r)%string])%list)
  /\ w_cwd w' = w_cwd w.
Proof.
  unfold performEvaluation. intros H.
  apply bind_ok in H as (input_dir & w1 & H1 & H).
  apply bind_ok in H as (u1 & w2 & H2 & H).
  apply bind_ok in H as (u2 & w3 & H3 & H).
  apply bind_ok in H as (u3 & w4 & H4 & H).
  apply bind_ok in H as (cwd & w5 & H5 & H).
  apply bind_ok in H as (command & w6 & H6 & H).
  apply bind_ok in H as (result & w7 & Hrun & H).
  apply bind_ok in H as (u4 & w8 & Hp & H).
  unfold ret in H. injection H as <- <-.
  apply (git_only_quiet (quiet_create_issue_directory _ _)) in H1.
  apply git_only_clone_repository in H2.
  apply git_only_branch_step in H3.
  apply git_only_commit_step in H4.
  pose proof (git_steps_trans (git_steps_trans (git_steps_trans H1 H2) H3) H4)
    as [Hcwd (cs & Hcs & Hg)].
  unfold getcwd in H5. injection H5 as <- <-.
  unfold lift_outcome in H6.
  destruct (build_specimin_command _ _ _ _ _ _) as [c|e] eqn:Hb; [|discriminate].
  injection H6 as <- <-.
  destruct (run_specimin_returns sys (issue_id i) c
              (join issue_folder_dir specimin_project_name) w4)
    as (r0 & w0 & Hrun0 & Hname & Hstatus).
  pose proof (run_specimin_trace sys (issue_id i) c
                (join issue_folder_dir specimin_project_name) w4) as (Tc & To & Td).
  rewrite Hrun in Hrun0. injection Hrun0 as <- <-.
  rewrite Hrun in Tc, To, Td. cbn [snd] in Tc, To, Td.
  unfold print in Hp. injection Hp as _ <-. cbn [w_calls w_stdout w_cwd].
  split; [exact Hname|]. split; [exact Hstatus|]. split; [|split].
  - exists cs, c. split; [exact Hg|]. split.
    + rewrite <- Hcwd. exact Hb.
    + rewrite Tc, Hcs, <- app_assoc. reflexivity.
  - eexists. rewrite Hname. reflexivity.
  - congruence.
Qed.

Lemma performEvaluation_raise (i : issue) (w w' : world) (e : exn) :
  performEvaluation sys i w = (Raise e, w') ->
  exists cs,
    w_calls w' = (w_calls w ++ cs)%list /\ forallb is_git_call cs = true.
Proof.
  unfold performEvaluation. intros H.
  assert (G : git_steps w w'); [|exact (proj2 G)].
  apply bind_raise in H as [H | (input_dir & w1 & H1 & H)].
  { now apply (git_only_quiet (quiet_create_issue_directory _ _)) in H. }
  apply (git_only_quiet (quiet_create_issue_directory _ _)) in H1.
  apply (git_steps_trans H1). clear H1.
  apply bind_raise in H as [H | (u1 & w2 & H2 & H)].
  { now apply git_only_clone_repository in H. }
  apply git_only_clone_repository in H2.
  apply (git_steps_trans H2). clear H2.
  apply bind_raise in H as [H | (u2 & w3 & H3 & H)].
  { now apply git_only_branch_step in H. }
  apply git_only_branch_step in H3.
  apply (git_steps_trans H3). clear H3.
  apply bind_raise in H as [H | (u3 & w4 & H4 & H)].
  { now apply git_only_commit_step in H. }
  apply git_only_commit_step in H4.
  apply (git_steps_trans H4). clear H4.
  apply bind_raise in H as [H | (cwd & w5 & H5 & H)]; [discriminate|].
  unfold getcwd in H5. injection H5 as <- <-.
  apply bind_raise in H as [H | (command & w6 & H6 & H)].
  { unfold lift_outcome in H. injection H as _ <-. apply git_steps_refl. }
  unfold lift_outcome in H6. injection H6 as _ <-.
  apply bind_raise in H as [H | (result & w7 & _ & H)].
  { destruct (run_specimin_returns sys (issue_id i) command
                (join issue_folder_dir specimin_project_name) w4)
      as (r0 & w0 & Hrun0 & _). rewrite Hrun0 in H. discriminate. }
  apply bind_raise in H as [H | (u4 & w8 & _ & H)]; discriminate.
Qed.

(** X15. When [performEvaluation] returns, the result carries the issue
    identifier and the status [PASS] or [FAIL]; the processes it started
    are calls of git followed, last, by the run of the command synthesised
    for the issue, in [ISSUES/specimin] with the timeout of 300; and the
    last line printed is the identifier and the status. *)
Theorem performEvaluation_returns (i : issue) (w : world) (r : Result) :
  fst (performEvaluation sys i w) = Ok r ->
  name r = issue_id i
  /\ (status r = "PASS" \/ status r = "FAIL")
  /\ (exists cs command,
        forallb is_git_call cs = true
        /\ build_specimin_command (w_cwd w) (get_repository_name (url i))
             (join issue_folder_dir (issue_id i))
             (join issue_folder_dir specimin_project_name)
             (root_dir i) (targets i) = Ok command
        /\ w_calls (snd (performEvaluation sys i w))
           = (w_calls w ++ cs ++ [Call (Shell command) "ISSUES/specimin" (Some 300)])%list)
  /\ (exists out,
        w_stdout (snd (performEvaluation sys i w))
        = (out ++ [(issue_id i ++ " - " ++ status r)%string])%list)
  /\ w_cwd (snd (performEvaluation sys i w)) = w_cwd w.
Proof.
  destruct (performEvaluation sys i w) as [o w'] eqn:H. cbn [fst snd].
  intros ->. now apply performEvaluation_ok.
Qed.

(** X16. When [performEvaluation] raises, the minimiser was not started:
    the exception comes from the layout, the clone or the checkouts, and
    the processes started on the way are calls of git only. *)
Theorem performEvaluation_raises_before_run (i : issue) (w : world) (e : exn) :
  fst (performEvaluation sys i w) = Raise e ->
  exists cs,
    w_calls (snd (performEvaluation sys i w)) = (w_calls w ++ cs)%list
    /\ forallb is_git_call cs = true.
Proof.
  destruct (performEvaluation sys i w) as [o w'] eqn:H. cbn [fst snd].
  intros ->. now apply performEvaluation_raise in H.
Qed.

End EvaluationMore.

(** ** More on the batch loop and the report *)

Section BatchMore.
Import PyStr OsPath Spec.

Variable sys : oracle.
Variable generateTable : list Result -> M unit.

Lemma print_listing_eq (results : list Result) :
  forall case w,
    print_listing results case w
    = (Ok tt, World (w_fs w) (w_cwd w) (w_calls w)
                    (w_stdout w ++ listing_rows case results)).
Proof.
  induction results as [|r results IH]; intros case w; cbn [print_listing listing_rows].
  - unfold ret. rewrite app_nil_r. now destruct w.
  - unfold bind, print. rewrite IH. cbn [w_fs w_cwd w_calls w_stdout].
    now rewrite <- app_assoc.
Qed.

(** X17. The console listing never fails and touches nothing but the
    console: it prints one row per result, in order, numbered from the
    given case number upwards. *)
Theorem print_listing_rows (results : list Result) (case : nat) (w : world) :
  print_listing results case w
  = (Ok tt, World (w_fs w) (w_cwd w) (w_calls w)
                  (w_stdout w ++ listing_rows case results))
  /\ List.length (listing_rows case results) = List.length results
  /\ forall k r,
       nth_error results k = Some r ->
       nth_error (listing_rows case results) k = Some (listing_row (case + k) r).
Proof.
  split; [apply print_listing_eq|]. split.
  - revert case. induction results as [|r results IH]; intros case; cbn; auto.
  - revert case. induction results as [|r0 results IH]; intros case [|k] r; cbn;
      try discriminate.
    + intros H. injection H as <-. now rewrite Nat.add_0_r.
    + intros H. rewrite (IH (S case) k r H). now rewrite Nat.add_succ_r.
Qed.

(** The loop over a corpus in two parts. *)
Lemma evaluate_issues_app (l1 l2 : list issue) :
  forall acc w,
    evaluate_issues sys (l1 ++ l2) acc w
    = match evaluate_issues sys l1 acc w with
      | (Ok acc1, w1) => evaluate_issues sys l2 acc1 w1
      | (Raise e, w1) => (Raise e, w1)
      end.
Proof.
  induction l1 as [|i l1 IH]; intros acc w; cbn [app evaluate_issues]; [reflexivity|].
  destruct (negb (String.eqb (issue_id i) "cf-6282")); [apply IH|].
  unfold bind. destruct (performEvaluation sys i w) as [[r|e] w1]; [apply IH | reflexivity].
Qed.

(** X18. An evaluation that raises ends the batch: once the issues before
    it are done, the loop raises the same exception in the state that
    evaluation left, the results gathered so far are dropped and no later
    issue is looked at. *)
Theorem evaluate_issues_aborts (before rest : list issue) (i : issue)
        (acc acc1 : list Result) (w : world) (e : exn) :
  fst (evaluate_issues sys before acc w) = Ok acc1 ->
  String.eqb (issue_id i) "cf-6282" = true ->
  fst (performEvaluation sys i (snd (evaluate_issues sys before acc w))) = Raise e ->
  evaluate_issues sys (before ++ i :: rest) acc w
  = (Raise e, snd (performEvaluation sys i (snd (evaluate_issues sys before acc w)))).
Proof.
  intros Hb Hi He. rewrite evaluate_issues_app.
  destruct (evaluate_issues sys before acc w) as [o w1]. cbn [fst snd] in *. subst o.
  cbn [evaluate_issues]. rewrite Hi. cbn [negb]. unfold bind.
  destruct (performEvaluation sys i w1) as [o w2]. cbn [fst snd] in *. now subst o.
Qed.

(** X19. When [main] returns, the console ends with the three header lines
    followed by one row per returned result, numbered from 1. *)
Theorem main_listing (parsed_data : option (list issue)) (w : world)
        (results : list Result) :
  fst (main sys generateTable parsed_data w) = Ok results ->
  exists out,
    w_stdout (snd (main sys generateTable parsed_data w))
    = (out ++ listing_header ++ listing_rows 1 results)%list.
Proof.
  rewrite (main_eq sys generateTable parsed_data). intros H.
  match type of H with fst (?m w) = _ => destruct (m w) as [o w'] eqn:E end.
  cbn [fst] in H. subst o. cbn [snd].
  apply bind_ok in E as (u & w1 & _ & H).
  apply bind_ok in H as (u' & w2 & _ & H).
  apply bind_ok in H as (rs & w3' & _ & H).
  apply bind_ok in H as (u0 & w3 & _ & H).
  apply bind_ok in H as (u1 & w4 & H1 & H).
  apply bind_ok in H as (u2 & w5 & H2 & H).
  apply bind_ok in H as (u3 & w6 & H3 & H).
  apply bind_ok in H as (u4 & w7 & H4 & H).
  unfold ret in H. injection H as <- <-.
  rewrite print_listing_eq in H4. injection H4 as _ <-.
  unfold print in H1, H2, H3.
  injection H3 as _ <-. injection H2 as _ <-. injection H1 as _ <-.
  cbn [w_stdout]. exists (w_stdout w3).
  unfold listing_header. rewrite <- !app_assoc. reflexivity.
Qed.

(** What [main] does once the loop has returned no result: the report
    generator gets the empty list, and when it returns the header of the
    listing is printed. *)
Lemma report_of_nothing (w : world) :
  (generateTable [] ;;
   print (newline ++ newline ++ newline ++ newline) ;;
   print "issue_name    |    status    |    reason" ;;
   print "--------------------------------------------" ;;
   print_listing [] 1 ;;
   ret ([] : list Result)) w
  = match generateTable [] w with
    | (Ok _, w3) =>
        (Ok [], World (w_fs w3) (w_cwd w3) (w_calls w3)
                      (w_stdout w3 ++ listing_header))
    | (Raise e, w3) => (Raise e, w3)
    end.
Proof.
  unfold bind at 1. destruct (generateTable [] w) as [[u|e] w3]; [|reflexivity].
  unfold bind, ret, print. cbn [snd print_listing]. unfold ret.
  cbn [w_fs w_cwd w_calls w_stdout]. unfold listing_header.
  rewrite <- !app_assoc. reflexivity.
Qed.


End BatchMore.

(** ** The corpus file and the whole script *)

Section CorpusFacts.
Import PyStr OsPath Spec.

Lemma walk_raise_class (fs : FS) (nm : string) (comps : list string) :
  forall cur e,
    Fs.walk fs nm cur comps = Raise e ->
    exn_class e = NotADirectoryError \/ exn_class e = FileNotFoundError.
Proof.
  induction comps as [|c comps IH]; intros cur e; cbn [Fs.walk]; [discriminate|].
  destruct (Fs.lookup fs cur) as [[old|]|]; [| apply IH |];
    intros H; injection H as <-; cbn; auto.
Qed.

Lemma fs_read_raise_class (fs : FS) (cwd : path) (nm : string) (e : exn) :
  fs_read fs cwd nm = Raise e ->
  exn_class e = NotADirectoryError \/ exn_class e = FileNotFoundError
  \/ exn_class e = IsADirectoryError.
Proof.
  unfold fs_read, Fs.resolve. destruct (negb (nonempty nm)).
  - intros H. injection H as <-. cbn. auto.
  - destruct (Fs.walk fs nm (Fs.start_of cwd nm) (split "/" nm)) as [q|e0] eqn:E.
    + destruct (Fs.lookup fs q) as [[c|]|]; try discriminate;
        intros H; injection H as <-; cbn; auto.
    + intros H. injection H as <-. apply walk_raise_class in E. tauto.
Qed.

Variable A : Type.
Variable json_load : string -> outcome A.

Lemma read_json_from_file_eq (file_path : string) (w : world) :
  read_json_from_file json_load file_path w
  = match open_and_load json_load file_path w with
    | Ok json_data => (Ok (Some json_data), w)
    | Raise e =>
        if is_json_decode_error e
        then (Ok None, snd (print ("Error decoding JSON: " ++ exn_str e) w))
        else if is_file_not_found e
        then (Ok None, snd (print ("File not found: " ++ file_path) w))
        else (Raise e, w)
    end.
Proof.
  unfold read_json_from_file, open_and_load, try_except, bind, open_r, lift_outcome.
  destruct (fs_read (w_fs w) (cwd_path w) file_path) as [content|e].
  - destruct (json_load content) as [d|e]; [reflexivity|].
    destruct (is_json_decode_error e); [reflexivity|].
    destruct (is_file_not_found e); reflexivity.
  - destruct (is_json_decode_error e); [reflexivity|].
    destruct (is_file_not_found e); reflexivity.
Qed.

(** X21. [read_json_from_file] returns the parsed data exactly when the
    file could be opened, read and parsed.  Of the exceptions raised on the
    way it catches [JSONDecodeError] and [FileNotFoundError] and nothing
    else: every other one (a path that is a directory, bytes that are no
    text) is raised to the caller unchanged.  Whatever happens, the file
    system, the processes started and the working directory are as before,
    and the console gets one line when [None] is returned and none
    otherwise. *)
Theorem read_json_from_file_outcome (file_path : string) (w : world) :
  let attempt := open_and_load json_load file_path w in
  let done := read_json_from_file json_load file_path w in
  (forall json_data, fst done = Ok (Some json_data) <-> attempt = Ok json_data)
  /\ (forall e,
        fst done = Raise e
        <-> attempt = Raise e
            /\ exn_class e <> JSONDecodeError /\ exn_class e <> FileNotFoundError)
  /\ (fst done = Ok None
      <-> exists e, attempt = Raise e
                    /\ (exn_class e = JSONDecodeError
                        \/ exn_class e = FileNotFoundError))
  /\ w_fs (snd done) = w_fs w
  /\ w_calls (snd done) = w_calls w
  /\ w_cwd (snd done) = w_cwd w
  /\ (if match fst done with Ok None => true | _ => false end
      then exists line, w_stdout (snd done) = (w_stdout w ++ [line])%list
      else w_stdout (snd done) = w_stdout w).
Proof.
  cbn zeta. rewrite read_json_from_file_eq.
  destruct (open_and_load json_load file_path w) as [d|e0].
  - cbn [fst snd]. repeat split; try discriminate; try congruence.
    + intros (H & _). discriminate.
    + intros (x & H & _). discriminate.
  - unfold is_json_decode_error, is_file_not_found.
    destruct (exn_class e0) eqn:Ec; cbn [fst snd print w_fs w_calls w_cwd w_stdout];
      repeat split; try discriminate; try congruence; eauto;
      try (intros (H & H1 & H2); injection H as <-; congruence);
      try (intros (x & H & [H1 | H1]); injection H as <-; congruence).
Qed.

End CorpusFacts.

Section WholeScriptFacts.
Import PyStr OsPath Spec.

Variable sys : oracle.
Variable generateTable : list Result -> M unit.
Variable json_load : string -> outcome (list issue).

(** The set-up of [main], the reading of the corpus, and the rest. *)
Lemma main_script_eq (w : world) :
  main_script sys generateTable json_load w
  = match (os_makedirs issue_folder_dir ;;
           clone_specimin sys issue_folder_dir specimin_source_url) w with
    | (Ok _, w2) =>
        match read_json_from_file json_load json_file_path w2 with
        | (Ok parsed_data, w3) =>
            (evaluation_results <- evaluate_issues sys (corpus parsed_data) [] ;;
             generateTable evaluation_results ;;
             print (newline ++ newline ++ newline ++ newline) ;;
             print "issue_name    |    status    |    reason" ;;
             print "--------------------------------------------" ;;
             print_listing evaluation_results 1 ;;
             ret evaluation_results) w3
        | (Raise e, w3) => (Raise e, w3)
        end
    | (Raise e, w2) => (Raise e, w2)
    end.
Proof.
  unfold main_script. unfold bind at 1 2 3. unfold bind at 7.
  destruct (os_makedirs issue_folder_dir w) as [[u|e] w1]; [|reflexivity].
  destruct (clone_specimin sys issue_folder_dir specimin_source_url w1)
    as [[u'|e] w2]; [|reflexivity].
  destruct (read_json_from_file json_load json_file_path w2) as [[pd|e] w3];
    [|reflexivity].
  destruct pd as [[|i l]|]; reflexivity.
Qed.

(** X22. A corpus file that cannot be read as the script expects stops the
    script: when, after the set-up, opening or parsing the file raises an
    exception other than [JSONDecodeError] and [FileNotFoundError] (a
    directory in its place, bytes that are no text), [main] raises it in
    the state the set-up left; no issue is evaluated, the report generator
    is not called and nothing more is printed. *)
Theorem main_script_unreadable_corpus (w : world) (e : exn) :
  fst ((os_makedirs issue_folder_dir ;;
        clone_specimin sys issue_folder_dir specimin_source_url) w) = Ok tt ->
  let w2 := snd ((os_makedirs issue_folder_dir ;;
                  clone_specimin sys issue_folder_dir specimin_source_url) w) in
  open_and_load json_load json_file_path w2 = Raise e ->
  exn_class e <> JSONDecodeError ->
  exn_class e <> FileNotFoundError ->
  main_script sys generateTable json_load w = (Raise e, w2).
Proof.
  intros Hs w2 Hr Hj Hf. subst w2. rewrite main_script_eq.
  destruct ((os_makedirs issue_folder_dir ;;
             clone_specimin sys issue_folder_dir specimin_source_url) w)
    as [[u|e0] w2]; [|discriminate].
  cbn [snd] in *. rewrite read_json_from_file_eq, Hr.
  unfold is_json_decode_error, is_file_not_found.
  destruct (exn_class e); try reflexivity; contradiction.
Qed.

(** X24. A missing corpus file does not stop the script: after the set-up
    it prints [File not found: resources/test_data.json], evaluates
    nothing, and hands the empty list to the report generator; when the
    generator returns, the header of the listing is printed and no result
    is returned. *)
Theorem main_script_missing_corpus (w : world) (e : exn) :
  fst ((os_makedirs issue_folder_dir ;;
        clone_specimin sys issue_folder_dir specimin_source_url) w) = Ok tt ->
  let w2 := snd ((os_makedirs issue_folder_dir ;;
                  clone_specimin sys issue_folder_dir specimin_source_url) w) in
  fs_read (w_fs w2) (cwd_path w2) json_file_path = Raise e ->
  exn_class e = FileNotFoundError ->
  main_script sys generateTable json_load w
  = match generateTable []
            (World (w_fs w2) (w_cwd w2) (w_calls w2)
                   (w_stdout w2 ++ ["File not found: resources/test_data.json"]))
    with
    | (Ok _, w3) =>
        (Ok [], World (w_fs w3) (w_cwd w3) (w_calls w3)
                      (w_stdout w3 ++ listing_header))
    | (Raise e', w3) => (Raise e', w3)
    end.
Proof.
  intros Hs w2 Hr Hc. subst w2. rewrite main_script_eq.
  destruct ((os_makedirs issue_folder_dir ;;
             clone_specimin sys issue_folder_dir specimin_source_url) w)
    as [[u|e0] w2]; [|discriminate].
  cbn [snd] in *. rewrite read_json_from_file_eq.
  unfold open_and_load. rewrite Hr.
  unfold is_json_decode_error, is_file_not_found. rewrite Hc.
  cbn [corpus]. unfold bind at 1. cbn [evaluate_issues]. unfold ret at 1.
  rewrite (report_of_nothing generateTable). reflexivity.
Qed.

End WholeScriptFacts.

(** ** The paths of the command in the orchestrator *)

Section RelativePaths.
Import PyStr OsPath Spec.

Lemma plain_parts (s : string) :
  plain s = true ->
  nonempty s = true /\ has_char sep_char s = false
  /\ String.eqb s "." = false /\ String.eqb s ".." = false.
Proof.
  unfold plain. intros H.
  apply andb_true_iff in H as [H H4]. apply andb_true_iff in H as [H H3].
  apply andb_true_iff in H as [H1 H2].
  apply negb_true_iff in H2, H3, H4. auto.
Qed.

Lemma split_no_sep (c : ascii) (s : string) :
  has_char c s = false -> split c s = [s].
Proof.
  induction s as [|a s IH]; cbn [has_char split]; [reflexivity|].
  intros H. apply orb_false_iff in H as [Ha Hs]. rewrite Ha, (IH Hs). reflexivity.
Qed.

Lemma split_join_with (l : list string) :
  l <> [] -> forallb plain l = true -> split sep_char (join_with sep l) = l.
Proof.
  induction l as [|x l IH]; [contradiction|]. intros _ H.
  cbn [forallb] in H. apply andb_true_iff in H as [Hx Hl].
  apply plain_parts in Hx as (_ & Hx & _).
  destruct l as [|y l].
  - now apply split_no_sep.
  - change (join_with sep (x :: y :: l))
      with (x ++ String sep_char (join_with sep (y :: l))).
    rewrite split_app_sep, IH by (discriminate || exact Hl).
    now rewrite (@split_no_sep sep_char x Hx).
Qed.

Lemma join_with_app (sp : string) (l1 l2 : list string) :
  l1 <> [] -> l2 <> [] ->
  join_with sp (l1 ++ l2) = join_with sp l1 ++ sp ++ join_with sp l2.
Proof.
  induction l1 as [|x l1 IH]; [contradiction|]. intros _ H2.
  destruct l1 as [|y l1].
  - cbn [app join_with]. destruct l2; [contradiction | reflexivity].
  - change ((x :: y :: l1) ++ l2)%list with (x :: ((y :: l1) ++ l2))%list.
    change (join_with sp (x :: (y :: l1) ++ l2))
      with (x ++ sp ++ join_with sp ((y :: l1) ++ l2)).
    rewrite IH by (discriminate || assumption).
    change (join_with sp (x :: y :: l1)) with (x ++ sp ++ join_with sp (y :: l1)).
    now rewrite !append_assoc.
Qed.

Lemma endswith_no_char (c : ascii) (s : string) :
  has_char c s = false -> endswith_char c s = false.
Proof.
  unfold endswith_char. induction s as [|a s IH]; [reflexivity|].
  cbn [has_char last_char]. intros H. apply orb_false_iff in H as [Ha Hs].
  destruct s; [exact Ha | now apply IH].
Qed.

Lemma join_with_end (l : list string) :
  l <> [] -> forallb plain l = true ->
  nonempty (join_with sep l) = true
  /\ endswith_char sep_char (join_with sep l) = false
  /\ startswith_char sep_char (join_with sep l) = false.
Proof.
  induction l as [|x l IH]; [contradiction|]. intros _ H.
  cbn [forallb] in H. apply andb_true_iff in H as [Hx Hl].
  apply plain_parts in Hx as (Hn & Hx & _).
  assert (Hst : startswith_char sep_char x = false).
  { destruct x as [|a x]; [discriminate|]. cbn in Hx |- *.
    now apply orb_false_iff in Hx as [Ha _]. }
  destruct l as [|y l]; cbn [join_with].
  - split; [exact Hn|]. split; [now apply endswith_no_char | exact Hst].
  - destruct IH as (Hn' & He' & _); [discriminate | exact Hl |].
    split; [|split].
    + destruct x; [discriminate | reflexivity].
    + rewrite <- append_assoc. rewrite endswith_char_app by exact Hn'. exact He'.
    + destruct x; [discriminate | exact Hst].
Qed.

Lemma normpath_step_plain (k : nat) (l : list string) :
  forallb plain l = true ->
  forall acc, fold_left (normpath_step k) l acc = (acc ++ l)%list.
Proof.
  induction l as [|x l IH]; intros H acc; cbn [fold_left]; [now rewrite app_nil_r|].
  cbn [forallb] in H. apply andb_true_iff in H as [Hx Hl].
  apply plain_parts in Hx as (Hn & _ & Hd & Hdd).
  unfold normpath_step at 2. unfold curdir, pardir. rewrite Hd, Hdd.
  replace (String.eqb x EmptyString) with false by (destruct x; [discriminate | reflexivity]).
  cbn [orb negb]. rewrite (IH Hl), <- app_assoc. reflexivity.
Qed.

(** An absolute path of plain components is in normal form and splits back
    into its components. *)
Lemma split_rooted (l : list string) :
  l <> [] -> forallb plain l = true ->
  split sep_char ("/" ++ join_with sep l) = EmptyString :: l.
Proof.
  intros Hne Hl. rewrite <- (split_join_with Hne Hl) at 2. reflexivity.
Qed.

Lemma normpath_plain (l : list string) :
  l <> [] -> forallb plain l = true ->
  normpath ("/" ++ join_with sep l) = "/" ++ join_with sep l.
Proof.
  intros Hne Hl. destruct (join_with_end Hne Hl) as (Hn & _ & Hs).
  pose proof (split_rooted Hne Hl) as Hsp.
  assert (H2 : String.eqb (take 2 ("/" ++ join_with sep l)) "//" = false).
  { destruct (join_with sep l) as [|a r]; [discriminate|].
    cbn [startswith_char] in Hs. cbn [append take String.eqb].
    rewrite Ascii.eqb_refl. unfold sep_char in Hs. now rewrite Hs. }
  remember ("/" ++ join_with sep l) as P eqn:EP.
  assert (H0 : nonempty P = true) by (subst P; reflexivity).
  assert (H1 : startswith_char sep_char P = true) by (subst P; reflexivity).
  unfold normpath. rewrite H0, H1, H2, Hsp. cbn [negb andb fold_left].
  change (normpath_step 1 [] EmptyString) with (@nil string).
  rewrite !(normpath_step_plain 1 l Hl []). cbn [app].
  change (String.concat EmptyString (repeat sep 1)) with "/".
  rewrite <- EP, H0. reflexivity.
Qed.

Lemma components_plain (l : list string) :
  l <> [] -> forallb plain l = true ->
  filter nonempty (split sep_char ("/" ++ join_with sep l)) = l.
Proof.
  intros Hne Hl. rewrite (split_rooted Hne Hl). cbn [filter nonempty].
  clear Hne. induction l as [|x l IH]; [reflexivity|].
  cbn [forallb] in Hl. apply andb_true_iff in Hl as [Hx Hl].
  apply plain_parts in Hx as (Hn & _). cbn [filter]. now rewrite Hn, (IH Hl).
Qed.

Lemma join_rooted (cs l2 : list string) :
  forallb plain cs = true -> l2 <> [] ->
  startswith_char sep_char (join_with sep l2) = false ->
  join ("/" ++ join_with sep cs) (join_with sep l2)
  = "/" ++ join_with sep (cs ++ l2).
Proof.
  intros Hcs Hl2 Hst. unfold join. rewrite Hst.
  destruct cs as [|c cs].
  - reflexivity.
  - destruct (join_with_end (l := c :: cs)) as (Hn' & He' & _);
      [discriminate | exact Hcs |].
    rewrite endswith_char_app by exact Hn'. rewrite He'.
    rewrite join_with_app by (discriminate || exact Hl2).
    cbn [append nonempty negb orb]. rewrite ?append_assoc. reflexivity.
Qed.

(** The absolute path of [ISSUES/x] in a working directory of plain
    components. *)
Lemma abspath_in_issues (cs : list string) (x : string) :
  forallb plain cs = true -> plain x = true ->
  abspath ("/" ++ join_with sep cs) (join issue_folder_dir x)
  = "/" ++ join_with sep (cs ++ [issue_folder_dir; x]).
Proof.
  intros Hcs Hx. pose proof (plain_parts _ Hx) as (Hn & Hsl & _).
  assert (Hst : startswith_char sep_char x = false).
  { destruct x as [|a x]; [discriminate|]. cbn in Hsl |- *.
    now apply orb_false_iff in Hsl as [Ha _]. }
  assert (Hj : join issue_folder_dir x = join_with sep [issue_folder_dir; x]).
  { unfold join. now rewrite Hst. }
  assert (Hall : forallb plain (cs ++ [issue_folder_dir; x]) = true).
  { rewrite forallb_app, Hcs. cbn. now rewrite Hx. }
  unfold abspath, isabs. rewrite Hj.
  replace (startswith_char sep_char (join_with sep [issue_folder_dir; x])) with false
    by reflexivity.
  rewrite join_rooted by (assumption || discriminate || reflexivity).
  apply normpath_plain; [destruct cs; discriminate | exact Hall].
Qed.

Lemma common_prefix_len_app (l a b : list string) :
  common_prefix_len (l ++ a) (l ++ b) = (List.length l + common_prefix_len a b)%nat.
Proof.
  induction l as [|x l IH]; [reflexivity|].
  cbn [app common_prefix_len List.length]. now rewrite String.eqb_refl, IH.
Qed.

Lemma relpath_in_issues (cs : list string) (issue_id : string) :
  forallb plain cs = true -> plain issue_id = true ->
  String.eqb issue_id specimin_project_name = false ->
  relpath ("/" ++ join_with sep cs)
          (join issue_folder_dir issue_id)
          (join issue_folder_dir specimin_project_name)
  = Some ("../" ++ issue_id).
Proof.
  intros Hcs Hx Hne. pose proof (plain_parts _ Hx) as (Hn & Hsl & _).
  assert (Hst : startswith_char sep_char issue_id = false).
  { destruct issue_id as [|a x]; [discriminate|]. cbn in Hsl |- *.
    now apply orb_false_iff in Hsl as [Ha _]. }
  unfold relpath.
  replace (nonempty (join issue_folder_dir issue_id)) with true
    by (unfold join; rewrite Hst; reflexivity).
  cbn [negb].
  rewrite (@abspath_in_issues cs issue_id Hcs Hx).
  rewrite (@abspath_in_issues cs specimin_project_name Hcs eq_refl).
  rewrite !components_plain;
    try (destruct cs; discriminate);
    try (rewrite forallb_app, Hcs; cbn; now rewrite ?Hx).
  rewrite common_prefix_len_app. cbn [common_prefix_len].
  replace (String.eqb issue_folder_dir issue_folder_dir) with true by reflexivity.
  rewrite String.eqb_sym, Hne.
  rewrite !length_app. cbn [List.length].
  replace (List.length cs + 2 - (List.length cs + 1))%nat with 1%nat by lia.
  replace (List.length cs + 1)%nat with (List.length (cs ++ [issue_folder_dir])) 
    by (rewrite length_app; reflexivity).
  replace (cs ++ [issue_folder_dir; issue_id])%list
    with ((cs ++ [issue_folder_dir]) ++ [issue_id])%list
    by (now rewrite <- app_assoc).
  rewrite skipn_app, skipn_all, Nat.sub_diag. cbn [repeat app skipn fold_left].
  unfold join, pardir. now rewrite Hst.
Qed.

Lemma relpath_of_tool_directory (cs : list string) :
  forallb plain cs = true ->
  relpath ("/" ++ join_with sep cs)
          (join issue_folder_dir specimin_project_name)
          (join issue_folder_dir specimin_project_name)
  = Some ".".
Proof.
  intros Hcs. unfold relpath.
  replace (nonempty (join issue_folder_dir specimin_project_name)) with true by reflexivity.
  cbn [negb].
  rewrite (@abspath_in_issues cs specimin_project_name Hcs eq_refl).
  rewrite components_plain;
    try (destruct cs; discriminate);
    try (rewrite forallb_app, Hcs; reflexivity).
  replace (common_prefix_len (cs ++ [issue_folder_dir; specimin_project_name])
                             (cs ++ [issue_folder_dir; specimin_project_name]))
    with (List.length (cs ++ [issue_folder_dir; specimin_project_name])).
  - rewrite Nat.sub_diag, skipn_all. reflexivity.
  - rewrite common_prefix_len_app, length_app. reflexivity.
Qed.

Lemma output_value_in_issues (issue_id : string) :
  plain issue_id = true ->
  output_value ("../" ++ issue_id) = "../" ++ issue_id ++ "/output".
Proof.
  intros Hx. apply plain_parts in Hx as (Hn & Hsl & _).
  unfold output_value, join, specimin_output. cbn [startswith_char].
  replace (Ascii.eqb "o" sep_char) with false by reflexivity.
  rewrite endswith_char_app by exact Hn.
  rewrite (endswith_no_char _ _ Hsl). cbn [append nonempty negb orb].
  rewrite ?append_assoc. reflexivity.
Qed.

(** X25. In a working directory of plain components and for a plain issue
    identifier other than [specimin], the command that [performEvaluation]
    builds addresses the issue relative to the minimiser's directory: the
    output directory is [../<issue_id>/output] and the root is built from
    [../<issue_id>]. *)
Theorem build_specimin_command_in_issues
        (cs : list string) (repo_name issue_id root_dir : string) (ts : list target) :
  forallb plain cs = true -> plain issue_id = true ->
  String.eqb issue_id "specimin" = false ->
  build_specimin_command ("/" ++ join_with "/" cs) repo_name
    (join issue_folder_dir issue_id)
    (join issue_folder_dir specimin_project_name) root_dir ts
  = Ok (command_line (root_value ("../" ++ issue_id) repo_name root_dir)
          ("../" ++ issue_id ++ "/output")
          (map qualified_file (filter has_file ts))
          (map qualified_method (filter has_method ts))).
Proof.
  intros Hcs Hx Hne. change (join_with "/" cs) with (join_with sep cs).
  rewrite (build_specimin_command_shape _ repo_name _ _ root_dir ts
             (@relpath_in_issues cs issue_id Hcs Hx Hne)).
  now rewrite output_value_in_issues.
Qed.

(** X26. An issue named [specimin] shares its directory with the minimiser:
    the relative path is [.], so the command puts the output into
    [./output] of the minimiser's own directory. *)
Theorem build_specimin_command_for_tool_name
        (cs : list string) (repo_name root_dir : string) (ts : list target) :
  forallb plain cs = true ->
  build_specimin_command ("/" ++ join_with "/" cs) repo_name
    (join issue_folder_dir "specimin")
    (join issue_folder_dir specimin_project_name) root_dir ts
  = Ok (command_line (root_value "." repo_name root_dir) "./output"
          (map qualified_file (filter has_file ts))
          (map qualified_method (filter has_method ts))).
Proof.
  intros Hcs. change (join_with "/" cs) with (join_with sep cs).
  change "specimin" with specimin_project_name.
  now rewrite (build_specimin_command_shape _ repo_name _ _ root_dir ts
                 (@relpath_of_tool_directory cs Hcs)).
Qed.

End RelativePaths.

(** ** The further properties on concrete runs *)

Section MoreRuns.
Import PyStr OsPath Spec.

Lemma get_repository_name_strips_extension_witness :
  get_repository_name ("https://github.com/google" ++ "/" ++ "nomulus" ++ "." ++ "git")
  = "nomulus".
Proof.
  apply (get_repository_name_strips_extension "https://github.com/google" "nomulus" "git");
    reflexivity.
Defined.

(** A name with a dot and no [.git] loses its last part. *)
Example get_repository_name_dotted :
  get_repository_name "https://github.com/socketio/socket.io" = "socket".
Proof. reflexivity. Qed.

Lemma create_issue_directory_returns_witness :
  "ISSUES/cf-1/input" = join (join "ISSUES" "cf-1") "input"
  /\ Fs.isdir (w_fs (snd (create_issue_directory "ISSUES" "cf-1" w_rerun)))
              (cwd_path (snd (create_issue_directory "ISSUES" "cf-1" w_rerun)))
              (join (join "ISSUES" "cf-1") "output") = true.
Proof.
  apply (create_issue_directory_returns "ISSUES" "cf-1" w_rerun). reflexivity.
Defined.

Lemma clone_repository_trailing_separator_witness :
  exists w',
    clone_repository sys_git ("https://github.com/google/nomulus.git" ++ "/") "repo" w_repo
    = (Ok tt, w')
    /\ w_fs w' = w_fs w_repo /\ w_calls w' = w_calls w_repo.
Proof.
  apply (clone_repository_trailing_separator sys_git
           "https://github.com/google/nomulus.git" "repo" w_repo).
  reflexivity.
Defined.

Lemma clone_specimin_cases_witness :
  exists w',
    clone_specimin sys_git issue_folder_dir specimin_source_url w_specimin_file = (Ok tt, w')
    /\ w_fs w' = w_fs w_specimin_file /\ w_calls w' = w_calls w_specimin_file.
Proof.
  apply (proj1 (proj2 (clone_specimin_cases sys_git w_specimin_file))); reflexivity.
Defined.

(** With the repository in place the minimiser is refreshed by a pull. *)
Example clone_specimin_pulls :
  w_calls (snd (clone_specimin sys_git issue_folder_dir specimin_source_url w_specimin_dir))
  = [git_pull "ISSUES/specimin"].
Proof. reflexivity. Qed.

Lemma is_git_directory_needs_directory_witness :
  change_branch sys_git "main" "ISSUES" w_specimin_file
  = (Raise (not_a_git_directory "ISSUES"), w_specimin_file)
  /\ checkout_commit sys_git "main" "ISSUES" w_specimin_file
     = (Raise (not_a_git_directory "ISSUES"), w_specimin_file).
Proof.
  apply (proj2 (is_git_directory_needs_directory sys_git "main" "ISSUES" w_specimin_file)).
  reflexivity.
Defined.

Lemma run_specimin_pass_witness :
  fst (run_specimin (sys_exit 0 EmptyString) "cf-1" "./gradlew run" "ISSUES/specimin" w_rerun)
  = Ok (mkResult "cf-1" "PASS" EmptyString)
  /\ w_fs (snd (run_specimin (sys_exit 0 EmptyString) "cf-1" "./gradlew run"
                             "ISSUES/specimin" w_rerun))
     = w_fs w_rerun.
Proof.
  apply (run_specimin_pass (sys_exit 0 EmptyString) "cf-1" "./gradlew run"
           "ISSUES/specimin" w_rerun (p := Completed 0 EmptyString EmptyString));
    reflexivity.
Defined.

Lemma run_specimin_undecodable_witness :
  exists r w',
    run_specimin (sys_exit 1 (String (ascii_of_nat 255) EmptyString)) "cf-1"
                 "./gradlew run" "ISSUES/specimin" w_rerun = (Ok r, w')
    /\ name r = "cf-1" /\ status r = "FAIL" /\ classify (reason r) = Unhandled
    /\ w_fs w' ["work"; "ISSUES"; "cf-1"; "cf-1_error.txt"] = Some (File EmptyString)
    /\ (forall q', q' <> ["work"; "ISSUES"; "cf-1"; "cf-1_error.txt"] ->
                   w_fs w' q' = w_fs w_rerun q').
Proof.
  apply (run_specimin_undecodable (sys_exit 1 (String (ascii_of_nat 255) EmptyString))
           "cf-1" "./gradlew run" "ISSUES/specimin" w_rerun
           (p := Completed 1 EmptyString (String (ascii_of_nat 255) EmptyString))
           (fs1 := w_fs w_rerun)
           (q := ["work"; "ISSUES"; "cf-1"; "cf-1_error.txt"])).
  - reflexivity.
  - simpl. lia.
  - reflexivity.
  - vm_compute. discriminate.
  - reflexivity.
Defined.

Lemma performEvaluation_returns_witness :
  name (mkResult "cf-6282" "PASS" EmptyString) = issue_id cf_6282
  /\ (status (mkResult "cf-6282" "PASS" EmptyString) = "PASS"
      \/ status (mkResult "cf-6282" "PASS" EmptyString) = "FAIL")
  /\ (exists cs command,
        forallb is_git_call cs = true
        /\ build_specimin_command (w_cwd w_specimin_dir) (get_repository_name (url cf_6282))
             (join issue_folder_dir (issue_id cf_6282))
             (join issue_folder_dir specimin_project_name)
             (root_dir cf_6282) (targets cf_6282) = Ok command
        /\ w_calls (snd (performEvaluation sys_git cf_6282 w_specimin_dir))
           = (w_calls w_specimin_dir ++ cs
                ++ [Call (Shell command) "ISSUES/specimin" (Some 300)])%list)
  /\ (exists out,
        w_stdout (snd (performEvaluation sys_git cf_6282 w_specimin_dir))
        = (out ++ [(issue_id cf_6282 ++ " - "
                      ++ status (mkResult "cf-6282" "PASS" EmptyString))%string])%list)
  /\ w_cwd (snd (performEvaluation sys_git cf_6282 w_specimin_dir)) = w_cwd w_specimin_dir.
Proof.
  apply (performEvaluation_returns sys_git cf_6282 w_specimin_dir). reflexivity.
Defined.

(** Without a clone the checkout of the branch is refused. *)
Lemma performEvaluation_raises_before_run_witness :
  exists cs,
    w_calls (snd (performEvaluation (sys_exit 128 "fatal: unable to access") cf_1 w_bare))
    = (w_calls w_bare ++ cs)%list
    /\ forallb is_git_call cs = true.
Proof.
  apply (performEvaluation_raises_before_run (sys_exit 128 "fatal: unable to access")
           cf_1 w_bare
           (e := Exn ValueError "ISSUES/cf-1/input/repo is not a valid git directory")).
  reflexivity.
Defined.

Lemma evaluate_issues_aborts_witness :
  evaluate_issues (sys_exit 128 "fatal: unable to access") ([] ++ cf_6282 :: [cf_1]) [] w_bare
  = (Raise (Exn ValueError "ISSUES/cf-6282/input/nomulus is not a valid git directory"),
     snd (performEvaluation (sys_exit 128 "fatal: unable to access") cf_6282
            (snd (evaluate_issues (sys_exit 128 "fatal: unable to access") [] [] w_bare)))).
Proof.
  apply (evaluate_issues_aborts (sys_exit 128 "fatal: unable to access") [] [cf_1]
           cf_6282 [] (acc1 := []) w_bare); reflexivity.
Defined.

Lemma main_listing_witness :
  exists out,
    w_stdout (snd (main sys_git table_printer (Some [cf_1; cf_6282]) w_bare))
    = (out ++ listing_header
           ++ listing_rows 1 [mkResult "cf-6282" "PASS" EmptyString])%list.
Proof.
  apply (main_listing sys_git table_printer (Some [cf_1; cf_6282]) w_bare).
  reflexivity.
Defined.


Lemma main_script_unreadable_corpus_witness :
  main_script sys_git table_printer json_load_empty w_corpus_binary
  = (Raise (Exn UnicodeDecodeError
              "'utf-8' codec can't decode byte 0xff in position 0: invalid start byte"),
     snd ((os_makedirs issue_folder_dir ;;
           clone_specimin sys_git issue_folder_dir specimin_source_url)
            w_corpus_binary)).
Proof.
  apply (main_script_unreadable_corpus sys_git table_printer json_load_empty
           w_corpus_binary);
    [reflexivity | reflexivity | discriminate | discriminate].
Defined.

Lemma main_script_missing_corpus_witness :
  let w2 := snd ((os_makedirs issue_folder_dir ;;
                  clone_specimin sys_git issue_folder_dir specimin_source_url) w_bare) in
  main_script sys_git table_printer json_load_empty w_bare
  = match table_printer []
            (World (w_fs w2) (w_cwd w2) (w_calls w2)
                   (w_stdout w2 ++ ["File not found: resources/test_data.json"]))
    with
    | (Ok _, w3) =>
        (Ok [], World (w_fs w3) (w_cwd w3) (w_calls w3)
                      (w_stdout w3 ++ listing_header))
    | (Raise e', w3) => (Raise e', w3)
    end.
Proof.
  apply (main_script_missing_corpus sys_git table_printer json_load_empty w_bare
           (e := Fs.enoent "resources/test_data.json")); reflexivity.
Defined.

Lemma build_specimin_command_in_issues_witness :
  build_specimin_command ("/" ++ join_with "/" ["work"]) "nomulus"
    (join issue_folder_dir "cf-6282")
    (join issue_folder_dir specimin_project_name) "core/src/main/java" [foo_bar]
  = Ok (command_line (root_value ("../" ++ "cf-6282") "nomulus" "core/src/main/java")
          ("../" ++ "cf-6282" ++ "/output")
          (map qualified_file (filter has_file [foo_bar]))
          (map qualified_method (filter has_method [foo_bar]))).
Proof.
  apply (build_specimin_command_in_issues ["work"] "nomulus" "cf-6282"
           "core/src/main/java" [foo_bar]); reflexivity.
Defined.

Lemma build_specimin_command_for_tool_name_witness :
  build_specimin_command ("/" ++ join_with "/" ["work"]) "nomulus"
    (join issue_folder_dir "specimin")
    (join issue_folder_dir specimin_project_name) "src" []
  = Ok (command_line (root_value "." "nomulus" "src") "./output"
          (map qualified_file (filter has_file []))
          (map qualified_method (filter has_method []))).
Proof.
  apply (build_specimin_command_for_tool_name ["work"] "nomulus" "src" []). reflexivity.
Defined.

End MoreRuns.
